(** * Route-Sasa: rider assignment and routing engine

    A shallow embedding of [orders/assignment_service.py], of the parts of
    [orders/sms_service.py], [orders/views.py], [orders/models.py] and
    [riders/models.py] it relies on, and the properties of the engine
    proved over it.

    Conventions of the embedding.
    - The database is a record of tables; a table is the list of its
      rows.  Riders, routes and messages are listed in storage order: a new
      row goes to the end.  Orders are listed in the order in which
      [Order.objects.filter(...)] yields them, that of
      [Order.Meta.ordering], newest first; [created_at] is set once, and
      the engine creates no order, so a [save()] leaves every row in its
      place.  A model instance in memory is a copy of its row; [save()]
      writes the copy back to the row with the same primary key.
    - A [QuerySet.order_by] is a stable sort of the filtered table: rows
      that tie on the sort key come out in table order.  SQL leaves the
      order of such rows to the database; what is proved of tied rows is
      proved of a database that returns them in table order.
    - A [Decimal] is a rational ([Q]).  A Python [float] is an IEEE 754
      binary64 number, with the arithmetic of the Standard Library's
      [SpecFloat]: every operation rounds to nearest, ties to even.  The
      loop body of [_find_best_rider] is embedded twice: [score_rider]
      reads its arithmetic exactly, on rationals, and carries the
      statements about the formula and its factors; [score_rider_float]
      evaluates it as Python does, and is what the selection sorts by.
    - A text is a string of code points below 256.
    - The engine writes no landmark: a [Landmark] stands for a row of its
      table.
    - Dates are day numbers, times of day are minutes after midnight.
    - An exception that the code does not catch ends the call; the model
      returns it together with the database as it was when it was raised. *)

From Stdlib Require Import List ZArith QArith String Ascii DecimalString Lia Bool Arith
  Permutation Sorted SpecFloat.
Import ListNotations.

Local Open Scope string_scope.
Local Open Scope nat_scope.

(** ** Data model ([orders/models.py], [riders/models.py]) *)

Inductive OrderStatus :=
| PENDING_CONFIRMATION | CONFIRMED | RESCHEDULE_REQUESTED | ASSIGNED
| IN_TRANSIT | DELIVERED | FAILED | CANCELLED.

Inductive RiderStatus := AVAILABLE | ON_DELIVERY | OFFLINE.

Inductive MessageType :=
| CONFIRMATION | RIDER_ASSIGNMENT | DELIVERY_SUCCESS | DELIVERY_FAILED.

Definition OrderStatus_eqb (a b : OrderStatus) : bool :=
  match a, b with
  | PENDING_CONFIRMATION, PENDING_CONFIRMATION | CONFIRMED, CONFIRMED
  | RESCHEDULE_REQUESTED, RESCHEDULE_REQUESTED | ASSIGNED, ASSIGNED
  | IN_TRANSIT, IN_TRANSIT | DELIVERED, DELIVERED | FAILED, FAILED
  | CANCELLED, CANCELLED => true
  | _, _ => false
  end.

Definition RiderStatus_eqb (a b : RiderStatus) : bool :=
  match a, b with
  | AVAILABLE, AVAILABLE | ON_DELIVERY, ON_DELIVERY | OFFLINE, OFFLINE => true
  | _, _ => false
  end.

(** [Landmark]: primary key and the one attribute the engine reads. *)
Record Landmark := mkLandmark {
  landmark_pk : nat;
  name : string
}.

(** [Rider].  [full_name] stands for [user.get_full_name()];
    [preferred_landmarks] holds the primary keys of the many-to-many rows. *)
Record Rider := mkRider {
  rider_pk : nat;
  full_name : string;
  phone_number : string;
  preferred_landmarks : list nat;
  rider_status : RiderStatus;
  total_deliveries : Z;
  successful_deliveries : Z;
  failed_deliveries : Z;
  rating : Q
}.

(** [Order].  [landmark] is nullable ([on_delete=SET_NULL, null=True]);
    [assigned_rider] is the nullable foreign key; [vendor_phone] stands for
    [vendor.profile.phone], the empty string when the vendor has no
    profile. *)
Record Order := mkOrder {
  order_pk : nat;
  order_number : string;
  customer_name : string;
  customer_phone : string;
  vendor_phone : string;
  landmark : option Landmark;
  delivery_date : nat;
  delivery_time_start : nat;
  status : OrderStatus;
  assigned_rider : option nat;
  confirmation_sms_sent : bool;
  delivered_at : option nat;
  delivery_proof : string;
  failure_reason : string
}.

(** [DeliveryRoute].  [route_rider] is the foreign key [rider];
    [route_landmark] is not nullable; [route_orders] are the primary keys
    of the member orders. *)
Record DeliveryRoute := mkRoute {
  route_pk : nat;
  route_rider : nat;
  route_date : nat;
  route_landmark : Landmark;
  route_orders : list nat;
  sequence : Z;
  estimated_arrival : nat;
  completed : bool
}.

Record SMSLog := mkSMSLog {
  log_order : option nat;
  recipient_phone : string;
  message_type : MessageType;
  message_content : string;
  delivered : bool
}.

Record DB := mkDB {
  riders : list Rider;
  orders : list Order;
  routes : list DeliveryRoute;
  sms_logs : list SMSLog
}.

(** Attribute assignments on instances in memory. *)

Definition set_rider_status (s : RiderStatus) (r : Rider) : Rider :=
  mkRider (rider_pk r) (full_name r) (phone_number r) (preferred_landmarks r)
          s (total_deliveries r) (successful_deliveries r)
          (failed_deliveries r) (rating r).

Definition set_counters (t s f : Z) (r : Rider) : Rider :=
  mkRider (rider_pk r) (full_name r) (phone_number r) (preferred_landmarks r)
          (rider_status r) t s f (rating r).

Definition set_assignment (rider : nat) (st : OrderStatus) (o : Order) : Order :=
  mkOrder (order_pk o) (order_number o) (customer_name o) (customer_phone o)
          (vendor_phone o) (landmark o) (delivery_date o)
          (delivery_time_start o) st (Some rider) (confirmation_sms_sent o)
          (delivered_at o) (delivery_proof o) (failure_reason o).

Definition set_status (st : OrderStatus) (o : Order) : Order :=
  mkOrder (order_pk o) (order_number o) (customer_name o) (customer_phone o)
          (vendor_phone o) (landmark o) (delivery_date o)
          (delivery_time_start o) st (assigned_rider o)
          (confirmation_sms_sent o) (delivered_at o) (delivery_proof o)
          (failure_reason o).

Definition set_delivered (at_ : nat) (proof : string) (o : Order) : Order :=
  mkOrder (order_pk o) (order_number o) (customer_name o) (customer_phone o)
          (vendor_phone o) (landmark o) (delivery_date o)
          (delivery_time_start o) (status o) (assigned_rider o)
          (confirmation_sms_sent o) (Some at_) proof (failure_reason o).

Definition set_failure_reason (reason : string) (o : Order) : Order :=
  mkOrder (order_pk o) (order_number o) (customer_name o) (customer_phone o)
          (vendor_phone o) (landmark o) (delivery_date o)
          (delivery_time_start o) (status o) (assigned_rider o)
          (confirmation_sms_sent o) (delivered_at o) (delivery_proof o) reason.

Definition set_confirmation_sent (o : Order) : Order :=
  mkOrder (order_pk o) (order_number o) (customer_name o) (customer_phone o)
          (vendor_phone o) (landmark o) (delivery_date o)
          (delivery_time_start o) (status o) (assigned_rider o) true
          (delivered_at o) (delivery_proof o) (failure_reason o).

Definition set_sequence (idx : Z) (r : DeliveryRoute) : DeliveryRoute :=
  mkRoute (route_pk r) (route_rider r) (route_date r) (route_landmark r)
          (route_orders r) idx (estimated_arrival r) (completed r).

(** Table updates. *)

Definition with_riders (f : list Rider -> list Rider) (db : DB) : DB :=
  mkDB (f (riders db)) (orders db) (routes db) (sms_logs db).

Definition with_orders (f : list Order -> list Order) (db : DB) : DB :=
  mkDB (riders db) (f (orders db)) (routes db) (sms_logs db).

Definition with_routes (f : list DeliveryRoute -> list DeliveryRoute) (db : DB) : DB :=
  mkDB (riders db) (orders db) (f (routes db)) (sms_logs db).

Definition with_sms_logs (f : list SMSLog -> list SMSLog) (db : DB) : DB :=
  mkDB (riders db) (orders db) (routes db) (f (sms_logs db)).

(** [instance.save()]: the row with the instance's primary key takes the
    instance's fields. *)
Definition put_row {A : Type} (pk : A -> nat) (x : A) (table : list A) : list A :=
  map (fun row => if pk row =? pk x then x else row) table.

(** [Model.objects.get(pk=...)]. *)
Definition get_row {A : Type} (pk : A -> nat) (k : nat) (table : list A) : option A :=
  find (fun row => pk row =? k) table.

(** The primary key an auto-increment column gives the next row. *)
Definition next_pk {A : Type} (pk : A -> nat) (table : list A) : nat :=
  S (list_max (map pk table)).

(** ** Sorting

    [sort_by before] is a stable sort: [before y x] says that [y] must
    come out ahead of [x]; an element is moved behind exactly those
    elements that must come out ahead of it, so elements that tie keep
    their input order.  It is the reading of both [list.sort] and
    [QuerySet.order_by]. *)

Fixpoint insert_by {A : Type} (before : A -> A -> bool) (x : A) (sorted : list A) : list A :=
  match sorted with
  | [] => [x]
  | y :: rest =>
      if before y x then y :: insert_by before x rest else x :: y :: rest
  end.

Definition sort_by {A : Type} (before : A -> A -> bool) (l : list A) : list A :=
  fold_right (insert_by before) [] l.

(** ** Exceptions and the database monad *)

Inductive exn :=
| AttributeError | IndexError | ValueError | IntegrityError | DoesNotExist.

Inductive outcome (A : Type) :=
| Return (a : A) (db : DB)
| Raised (e : exn) (db : DB).
Arguments Return {A} a db.
Arguments Raised {A} e db.

Definition final_db {A : Type} (o : outcome A) : DB :=
  match o with Return _ db => db | Raised _ db => db end.

Definition M (A : Type) : Type := DB -> outcome A.

Definition ret {A : Type} (a : A) : M A := fun db => Return a db.
Definition raise {A : Type} (e : exn) : M A := fun db => Raised e db.
Definition bind {A B : Type} (m : M A) (f : A -> M B) : M B :=
  fun db => match m db with
            | Return a db' => f a db'
            | Raised e db' => Raised e db'
            end.
Definition query {A : Type} (q : DB -> A) : M A := fun db => Return (q db) db.
Definition update (f : DB -> DB) : M unit := fun db => Return tt (f db).

Notation "x <- m ;; k" := (bind m (fun x => k))
  (at level 61, m at next level, right associativity).
Notation "' pat <- m ;; k" := (bind m (fun x => match x with pat => k end))
  (at level 61, pat pattern, m at next level, right associativity).
Notation "m ;;; k" := (bind m (fun _ => k))
  (at level 61, right associativity).

(** [for x in xs: body(x)], collecting what the body leaves in [x]. *)
Fixpoint for_each {A B : Type} (body : A -> M B) (xs : list A) : M (list B) :=
  match xs with
  | [] => ret []
  | x :: rest => y <- body x ;; ys <- for_each body rest ;; ret (y :: ys)
  end.

(** Python helpers. *)

(** [xs[0]]. *)
Definition getitem0 {A : Type} (xs : list A) : M A :=
  match xs with
  | x :: _ => ret x
  | [] => raise IndexError
  end.

(** [min(xs)] on times. *)
Definition py_min (xs : list nat) : M nat :=
  match xs with
  | x :: rest => ret (fold_left Nat.min rest x)
  | [] => raise ValueError
  end.

(** [landmark.name], on a reference that may be [None]. *)
Definition attr_name (landmark : option Landmark) : M string :=
  match landmark with
  | Some l => ret (name l)
  | None => raise AttributeError
  end.

(** [str(n)] inside an f-string. *)
Definition str (n : nat) : string := NilZero.string_of_uint (Nat.to_uint n).

(** [enumerate(xs, start=1)]. *)
Definition enumerate1 {A : Type} (xs : list A) : list (Z * A) :=
  combine (map Z.of_nat (seq 1 (List.length xs))) xs.

(** Python's [float]: binary64. *)
Definition float : Type := spec_float.

Definition prec : Z := 53.
Definition emax : Z := 1024.

(** [x + y], [x * y] and [x / y] on floats, [y] not zero in the last. *)
Definition float_add : float -> float -> float := SFadd prec emax.
Definition float_mul : float -> float -> float := SFmul prec emax.
Definition float_truediv : float -> float -> float := SFdiv prec emax.

(** [x < y] and [x <= y] on floats; both are false when one side is not a
    number. *)
Definition float_lt : float -> float -> bool := SFltb.
Definition float_le : float -> float -> bool := SFleb.

Definition isnan (x : float) : bool :=
  match x with
  | S754_nan => true
  | _ => false
  end.

(** An [int] as an exact operand, not yet rounded. *)
Definition integer (n : Z) : spec_float :=
  match n with
  | Z0 => S754_zero false
  | Zpos p => S754_finite false p 0
  | Zneg p => S754_finite true p 0
  end.

(** [float(n)], which is also what an [int] operand becomes when the
    other operand is a float. *)
Definition float_of_int (n : Z) : float := binary_normalize prec emax n 0 false.

(** [a / b] on two [int]s, [b] not zero: the quotient, rounded once. *)
Definition int_truediv (a b : Z) : float := SFdiv prec emax (integer a) (integer b).

(** [float(d)] on a [Decimal]: the float nearest to it. *)
Definition float_of_decimal (d : Q) : float := int_truediv (Qnum d) (Zpos (Qden d)).

Definition save_order (o : Order) : M unit :=
  update (with_orders (put_row order_pk o)).

Definition save_rider (r : Rider) : M unit :=
  update (with_riders (put_row rider_pk r)).

Definition save_route (r : DeliveryRoute) : M unit :=
  update (with_routes (put_row route_pk r)).

Section Engine.

(** The world outside the engine: whether the SMS gateway accepts a
    message for a recipient ([self.sms.send] returns, or raises), the
    clock, and the rendering of dates and times. *)
Variable gateway : string -> string -> bool.
Variable now : nat.
Variable strftime : string -> nat -> string.

(** ** [orders/sms_service.py] *)

Definition _send_sms (phone message : string) (order : option Order)
           (message_type : MessageType) : M bool :=
  let phone :=
    if prefix "+" phone then phone
    else if prefix "0" phone then "+254" ++ substring 1 (String.length phone - 1) phone
    else if prefix "254" phone then "+" ++ phone
    else "+254" ++ phone in
  match gateway message phone, order with
  | true, Some o =>
      update (with_sms_logs (fun t =>
        (t ++ [mkSMSLog (Some (order_pk o)) phone message_type message true])%list)) ;;;
      match message_type with
      | CONFIRMATION => save_order (set_confirmation_sent o)
      | _ => ret tt
      end ;;;
      ret true
  | false, Some o =>
      update (with_sms_logs (fun t =>
        (t ++ [mkSMSLog (Some (order_pk o)) phone message_type message false])%list)) ;;;
      ret false
  | _, None =>
      (* the log row needs an order: creating it fails, and the handler
         has nothing to log *)
      ret false
  end.

Definition send_rider_assignment_sms (rider : Rider) (orders : list Order) : M bool :=
  landmark_name <-
    match orders with
    | o :: _ => attr_name (landmark o)
    | [] => ret "your area"
    end ;;
  let order_count := List.length orders in
  start_time <- py_min (map delivery_time_start orders) ;;
  let message :=
    "New delivery assignment! " ++
    str order_count ++ " stop(s) near " ++ landmark_name ++ ". " ++
    "Start at " ++ strftime "%I:%M%p" start_time ++ ". " ++
    "Check your dashboard for details." in
  _send_sms (phone_number rider) message (hd_error orders) RIDER_ASSIGNMENT.

Definition send_delivery_success_sms (order : Order) : M bool :=
  let customer_message :=
    "Your order #" ++ order_number order ++ " has been delivered successfully. " ++
    "Thank you for your business!" in
  delivered_at_ <-
    match delivered_at order with
    | Some t => ret t
    | None => raise AttributeError
    end ;;
  let vendor_message :=
    "Order #" ++ order_number order ++ " to " ++ customer_name order ++ " " ++
    "delivered successfully at " ++ strftime "%I:%M%p" delivered_at_ ++ "." in
  customer_result <-
    _send_sms (customer_phone order) customer_message (Some order) DELIVERY_SUCCESS ;;
  vendor_result <-
    _send_sms (vendor_phone order) vendor_message (Some order) DELIVERY_SUCCESS ;;
  ret (customer_result && vendor_result).

Definition send_delivery_failed_sms (order : Order) : M bool :=
  let message :=
    "Delivery failed for order #" ++ order_number order ++ " to " ++
    customer_name order ++ ". " ++
    "Reason: " ++ failure_reason order ++ ". " ++
    "Please contact customer at " ++ customer_phone order ++ "." in
  _send_sms (vendor_phone order) message (Some order) DELIVERY_FAILED.

(** ** [orders/assignment_service.py] *)

(** [Rider.success_rate]. *)
Definition success_rate (rider : Rider) : Q :=
  if (total_deliveries rider =? 0)%Z then 0%Q
  else ((inject_Z (successful_deliveries rider) / inject_Z (total_deliveries rider)) * 100)%Q.

(** [landmark in rider.preferred_landmarks.all()]: instances are equal
    when their primary keys are. *)
Definition landmark_in (landmark : option Landmark) (pks : list nat) : bool :=
  match landmark with
  | Some l => existsb (Nat.eqb (landmark_pk l)) pks
  | None => false
  end.

(** The count query of the workload factor. *)
Definition current_assignments (rider : Rider) (date : nat) (db : DB) : nat :=
  List.length (filter (fun o =>
            match assigned_rider o with
            | Some k => k =? rider_pk rider
            | None => false
            end
            && (OrderStatus_eqb (status o) ASSIGNED || OrderStatus_eqb (status o) IN_TRANSIT)
            && (delivery_date o =? date))
          (orders db)).

Definition rating_score (rider : Rider) : Q := ((rating rider / 5) * 25)%Q.

Definition success_score (rider : Rider) : Q := ((success_rate rider / 100) * 20)%Q.


(** [rider.success_rate] as Python computes it: the [int] 0, which the
    division by [100.0] turns into a float, or a float. *)
Definition success_rate_float (rider : Rider) : float :=
  if (total_deliveries rider =? 0)%Z then float_of_int 0
  else float_mul (int_truediv (successful_deliveries rider) (total_deliveries rider))
                 (float_of_int 100).

(** The same body as Python evaluates it: [score] is an [int] until the
    rating factor, a float, is added to it. *)
Definition score_rider_float (landmark : option Landmark) (orders : list Order)
           (rider : Rider) : M (Rider * float) :=
  let score := 0%Z in
  let score :=
    if landmark_in landmark (preferred_landmarks rider) then (score + 30)%Z else score in
  first <- getitem0 orders ;;
  current_assignments <- query (current_assignments rider (delivery_date first)) ;;
  let score :=
    if current_assignments =? 0 then (score + 25)%Z
    else if current_assignments <=? 2 then (score + 15)%Z
    else if current_assignments <=? 5 then (score + 5)%Z
    else score in
  let rating_score :=
    float_mul (float_truediv (float_of_decimal (rating rider)) (float_of_int 5))
              (float_of_int 25) in
  let score := float_add (float_of_int score) rating_score in
  let success_score :=
    float_mul (float_truediv (success_rate_float rider) (float_of_int 100))
              (float_of_int 20) in
  let score := float_add score success_score in
  ret (rider, score).

(** [x[1]] of [x] below [x[1]] of [y]: [y] comes out ahead of [x] in
    [sort(key=lambda x: x[1], reverse=True)], which compares keys with
    [<] and keeps entries that do not compare in their order. *)
Definition higher_score (y x : Rider * float) : bool :=
  float_lt (snd x) (snd y).

Definition _find_best_rider (riders : list Rider) (landmark : option Landmark)
           (orders : list Order) : M (option Rider) :=
  scored_riders <- for_each (score_rider_float landmark orders) riders ;;
  let scored_riders := sort_by higher_score scored_riders in
  ret match scored_riders with
      | (rider, _) :: _ => Some rider
      | [] => None
      end.

Definition same_rider_and_date (rider : Rider) (date : nat) (r : DeliveryRoute) : bool :=
  (route_rider r =? rider_pk rider) && (route_date r =? date).

(** [DeliveryRoute.objects.create(...)]; the landmark column is not
    nullable.  The width of the integer column [sequence] is not part of
    the embedding: a sequence is an integer. *)
Definition create_route (rider : Rider) (date : nat) (landmark : option Landmark)
           (sequence : Z) (estimated_arrival : nat) : M DeliveryRoute :=
  match landmark with
  | None => raise IntegrityError
  | Some l =>
      pk <- query (fun db => next_pk route_pk (routes db)) ;;
      let route := mkRoute pk (rider_pk rider) date l [] sequence estimated_arrival false in
      update (with_routes (fun t => (t ++ [route])%list)) ;;;
      ret route
  end.

(** [route.orders.set(orders)]; the list stands for the set of the
    route's members. *)
Definition set_route_orders (orders : list Order) (r : DeliveryRoute) : DeliveryRoute :=
  mkRoute (route_pk r) (route_rider r) (route_date r) (route_landmark r)
          (map order_pk orders) (sequence r) (estimated_arrival r) (completed r).

Definition _create_delivery_route (rider : Rider) (landmark : option Landmark)
           (delivery_date : nat) (orders : list Order) : M DeliveryRoute :=
  existing_routes <- query (fun db =>
    sort_by (fun y x => (sequence y >? sequence x)%Z)
            (filter (same_rider_and_date rider delivery_date) (routes db))) ;;
  let sequence :=
    match existing_routes with
    | first :: _ => (sequence first + 1)%Z
    | [] => 1%Z
    end in
  estimated_arrival <- py_min (map delivery_time_start orders) ;;
  route <- create_route rider delivery_date landmark sequence estimated_arrival ;;
  let route := set_route_orders orders route in
  save_route route ;;;
  ret route.

(** One entry of [details]. *)
Inductive GroupResult :=
| GroupFailure (landmark_name reason : string) (order_count : nat)
| GroupSuccess (landmark_name rider_name : string) (order_count route_id : nat).

Definition success (r : GroupResult) : bool :=
  match r with
  | GroupSuccess _ _ _ _ => true
  | GroupFailure _ _ _ => false
  end.

(** [order_by('-rating', '-successful_deliveries')]. *)
Definition rating_order (y x : Rider) : bool :=
  match (rating y ?= rating x)%Q with
  | Gt => true
  | Eq => (successful_deliveries y >? successful_deliveries x)%Z
  | Lt => false
  end.

Definition is_available (r : Rider) : bool :=
  RiderStatus_eqb (rider_status r) AVAILABLE.

Definition available_riders (db : DB) : list Rider :=
  sort_by rating_order (filter is_available (riders db)).

Definition assign_order (best_rider : Rider) (order : Order) : M Order :=
  let order := set_assignment (rider_pk best_rider) ASSIGNED order in
  save_order order ;;;
  ret order.

Definition _assign_group_to_rider (landmark : option Landmark) (delivery_date : nat)
           (orders : list Order) : M GroupResult :=
  available_riders <- query available_riders ;;
  match available_riders with
  | [] =>
      landmark_name <- attr_name landmark ;;
      ret (GroupFailure landmark_name "No available riders" (List.length orders))
  | _ :: _ =>
      best_rider <- _find_best_rider available_riders landmark orders ;;
      match best_rider with
      | None =>
          landmark_name <- attr_name landmark ;;
          ret (GroupFailure landmark_name "No suitable rider found" (List.length orders))
      | Some best_rider =>
          orders <- for_each (assign_order best_rider) orders ;;
          route <- _create_delivery_route best_rider landmark delivery_date orders ;;
          send_rider_assignment_sms best_rider orders ;;;
          let best_rider := set_rider_status ON_DELIVERY best_rider in
          save_rider best_rider ;;;
          landmark_name <- attr_name landmark ;;
          ret (GroupSuccess landmark_name (full_name best_rider) (List.length orders)
                            (route_pk route))
      end
  end.

(** Keys of [grouped]: a tuple of a landmark instance (or [None]) and a
    date; instances are equal when their primary keys are. *)
Definition key_eqb (k1 k2 : option Landmark * nat) : bool :=
  match fst k1, fst k2 with
  | Some a, Some b => landmark_pk a =? landmark_pk b
  | None, None => true
  | _, _ => false
  end && (snd k1 =? snd k2).

(** [if key not in grouped: grouped[key] = []] then
    [grouped[key].append(order)], on a dict in insertion order. *)
Fixpoint group_add (key : option Landmark * nat) (order : Order)
         (grouped : list ((option Landmark * nat) * list Order))
  : list ((option Landmark * nat) * list Order) :=
  match grouped with
  | [] => [(key, [order])]
  | (k, members) :: rest =>
      if key_eqb k key then (k, (members ++ [order])%list) :: rest
      else (k, members) :: group_add key order rest
  end.

Definition _group_orders_by_landmark_and_date (orders : list Order)
  : list ((option Landmark * nat) * list Order) :=
  fold_left (fun grouped order =>
               group_add (landmark order, delivery_date order) order grouped)
            orders [].

Inductive Report :=
| NoOrders (message : string)
| Assigned (assigned_count total_orders : nat) (details : list GroupResult).

(** The loop over [grouped_orders.items()], with its two accumulators. *)
Fixpoint assign_groups (grouped : list ((option Landmark * nat) * list Order))
         (assigned_count : nat) (results : list GroupResult)
  : M (nat * list GroupResult) :=
  match grouped with
  | [] => ret (assigned_count, results)
  | ((landmark, delivery_date), orders) :: rest =>
      result <- _assign_group_to_rider landmark delivery_date orders ;;
      let assigned_count :=
        if success result then assigned_count + List.length orders else assigned_count in
      assign_groups rest assigned_count (results ++ [result])%list
  end.

Definition confirmed_unassigned (o : Order) : bool :=
  OrderStatus_eqb (status o) CONFIRMED
  && match assigned_rider o with None => true | Some _ => false end.

(** A queryset over orders is the filter it applies to the table, whose
    rows come in the order of [Order.Meta.ordering]. *)
Definition assign_orders_to_riders (orders_queryset : option (Order -> bool)) : M Report :=
  let orders_queryset :=
    match orders_queryset with
    | None => confirmed_unassigned
    | Some q => q
    end in
  rows <- query (fun db => filter orders_queryset (orders db)) ;;
  match rows with
  | [] => ret (NoOrders "No orders to assign")
  | _ :: _ =>
      let grouped_orders := _group_orders_by_landmark_and_date rows in
      '(assigned_count, results) <- assign_groups grouped_orders 0 [] ;;
      ret (Assigned assigned_count (List.length rows) results)
  end.

Definition incomplete_on (rider : Rider) (date : nat) (r : DeliveryRoute) : bool :=
  (route_rider r =? rider_pk rider) && (route_date r =? date) && negb (completed r).

Definition earlier_arrival (y x : DeliveryRoute) : bool :=
  estimated_arrival y <? estimated_arrival x.

Record RouteSummary := mkRouteSummary {
  summary_sequence : Z;
  summary_landmark : string;
  summary_time : string;
  summary_orders : nat
}.

Record OptimizeSummary := mkOptimizeSummary {
  summary_rider : string;
  summary_date : nat;
  route_count : nat;
  summary_routes : list RouteSummary
}.

(** The body of the loop of [optimize_rider_route]. *)
Definition renumber (entry : Z * DeliveryRoute) : M DeliveryRoute :=
  let '(idx, route) := entry in
  let route := set_sequence idx route in
  save_route route ;;;
  ret route.

Definition optimize_rider_route (rider : Rider) (delivery_date : nat) : M OptimizeSummary :=
  routes <- query (fun db =>
    sort_by earlier_arrival (filter (incomplete_on rider delivery_date) (routes db))) ;;
  routes <- for_each renumber (enumerate1 routes) ;;
  ret (mkOptimizeSummary
         (full_name rider) delivery_date (List.length routes)
         (map (fun r => mkRouteSummary (sequence r) (name (route_landmark r))
                          (strftime "%I:%M %p" (estimated_arrival r))
                          (List.length (route_orders r)))
              routes)).

(** ** [orders/views.py] *)

Inductive Response :=
| HTTP_200_OK (message : string) (order : Order)
| HTTP_400_BAD_REQUEST (error : string)
| HTTP_403_FORBIDDEN (error : string)
| HTTP_404_NOT_FOUND.

(** [request.data] of a status update: [data_status] is [None] when the
    value is missing or not one of [ORDER_STATUS]; an optional text field
    that is missing reads as the empty string. *)
Record StatusUpdate := mkStatusUpdate {
  data_status : option OrderStatus;
  data_delivery_proof : string;
  data_failure_reason : string
}.

Definition is_empty (s : string) : bool :=
  match s with
  | EmptyString => true
  | _ => false
  end.

(** Python's [str.isspace] on a code point below 256, and [str.strip()]. *)
Definition isspace (c : ascii) : bool :=
  let n := nat_of_ascii c in
  ((9 <=? n) && (n <=? 13)) || ((28 <=? n) && (n <=? 32)) || (n =? 133) || (n =? 160).

Fixpoint lstrip (s : string) : string :=
  match s with
  | String c rest => if isspace c then lstrip rest else s
  | EmptyString => EmptyString
  end.

Fixpoint rstrip (s : string) : string :=
  match s with
  | String c rest =>
      match rstrip rest with
      | EmptyString => if isspace c then EmptyString else String c EmptyString
      | kept => String c kept
      end
  | EmptyString => EmptyString
  end.

Definition strip (s : string) : string := rstrip (lstrip s).

Fixpoint has_null (s : string) : bool :=
  match s with
  | String c rest => (nat_of_ascii c =? 0) || has_null rest
  | EmptyString => false
  end.

(** [CharField(required=False, allow_blank=True)] on the text sent: the
    value is the text without the whitespace around it; a value that holds
    a null character is rejected. *)
Definition CharField (text : string) : option string :=
  let value := strip text in
  if has_null value then None else Some value.

(** [serializer.validated_data]. *)
Record ValidatedData := mkValidatedData {
  validated_status : OrderStatus;
  validated_delivery_proof : string;
  validated_failure_reason : string
}.

(** [OrderStatusUpdateSerializer.validate], on the values the fields let
    through. *)
Definition validate (data : ValidatedData) : option ValidatedData :=
  match validated_status data with
  | DELIVERED => if is_empty (validated_delivery_proof data) then None else Some data
  | FAILED => if is_empty (validated_failure_reason data) then None else Some data
  | _ => Some data
  end.

(** [serializer.is_valid()]: every field, then [validate]; the validated
    data, or nothing when the request is rejected. *)
Definition is_valid (data : StatusUpdate) : option ValidatedData :=
  match data_status data,
        CharField (data_delivery_proof data),
        CharField (data_failure_reason data) with
  | Some st, Some delivery_proof, Some failure_reason =>
      validate (mkValidatedData st delivery_proof failure_reason)
  | _, _, _ => None
  end.

Definition get_status_display (o : Order) : string :=
  match status o with
  | PENDING_CONFIRMATION => "Pending Customer Confirmation"
  | CONFIRMED => "Confirmed by Customer"
  | RESCHEDULE_REQUESTED => "Reschedule Requested"
  | ASSIGNED => "Assigned to Rider"
  | IN_TRANSIT => "In Transit"
  | DELIVERED => "Delivered Successfully"
  | FAILED => "Delivery Failed"
  | CANCELLED => "Cancelled"
  end.

(** Following a foreign key to a rider. *)
Definition load_rider (k : nat) : M Rider :=
  found <- query (fun db => get_row rider_pk k (riders db)) ;;
  match found with
  | Some r => ret r
  | None => raise DoesNotExist
  end.

Definition OrderUpdateStatusView_post (data : StatusUpdate) (pk : nat) : M Response :=
  found <- query (fun db => get_row order_pk pk (orders db)) ;;
  match found with
  | None => ret HTTP_404_NOT_FOUND
  | Some order =>
      match is_valid data with
      | None => ret (HTTP_400_BAD_REQUEST "serializer.errors")
      | Some validated_data =>
          let order := set_status (validated_status validated_data) order in
          order <-
            match validated_status validated_data with
            | DELIVERED =>
                let order :=
                  set_delivered now (validated_delivery_proof validated_data) order in
                match assigned_rider order with
                | Some k =>
                    rider <- load_rider k ;;
                    let rider :=
                      set_counters (total_deliveries rider + 1)
                                   (successful_deliveries rider)
                                   (failed_deliveries rider) rider in
                    let rider :=
                      set_counters (total_deliveries rider)
                                   (successful_deliveries rider + 1)
                                   (failed_deliveries rider) rider in
                    save_rider rider
                | None => ret tt
                end ;;;
                send_delivery_success_sms order ;;;
                ret order
            | FAILED =>
                let order :=
                  set_failure_reason (validated_failure_reason validated_data) order in
                match assigned_rider order with
                | Some k =>
                    rider <- load_rider k ;;
                    let rider :=
                      set_counters (total_deliveries rider + 1)
                                   (successful_deliveries rider)
                                   (failed_deliveries rider) rider in
                    let rider :=
                      set_counters (total_deliveries rider)
                                   (successful_deliveries rider)
                                   (failed_deliveries rider + 1) rider in
                    save_rider rider
                | None => ret tt
                end ;;;
                send_delivery_failed_sms order ;;;
                ret order
            | _ => ret order
            end ;;
          save_order order ;;;
          ret (HTTP_200_OK ("Order status updated to " ++ get_status_display order) order)
      end
  end.

(** What [ManualAssignOrderView.post] reads of the request: [rider_id] is
    [None] when the key is missing. *)
Record ManualAssign := mkManualAssign {
  is_staff : bool;
  rider_id : option nat
}.

(** [route.orders.add(order)]. *)
Definition add_route_order (order : Order) (r : DeliveryRoute) : DeliveryRoute :=
  mkRoute (route_pk r) (route_rider r) (route_date r) (route_landmark r)
          (route_orders r ++ [order_pk order])%list (sequence r)
          (estimated_arrival r) (completed r).

Definition ManualAssignOrderView_post (request : ManualAssign) (pk : nat) : M Response :=
  if negb (is_staff request) then
    ret (HTTP_403_FORBIDDEN "Only staff can manually assign orders")
  else
    found <- query (fun db => get_row order_pk pk (orders db)) ;;
    match found with
    | None => ret HTTP_404_NOT_FOUND
    | Some order =>
        match rider_id request with
        | None | Some 0 => ret (HTTP_400_BAD_REQUEST "rider_id is required")
        | Some rider_id =>
            found <- query (fun db => get_row rider_pk rider_id (riders db)) ;;
            match found with
            | None => ret HTTP_404_NOT_FOUND
            | Some rider =>
                let order := set_assignment (rider_pk rider) ASSIGNED order in
                save_order order ;;;
                route <- create_route rider (delivery_date order) (landmark order) 1
                                      (delivery_time_start order) ;;
                save_route (add_route_order order route) ;;;
                send_rider_assignment_sms rider [order] ;;;
                ret (HTTP_200_OK "Order assigned successfully" order)
            end
        end
    end.

(** [OrderConfirmView.post] and [OrderRescheduleView.post].  The
    response carries the order, of which the view shows [order_number] and
    [status]; [customer_confirmed_at], which nothing reads, is not among
    the fields of the embedding. *)
Definition OrderConfirmView_post (pk : nat) : M Response :=
  found <- query (fun db => get_row order_pk pk (orders db)) ;;
  match found with
  | None => ret HTTP_404_NOT_FOUND
  | Some order =>
      if negb (OrderStatus_eqb (status order) PENDING_CONFIRMATION) then
        ret (HTTP_400_BAD_REQUEST "Order cannot be confirmed")
      else
        let order := set_status CONFIRMED order in
        save_order order ;;;
        ret (HTTP_200_OK "Order confirmed successfully" order)
  end.

Definition OrderRescheduleView_post (pk : nat) : M Response :=
  found <- query (fun db => get_row order_pk pk (orders db)) ;;
  match found with
  | None => ret HTTP_404_NOT_FOUND
  | Some order =>
      if negb (OrderStatus_eqb (status order) PENDING_CONFIRMATION) then
        ret (HTTP_400_BAD_REQUEST "Order cannot be rescheduled")
      else
        let order := set_status RESCHEDULE_REQUESTED order in
        save_order order ;;;
        ret (HTTP_200_OK "Reschedule request received" order)
  end.

(** [AssignOrdersView.post]. *)
Inductive AssignResponse :=
| AssignForbidden (error : string)
| AssignCompleted (message : string) (result : Report).

Definition AssignOrdersView_post (user_is_staff : bool) : M AssignResponse :=
  if negb user_is_staff then
    ret (AssignForbidden "Only staff can trigger assignments")
  else
    result <- assign_orders_to_riders None ;;
    ret (AssignCompleted "Assignment completed" result).

(** [OrderAdmin.mark_as_delivered]: one [queryset.update], which returns
    the number of rows matched; the result is the message shown to the
    user. *)
Definition set_delivered_at (at_ : nat) (o : Order) : Order :=
  mkOrder (order_pk o) (order_number o) (customer_name o) (customer_phone o)
          (vendor_phone o) (landmark o) (delivery_date o)
          (delivery_time_start o) (status o) (assigned_rider o)
          (confirmation_sms_sent o) (Some at_) (delivery_proof o)
          (failure_reason o).

Definition mark_as_delivered (queryset : Order -> bool) : M string :=
  updated <- query (fun db => List.length (filter queryset (orders db))) ;;
  update (with_orders (map (fun o =>
            if queryset o then set_delivered_at now (set_status DELIVERED o) else o))) ;;;
  ret (str updated ++ " orders marked as delivered.").

(** ** [riders/views.py], [riders/admin.py] *)

Inductive RiderResponse :=
| RIDER_200_OK (message : string) (rider : Rider)
| RIDER_400_BAD_REQUEST (error : string)
| RIDER_404_NOT_FOUND.

(** The member of [STATUS_CHOICES] a string names. *)
Definition rider_status_of (s : string) : option RiderStatus :=
  if String.eqb s "AVAILABLE" then Some AVAILABLE
  else if String.eqb s "ON_DELIVERY" then Some ON_DELIVERY
  else if String.eqb s "OFFLINE" then Some OFFLINE
  else None.

(** [RiderUpdateStatusView.post]; [new_status] is [request.data.get('status')]. *)
Definition RiderUpdateStatusView_post (new_status : option string) (pk : nat)
  : M RiderResponse :=
  found <- query (fun db => get_row rider_pk pk (riders db)) ;;
  match found with
  | None => ret RIDER_404_NOT_FOUND
  | Some rider =>
      match new_status with
      | None =>
          ret (RIDER_400_BAD_REQUEST
                 "Invalid status. Must be AVAILABLE, ON_DELIVERY, or OFFLINE")
      | Some text =>
          match rider_status_of text with
          | None =>
              ret (RIDER_400_BAD_REQUEST
                     "Invalid status. Must be AVAILABLE, ON_DELIVERY, or OFFLINE")
          | Some st =>
              let rider := set_rider_status st rider in
              save_rider rider ;;;
              ret (RIDER_200_OK ("Rider status updated to " ++ text) rider)
          end
      end
  end.

(** [RiderAvailableListView.get_queryset]. *)
Definition RiderAvailableListView_get_queryset (db : DB) : list Rider :=
  sort_by (fun y x => match (rating y ?= rating x)%Q with Gt => true | _ => false end)
          (filter is_available (riders db)).

(** [RiderAdmin.mark_available] and [RiderAdmin.mark_offline]. *)
Definition mark_available (queryset : Rider -> bool) : M string :=
  updated <- query (fun db => List.length (filter queryset (riders db))) ;;
  update (with_riders (map (fun r =>
            if queryset r then set_rider_status AVAILABLE r else r))) ;;;
  ret (str updated ++ " riders marked as available.").

Definition mark_offline (queryset : Rider -> bool) : M string :=
  updated <- query (fun db => List.length (filter queryset (riders db))) ;;
  update (with_riders (map (fun r =>
            if queryset r then set_rider_status OFFLINE r else r))) ;;;
  ret (str updated ++ " riders marked as offline.").

(** ** The specification's formulas, for comparison with the code *)

(** "Bucket: 0 → +25; 1–2 → +15; 3–5 → +5; >5 → +0." *)
Definition workload_bucket_spec (count : nat) : Q :=
  match count with
  | 0 => 25%Q
  | 1 | 2 => 15%Q
  | 3 | 4 | 5 => 5%Q
  | _ => 0%Q
  end.

(** "Familiarity: +30 if the cohort's landmark is in the rider's
    preferred-landmark set, else +0." *)
Definition familiarity_spec (landmark : option Landmark) (rider : Rider) : Q :=
  if landmark_in landmark (preferred_landmarks rider) then 30%Q else 0%Q.



(** "[1 + max(existing sequence for this rider+date)], or [1] if none
    exist." *)
Definition next_sequence_spec (rider : Rider) (date : nat) (db : DB) : Z :=
  match map sequence (filter (same_rider_and_date rider date) (routes db)) with
  | [] => 1%Z
  | s :: rest => (1 + fold_left Z.max rest s)%Z
  end.

(** "Scoring formula per rider, summed": the four factors of the
    specification for a cohort whose first order is delivered on [date]. *)
Definition total_score_spec (landmark : option Landmark) (date : nat) (db : DB)
           (rider : Rider) : Q :=
  (familiarity_spec landmark rider
   + workload_bucket_spec (current_assignments rider date db)
   + rating_score rider
   + success_score rider)%Q.



(** ** Vocabulary of the proofs *)

(** The score of a rider as Python computes it, for a cohort whose first
    order is delivered on [date]. *)
Definition whole_points (landmark : option Landmark) (rider : Rider) (count : nat) : Z :=
  ((if landmark_in landmark (preferred_landmarks rider) then 30 else 0)
   + (if (count =? 0)%nat then 25
      else if (count <=? 2)%nat then 15
      else if (count <=? 5)%nat then 5
      else 0))%Z.

Definition float_score (landmark : option Landmark) (date : nat) (db : DB)
           (rider : Rider) : float :=
  float_add
    (float_add
       (float_of_int (whole_points landmark rider (current_assignments rider date db)))
       (float_mul (float_truediv (float_of_decimal (rating rider)) (float_of_int 5))
                  (float_of_int 25)))
    (float_mul (float_truediv (success_rate_float rider) (float_of_int 100))
               (float_of_int 20)).

(** [enumerate(xs, start=n)]. *)
Definition enumerate_from {A : Type} (n : nat) (xs : list A) : list (Z * A) :=
  combine (map Z.of_nat (seq n (List.length xs))) xs.

(** The instance a pass of the renumbering loop saves. *)
Definition renumbered (entry : Z * DeliveryRoute) : DeliveryRoute :=
  set_sequence (fst entry) (snd entry).

(** The row of a table after the instances of [saved] were saved: the
    instance with the row's primary key, or the row as it was. *)
Definition overlay (saved : list DeliveryRoute) (row : DeliveryRoute) : DeliveryRoute :=
  match get_row route_pk (route_pk row) saved with
  | Some y => y
  | None => row
  end.

(** The routes named by the success entries of a report. *)
Definition route_ids (details : list GroupResult) : list nat :=
  flat_map (fun r => match r with
                     | GroupSuccess _ _ _ route_id => [route_id]
                     | GroupFailure _ _ _ => []
                     end)
           details.

(** The state of a pass over the cohorts: [new] are the routes created so
    far, behind the routes [pre] that were there before; no two of them
    have the same rider, and every rider who has one is ON_DELIVERY. *)
Definition booked (pre new : list DeliveryRoute) (db : DB) : Prop :=
  routes db = (pre ++ new)%list
  /\ NoDup (map route_rider new)
  /\ (forall r, In r (riders db) -> In (rider_pk r) (map route_rider new) ->
                rider_status r = ON_DELIVERY).

(** A cohort as the grouping stage builds it from orders that all have a
    landmark: keyed by a landmark, not empty, its first order with a
    landmark. *)
Definition landmarked (g : (option Landmark * nat) * list Order) : Prop :=
  fst (fst g) <> None
  /\ exists o os, snd g = o :: os /\ landmark o <> None.

(** The key under which the grouping stage files an order. *)
Definition order_key (o : Order) : option Landmark * nat :=
  (landmark o, delivery_date o).

(** ['order_count'] of an entry of [details]. *)
Definition order_count_of (r : GroupResult) : nat :=
  match r with
  | GroupFailure _ _ n => n
  | GroupSuccess _ _ n _ => n
  end.

(** The orders table after the orders of a cohort were saved as ASSIGNED
    to a rider. *)
Definition saved_orders (best : Rider) (os : list Order) (t : list Order) : list Order :=
  fold_left (fun t x => put_row order_pk x t)
            (map (set_assignment (rider_pk best) ASSIGNED) os) t.

(** How many riders of a table are AVAILABLE. *)
Definition pool_size (t : list Rider) : nat := List.length (filter is_available t).

(** Two riders, or two orders, that differ at most in the fields a
    delivery report, or an assignment, writes. *)
Definition same_but_counters (r r' : Rider) : Prop :=
  rider_pk r' = rider_pk r /\ full_name r' = full_name r
  /\ phone_number r' = phone_number r
  /\ preferred_landmarks r' = preferred_landmarks r
  /\ rider_status r' = rider_status r /\ rating r' = rating r.

Definition same_but_status (r r' : Rider) : Prop :=
  rider_pk r' = rider_pk r /\ full_name r' = full_name r
  /\ phone_number r' = phone_number r
  /\ preferred_landmarks r' = preferred_landmarks r
  /\ total_deliveries r' = total_deliveries r
  /\ successful_deliveries r' = successful_deliveries r
  /\ failed_deliveries r' = failed_deliveries r /\ rating r' = rating r.

Definition same_but_assignment (o o' : Order) : Prop :=
  order_pk o' = order_pk o /\ order_number o' = order_number o
  /\ customer_name o' = customer_name o /\ customer_phone o' = customer_phone o
  /\ vendor_phone o' = vendor_phone o /\ landmark o' = landmark o
  /\ delivery_date o' = delivery_date o
  /\ delivery_time_start o' = delivery_time_start o
  /\ confirmation_sms_sent o' = confirmation_sms_sent o
  /\ delivered_at o' = delivered_at o /\ delivery_proof o' = delivery_proof o
  /\ failure_reason o' = failure_reason o.

(** A float that is zero or finite, and one that is finite and not zero. *)
Definition isfinite (x : float) : bool :=
  match x with
  | S754_zero _ | S754_finite _ _ _ => true
  | _ => false
  end.

Definition nonzero (x : float) : bool :=
  match x with
  | S754_finite _ _ _ => true
  | _ => false
  end.

(** A rating that a [DecimalField(max_digits=3, decimal_places=2)] holds:
    a number of hundredths between -9.99 and 9.99. *)
Definition two_places (rating : Q) : Prop :=
  exists n, (-999 <= n <= 999)%Z /\ rating = n # 100.

(** The workload and familiarity points, added up, and the ratings of two
    places, in hundredths. *)
Definition whole_scores : list Z := [0; 5; 15; 25; 30; 35; 45; 55]%Z.

Definition hundredths : list Z := map (fun k => (Z.of_nat k - 999)%Z) (seq 0 1999).

Definition rating_sum (points n : Z) : float :=
  float_add (float_of_int points)
            (float_mul (float_truediv (float_of_decimal (n # 100)) (float_of_int 5))
                       (float_of_int 25)).

(** The largest number an [IntegerField] holds on every database. *)
Definition max_integer : Z := 2147483647.

(** A rider whose counters can be raised: each is below the largest number
    its column holds. *)
Definition can_count (r : Rider) : Prop :=
  (total_deliveries r < max_integer)%Z
  /\ (successful_deliveries r < max_integer)%Z
  /\ (failed_deliveries r < max_integer)%Z.

(** The invariant of the rider counters. *)
Definition counters_add_up (r : Rider) : Prop :=
  (total_deliveries r = successful_deliveries r + failed_deliveries r)%Z.

(** What a pass over the cohorts of the orders [rows] keeps true of the
    database, from the database [db0] it started on: a row of the orders
    table is a row of before, or one of [rows] saved as ASSIGNED to a
    rider; primary keys stay in place; orders whose key is not one of
    [rows] stay; a row of the riders table is a row of before, or a rider
    who was AVAILABLE, saved as ON_DELIVERY; the pool does not grow. *)
Definition pass_keeps (db0 : DB) (rows : list Order) (db : DB) : Prop :=
  (forall o', In o' (orders db) ->
              In o' (orders db0)
              \/ exists o best, In o rows
                                /\ o' = set_assignment (rider_pk best) ASSIGNED o)
  /\ map order_pk (orders db) = map order_pk (orders db0)
  /\ (forall o, In o (orders db0) ->
                (forall x, In x rows -> order_pk x <> order_pk o) ->
                In o (orders db))
  /\ (forall r, In r (riders db) ->
                In r (riders db0)
                \/ exists r0, In r0 (riders db0)
                              /\ rider_status r0 = AVAILABLE
                              /\ r = set_rider_status ON_DELIVERY r0)
  /\ pool_size (riders db) <= pool_size (riders db0).

(** ** Example data *)

Definition westgate : Landmark := mkLandmark 1 "Westgate".

Definition example_order (pk : nat) (lm : option Landmark) (start : nat)
           (st : OrderStatus) (rider : option nat) : Order :=
  mkOrder pk "ORD202501011000" "Amina" "0712345678" "" lm 20 start st rider
          false None "" "".

Definition example_rider (pk : nat) (preferred : list nat) (st : RiderStatus)
           (t s f : Z) (r : Q) : Rider :=
  mkRider pk "Rider" "0700000000" preferred st t s f r.

(** A gateway that accepts every message, and a rendering of times. *)
Definition example_gateway (message phone : string) : bool := true.
Definition example_strftime (format : string) (t : nat) : string := str t.

(** A rider with nothing in their favour: no preferred landmark, six orders
    in hand on day 20, rating 0, no delivery yet. *)
Definition idle_rider : Rider := example_rider 1 [] AVAILABLE 0 0 0 0.

Definition waiting_order : Order := example_order 7 (Some westgate) 540 CONFIRMED None.

Definition zero_score_db : DB :=
  mkDB [idle_rider]
       [example_order 1 (Some westgate) 540 ASSIGNED (Some 1);
        example_order 2 (Some westgate) 540 ASSIGNED (Some 1);
        example_order 3 (Some westgate) 540 ASSIGNED (Some 1);
        example_order 4 (Some westgate) 540 IN_TRANSIT (Some 1);
        example_order 5 (Some westgate) 540 IN_TRANSIT (Some 1);
        example_order 6 (Some westgate) 540 IN_TRANSIT (Some 1);
        waiting_order]
       [] [].



(** Two confirmed orders, the first one without landmark, and no rider
    AVAILABLE. *)
Definition orphan_order : Order := example_order 1 None 540 CONFIRMED None.

Definition orphan_db : DB :=
  mkDB [example_rider 3 [1] OFFLINE 10 9 1 (45 # 10)]
       [orphan_order; example_order 2 (Some westgate) 600 CONFIRMED None]
       [] [].

(** Two riders with the same score. *)
Definition first_twin : Rider := example_rider 4 [1] AVAILABLE 4 4 0 5.
Definition second_twin : Rider := example_rider 5 [1] AVAILABLE 4 4 0 5.

(** Three routes of rider 1 on day 20, two of them at the same time, the
    last one completed. *)
Definition example_route (pk : nat) (seq_ : Z) (eta : nat) (done : bool) : DeliveryRoute :=
  mkRoute pk 1 20 westgate [pk] seq_ eta done.

Definition routes_db : DB :=
  mkDB [idle_rider] []
       [example_route 1 1 600 false; example_route 2 2 540 false;
        example_route 3 3 540 false; example_route 4 4 500 true]
       [].

(** Two routes of rider 1 on day 20 at the same time; the row that comes
    first in the table is the second stop. *)
Definition tied_routes_db : DB :=
  mkDB [idle_rider] []
       [example_route 1 2 540 false; example_route 2 1 540 false]
       [].

(** Two riders whose scores are both 45.1 when computed exactly. *)
Definition rated_rider : Rider := example_rider 1 [] AVAILABLE 0 0 0 (402 # 100).
Definition tried_rider : Rider := example_rider 2 [] AVAILABLE 4 1 3 (302 # 100).

Definition tie_db : DB := mkDB [rated_rider; tried_rider] [waiting_order] [] [].

(** An order delivered by rider 1. *)
Definition delivered_order : Order :=
  example_order 12 (Some westgate) 540 DELIVERED (Some 1).

Definition delivered_db : DB := mkDB [idle_rider] [delivered_order] [] [].



(** Two cohorts on day 20, at two landmarks, and the twins AVAILABLE. *)
Definition sarit : Landmark := mkLandmark 2 "Sarit".

Definition two_cohorts_db : DB :=
  mkDB [first_twin; second_twin]
       [waiting_order; example_order 8 (Some sarit) 600 CONFIRMED None]
       [] [].

(** An order in transit with rider 1. *)
Definition transit_order : Order := example_order 9 (Some westgate) 540 IN_TRANSIT (Some 1).

Definition transit_db : DB := mkDB [idle_rider] [transit_order] [] [].

(** An order that waits for the customer's answer. *)
Definition pending_order : Order :=
  example_order 11 (Some westgate) 540 PENDING_CONFIRMATION None.

Definition pending_db : DB := mkDB [idle_rider] [pending_order] [] [].

(** * Properties *)

(** ** Sorting *)

Lemma insert_by_perm {A : Type} (before : A -> A -> bool) (x : A) (l : list A) :
  Permutation (insert_by before x l) (x :: l).
Proof.
  induction l as [|y l IH]; simpl.
  - apply Permutation_refl.
  - destruct (before y x).
    + apply perm_trans with (y :: x :: l).
      * now apply perm_skip.
      * apply perm_swap.
    + apply Permutation_refl.
Qed.

Lemma sort_by_perm {A : Type} (before : A -> A -> bool) (l : list A) :
  Permutation (sort_by before l) l.
Proof.
  induction l as [|x l IH]; simpl.
  - apply perm_nil.
  - eapply perm_trans; [apply insert_by_perm|]. now apply perm_skip.
Qed.

Lemma sort_by_In {A : Type} (before : A -> A -> bool) (l : list A) (x : A) :
  In x (sort_by before l) <-> In x l.
Proof.
  split; apply Permutation_in;
    [apply sort_by_perm | apply Permutation_sym, sort_by_perm].
Qed.

Lemma sort_by_length {A : Type} (before : A -> A -> bool) (l : list A) :
  List.length (sort_by before l) = List.length l.
Proof. apply Permutation_length, sort_by_perm. Qed.

(** The head of a sorted list, located in the input: everything ahead of
    it in the input must come out behind it, and nothing behind it in the
    input must come out ahead of it. *)
Lemma sort_by_head {A : Type} (before : A -> A -> bool) :
  (forall a b c, before a b = true -> before b c = true -> before a c = true) ->
  (forall a b c, before a b = false -> before b c = false -> before a c = false) ->
  forall l h t,
    sort_by before l = h :: t ->
    exists l1 l2,
      l = (l1 ++ h :: l2)%list
      /\ (forall x, In x l1 -> before h x = true)
      /\ (forall x, In x l2 -> before x h = false).
Proof.
  intros Htrans Hneg l.
  induction l as [|a l IH]; intros h t Hs; simpl in Hs.
  - discriminate.
  - destruct (sort_by before l) as [|h' t'] eqn:Hl.
    + simpl in Hs. injection Hs as <- <-.
      assert (l = []) as ->.
      { destruct l as [|z l]; [reflexivity|].
        pose proof (sort_by_length before (z :: l)) as Hlen.
        rewrite Hl in Hlen. discriminate. }
      exists [], []. repeat split; intros x [].
    + destruct (IH h' t' eq_refl) as (l1 & l2 & -> & H1 & H2).
      simpl in Hs. destruct (before h' a) eqn:Hb.
      * injection Hs as <- <-.
        exists (a :: l1), l2. repeat split; auto.
        intros x [<-|Hx]; auto.
      * injection Hs as <- <-.
        exists [], (l1 ++ h' :: l2)%list. repeat split.
        -- intros x [].
        -- intros x Hx. apply in_app_or in Hx.
           destruct Hx as [Hx|[<-|Hx]]; auto.
           ++ destruct (before x a) eqn:Hxa; [|reflexivity].
              rewrite (Htrans _ _ _ (H1 x Hx) Hxa) in Hb. discriminate.
           ++ eauto.
Qed.

(** The same, for an order that is transitive in both senses only
    through elements with a property that every element of the list has. *)
Lemma sort_by_head_on {A : Type} (before : A -> A -> bool) (P : A -> Prop) :
  (forall a b c, before a b = true -> before b c = true -> before a c = true) ->
  (forall a b c, P b -> before a b = false -> before b c = false -> before a c = false) ->
  forall l h t,
    Forall P l ->
    sort_by before l = h :: t ->
    exists l1 l2,
      l = (l1 ++ h :: l2)%list
      /\ (forall x, In x l1 -> before h x = true)
      /\ (forall x, In x l2 -> before x h = false).
Proof.
  intros Htrans Hneg l.
  induction l as [|a l IH]; intros h t HP Hs; simpl in Hs.
  - discriminate.
  - inversion HP as [|? ? Pa Pl]; subst.
    destruct (sort_by before l) as [|h' t'] eqn:Hl.
    + simpl in Hs. injection Hs as <- <-.
      assert (l = []) as ->.
      { destruct l as [|z l]; [reflexivity|].
        pose proof (sort_by_length before (z :: l)) as Hlen.
        rewrite Hl in Hlen. discriminate. }
      exists [], []. repeat split; intros x [].
    + destruct (IH h' t' Pl eq_refl) as (l1 & l2 & -> & H1 & H2).
      assert (Ph' : P h').
      { rewrite Forall_forall in Pl. apply Pl, in_or_app. right. now left. }
      simpl in Hs. destruct (before h' a) eqn:Hb.
      * injection Hs as <- <-.
        exists (a :: l1), l2. repeat split; auto.
        intros x [<-|Hx]; auto.
      * injection Hs as <- <-.
        exists [], (l1 ++ h' :: l2)%list. repeat split.
        -- intros x [].
        -- intros x Hx. apply in_app_or in Hx.
           destruct Hx as [Hx|[<-|Hx]]; auto.
           ++ destruct (before x a) eqn:Hxa; [|reflexivity].
              rewrite (Htrans _ _ _ (H1 x Hx) Hxa) in Hb. discriminate.
           ++ apply (Hneg x h' a Ph'); auto.
Qed.

Lemma insert_by_map {A B : Type} (before : A -> A -> bool) (before' : B -> B -> bool)
      (f : A -> B) (x : A) (s : list A) :
  (forall y, In y s -> before' (f y) (f x) = before y x) ->
  insert_by before' (f x) (map f s) = map f (insert_by before x s).
Proof.
  induction s as [|y s IH]; intros Hf; simpl; [reflexivity|].
  rewrite Hf by now left.
  destruct (before y x); simpl; [|reflexivity].
  f_equal. apply IH. intros z Hz. apply Hf. now right.
Qed.

Lemma sort_by_map {A B : Type} (before : A -> A -> bool) (before' : B -> B -> bool)
      (f : A -> B) (l : list A) :
  (forall a b, In a l -> In b l -> before' (f a) (f b) = before a b) ->
  sort_by before' (map f l) = map f (sort_by before l).
Proof.
  induction l as [|x l IH]; intros Hf; simpl; [reflexivity|].
  rewrite IH by (intros; apply Hf; now right).
  apply insert_by_map. intros y Hy. apply Hf; [right|now left].
  now apply (sort_by_In before).
Qed.

(** Sorting on a numeric key, ascending. *)
Section KeySort.
Context {A : Type}.
Variable key : A -> nat.
Let by_key (y x : A) : bool := key y <? key x.

Lemma insert_by_key_sorted (x : A) (l : list A) :
  StronglySorted (fun a b => key a <= key b) l ->
  StronglySorted (fun a b => key a <= key b) (insert_by by_key x l).
Proof.
  induction 1 as [|y l Hs IH Hy]; simpl.
  - constructor; constructor.
  - unfold by_key at 1. destruct (key y <? key x) eqn:Hyx.
    + apply Nat.ltb_lt in Hyx. constructor; [exact IH|].
      apply Forall_forall. intros z Hz.
      apply (Permutation_in _ (insert_by_perm by_key x l)) in Hz.
      destruct Hz as [<-|Hz]; [lia|].
      rewrite Forall_forall in Hy. auto.
    + apply Nat.ltb_ge in Hyx. constructor.
      * now constructor.
      * constructor; [exact Hyx|].
        rewrite Forall_forall in Hy |- *. intros z Hz.
        specialize (Hy z Hz). lia.
Qed.

Lemma sort_by_key_sorted (l : list A) :
  StronglySorted (fun a b => key a <= key b) (sort_by by_key l).
Proof.
  induction l as [|x l IH]; simpl.
  - constructor.
  - now apply insert_by_key_sorted.
Qed.

Lemma insert_by_key_stable (t : nat) (x : A) (l : list A) :
  filter (fun a => key a =? t) (insert_by by_key x l)
  = filter (fun a => key a =? t) (x :: l).
Proof.
  induction l as [|y l IH]; [reflexivity|].
  simpl insert_by. unfold by_key at 1.
  destruct (key y <? key x) eqn:Hyx; [|reflexivity].
  apply Nat.ltb_lt in Hyx.
  simpl filter at 1. rewrite IH. simpl.
  destruct (key y =? t) eqn:Hy, (key x =? t) eqn:Hx; try reflexivity.
  apply Nat.eqb_eq in Hy, Hx. lia.
Qed.

Lemma sort_by_key_stable (t : nat) (l : list A) :
  filter (fun a => key a =? t) (sort_by by_key l) = filter (fun a => key a =? t) l.
Proof.
  induction l as [|x l IH]; [reflexivity|].
  simpl sort_by. rewrite insert_by_key_stable. simpl. now rewrite IH.
Qed.
End KeySort.

(** ** The database monad *)

Lemma for_each_pure {A B : Type} (body : A -> M B) (f : A -> B) (xs : list A) (db : DB) :
  (forall x, In x xs -> body x db = Return (f x) db) ->
  for_each body xs db = Return (map f xs) db.
Proof.
  induction xs as [|x xs IH]; intros Hb; simpl; [reflexivity|].
  unfold bind. rewrite Hb by now left.
  rewrite IH by (intros; apply Hb; now right). reflexivity.
Qed.

(** A loop whose body always returns, returns. *)
Lemma for_each_returns {A B : Type} (body : A -> M B) (xs : list A) :
  (forall x db, exists y db', body x db = Return y db') ->
  forall db, exists ys db', for_each body xs db = Return ys db'.
Proof.
  intros Hb. induction xs as [|x xs IH]; intros db; simpl.
  - now exists [], db.
  - unfold bind. destruct (Hb x db) as (y & db1 & ->).
    destruct (IH db1) as (ys & db2 & ->). now exists (y :: ys), db2.
Qed.

(** ** Scoring *)

(** The order of floats.  [<] is transitive; "not below" is transitive
    through a number. *)
Ltac float_cases :=
  repeat match goal with
         | s : bool |- _ => destruct s
         end;
  cbn [SFcompare CompOpp];
  change (Pos.compare_cont Eq) with Pos.compare;
  repeat match goal with
         | |- context [Z.compare ?a ?b] => destruct (Z.compare_spec a b)
         | |- context [Pos.compare ?a ?b] => destruct (Pos.compare_spec a b)
         end;
  cbn [CompOpp]; intros; subst; try reflexivity; try discriminate; try lia.

Lemma float_lt_trans (a b c : float) :
  float_lt a b = true -> float_lt b c = true -> float_lt a c = true.
Proof.
  unfold float_lt, SFltb.
  destruct a as [sa|sa| |sa ma ea], b as [sb|sb| |sb mb eb], c as [sc|sc| |sc mc ec];
    float_cases.
Qed.

Lemma float_lt_negtrans (a b c : float) :
  isnan b = false ->
  float_lt a b = false -> float_lt b c = false -> float_lt a c = false.
Proof.
  unfold float_lt, SFltb, isnan.
  destruct a as [sa|sa| |sa ma ea], b as [sb|sb| |sb mb eb], c as [sc|sc| |sc mc ec];
    float_cases.
Qed.

Lemma float_lt_false (a b : float) :
  isnan a = false -> isnan b = false ->
  float_lt a b = false <-> float_le b a = true.
Proof.
  unfold float_lt, float_le, SFltb, SFleb, isnan.
  destruct a as [sa|sa| |sa ma ea], b as [sb|sb| |sb mb eb];
    float_cases; split; intros; subst; try reflexivity; try discriminate; try lia.
Qed.

(** Rounding a significand that is not negative gives a number, and so
    do the operations on numbers, short of the sum of two infinities. *)
Lemma shr_1_nonneg (mrs : shr_record) :
  (0 <= shr_m mrs)%Z -> (0 <= shr_m (shr_1 mrs))%Z.
Proof.
  destruct mrs as [m r s]. simpl. destruct m as [|[p|p|]|[p|p|]]; simpl; lia.
Qed.

Lemma iter_shr_1_nonneg (p : positive) (mrs : shr_record) :
  (0 <= shr_m mrs)%Z -> (0 <= shr_m (iter_pos shr_1 p mrs))%Z.
Proof.
  revert mrs. induction p as [p IH|p IH|]; intros mrs H; simpl.
  - apply IH, IH, shr_1_nonneg, H.
  - apply IH, IH, H.
  - apply shr_1_nonneg, H.
Qed.

Lemma shr_fexp_nonneg (m e : Z) (l : location) :
  (0 <= m)%Z -> (0 <= shr_m (fst (shr_fexp prec emax m e l)))%Z.
Proof.
  intros H. unfold shr_fexp, shr.
  assert (H0 : (0 <= shr_m (shr_record_of_loc m l))%Z).
  { destruct l as [|[| |]]; exact H. }
  destruct (_ - e)%Z; simpl; auto. now apply iter_shr_1_nonneg.
Qed.

Lemma binary_round_aux_number (s : bool) (m e : Z) (l : location) :
  (0 <= m)%Z -> isnan (binary_round_aux prec emax s m e l) = false.
Proof.
  intros H. unfold binary_round_aux.
  pose proof (shr_fexp_nonneg m e l H) as H1.
  destruct (shr_fexp prec emax m e l) as [mrs' e']. simpl in H1.
  assert (H2 : (0 <= round_nearest_even (shr_m mrs') (loc_of_shr_record mrs'))%Z).
  { unfold round_nearest_even. destruct (loc_of_shr_record mrs') as [|[| |]]; try lia.
    destruct (Z.even _); lia. }
  pose proof (shr_fexp_nonneg _ e' loc_Exact H2) as H3.
  destruct (shr_fexp prec emax _ e' loc_Exact) as [mrs'' e'']. simpl in H3.
  destruct (shr_m mrs'') as [|p|p]; [reflexivity| |lia].
  now destruct (e'' <=? _)%Z.
Qed.

Lemma float_mul_number (x y : float) :
  isnan x = false -> nonzero y = true -> isnan (float_mul x y) = false.
Proof.
  intros Hx Hy. unfold float_mul.
  destruct x as [sx|sx| |sx mx ex], y as [sy|sy| |sy my ey];
    try discriminate; try reflexivity.
  simpl. now apply binary_round_aux_number.
Qed.

Lemma float_truediv_number (x y : float) :
  isnan x = false -> nonzero y = true -> isnan (float_truediv x y) = false.
Proof.
  intros Hx Hy. unfold float_truediv.
  destruct x as [sx|sx| |sx mx ex], y as [sy|sy| |sy my ey];
    try discriminate; try reflexivity.
  unfold SFdiv.
  destruct (SFdiv_core_binary prec emax (Z.pos mx) ex (Z.pos my) ey)
    as [[mz ez] lz] eqn:E.
  apply binary_round_aux_number.
  unfold SFdiv_core_binary in E.
  set (m' := match (ex - ey - _)%Z with Z.pos _ => _ | Z0 => _ | Z.neg _ => _ end) in E.
  assert (Hm : (0 <= m')%Z).
  { unfold m'. destruct (ex - ey - _)%Z; try lia. apply Z.shiftl_nonneg. lia. }
  pose proof (Z_div_mod m' (Z.pos my) eq_refl) as Hd.
  destruct (Z.div_eucl m' (Z.pos my)) as [q r]. injection E as <- _ _. nia.
Qed.

Lemma float_add_number (x y : float) :
  isfinite x = true -> isnan y = false -> isnan (float_add x y) = false.
Proof.
  intros Hx Hy. unfold float_add.
  destruct x as [sx|sx| |sx mx ex], y as [sy|sy| |sy my ey];
    try discriminate; try reflexivity.
  - now destruct sx, sy.
  - simpl. unfold binary_normalize.
    destruct (_ + _)%Z; [reflexivity| |]; unfold binary_round;
      destruct (shl_align _ _ _); now apply binary_round_aux_number.
Qed.

Lemma int_truediv_number (a b : Z) : b <> 0%Z -> isnan (int_truediv a b) = false.
Proof.
  intros Hb. unfold int_truediv.
  apply float_truediv_number; destruct a, b; try reflexivity; congruence.
Qed.

Lemma success_rate_float_number (rider : Rider) :
  isnan (success_rate_float rider) = false.
Proof.
  unfold success_rate_float.
  destruct (total_deliveries rider =? 0)%Z eqn:E; [reflexivity|].
  apply float_mul_number; [|reflexivity].
  apply int_truediv_number. now apply Z.eqb_neq.
Qed.

(** With a rating of two places, the points and the rating factor add
    up to a finite float: there are 1999 such ratings and eight numbers of
    points, and each sum is computed. *)
Lemma rating_sums_are_finite :
  forallb (fun n => forallb (fun points => isfinite (rating_sum points n)) whole_scores)
          hundredths = true.
Proof. vm_compute. reflexivity. Qed.

Lemma whole_points_In (landmark : option Landmark) (rider : Rider) (count : nat) :
  In (whole_points landmark rider count) whole_scores.
Proof.
  unfold whole_points, whole_scores.
  destruct (landmark_in _ _), count as [|[|[|[|[|[|n]]]]]]; simpl; tauto.
Qed.

Lemma hundredths_In (n : Z) : (-999 <= n <= 999)%Z -> In n hundredths.
Proof.
  intros H. unfold hundredths. apply in_map_iff.
  exists (Z.to_nat (n + 999)). split; [lia|]. apply in_seq. lia.
Qed.

(** The score of a rider whose rating has two places is a number. *)
Lemma two_places_score_number (landmark : option Landmark) (date : nat) (db : DB)
      (rider : Rider) :
  two_places (rating rider) ->
  isnan (float_score landmark date db rider) = false.
Proof.
  intros (n & Hn & Hr). unfold float_score. rewrite Hr.
  apply float_add_number.
  - pose proof rating_sums_are_finite as H. rewrite forallb_forall in H.
    specialize (H n (hundredths_In n Hn)). rewrite forallb_forall in H.
    exact (H _ (whole_points_In landmark rider (current_assignments rider date db))).
  - apply float_mul_number; [|reflexivity].
    apply float_truediv_number; [|reflexivity].
    apply success_rate_float_number.
Qed.

Lemma higher_score_trans (a b c : Rider * float) :
  higher_score a b = true -> higher_score b c = true -> higher_score a c = true.
Proof.
  unfold higher_score. intros H1 H2. exact (float_lt_trans _ _ _ H2 H1).
Qed.

Lemma higher_score_negtrans (a b c : Rider * float) :
  isnan (snd b) = false ->
  higher_score a b = false -> higher_score b c = false -> higher_score a c = false.
Proof.
  unfold higher_score. intros Hb H1 H2. exact (float_lt_negtrans _ _ _ Hb H2 H1).
Qed.


(** One pass of the scoring loop as Python runs it: the rider's entry
    carries [float_score], and the database is only read. *)
Lemma score_rider_float_value (landmark : option Landmark) (o : Order) (os : list Order)
      (rider : Rider) (db : DB) :
  score_rider_float landmark (o :: os) rider db
  = Return (rider, float_score landmark (delivery_date o) db rider) db.
Proof.
  unfold score_rider_float, bind, getitem0, ret, query, float_score, whole_points.
  destruct (landmark_in landmark (preferred_landmarks rider));
    destruct (current_assignments rider (delivery_date o) db)
      as [|[|[|[|[|[|n]]]]]]; reflexivity.
Qed.

(** The two readings add the same whole points, for familiarity and
    workload, to the rating and success factors. *)
Lemma total_score_points (landmark : option Landmark) (date : nat) (db : DB)
      (rider : Rider) :
  (total_score_spec landmark date db rider
   == inject_Z (whole_points landmark rider (current_assignments rider date db))
      + rating_score rider + success_score rider)%Q.
Proof.
  unfold total_score_spec, familiarity_spec, workload_bucket_spec, whole_points.
  destruct (landmark_in landmark (preferred_landmarks rider));
    destruct (current_assignments rider date db) as [|[|[|[|[|[|n]]]]]]; simpl; ring.
Qed.

(** The score depends on the database through the orders table only. *)
Lemma float_score_reads_orders (landmark : option Landmark) (date : nat)
      (rider : Rider) (db db2 : DB) :
  orders db2 = orders db ->
  float_score landmark date db2 rider = float_score landmark date db rider.
Proof.
  intros Ho. unfold float_score, current_assignments. now rewrite Ho.
Qed.

Lemma scored_riders_value (landmark : option Landmark) (o : Order) (os : list Order)
      (riders : list Rider) (db : DB) :
  for_each (score_rider_float landmark (o :: os)) riders db
  = Return (map (fun r => (r, float_score landmark (delivery_date o) db r)) riders) db.
Proof.
  apply for_each_pure. intros r _. apply score_rider_float_value.
Qed.

(** [_find_best_rider] on a non-empty list of riders and a non-empty
    cohort returns a rider of the list, whatever the scores are, and reads
    nothing but the orders table. *)
Lemma find_best_rider_run (landmark : option Landmark) (o : Order)
      (os : list Order) (riders : list Rider) (db db2 : DB) :
  orders db2 = orders db ->
  _find_best_rider riders landmark (o :: os) db2
  = Return match sort_by higher_score
                   (map (fun r => (r, float_score landmark (delivery_date o) db r))
                        riders) with
           | (rider, _) :: _ => Some rider
           | [] => None
           end db2.
Proof.
  intros Ho. unfold _find_best_rider, bind. rewrite scored_riders_value.
  unfold ret. f_equal.
  rewrite (map_ext _ (fun r => (r, float_score landmark (delivery_date o) db r)));
    [reflexivity|].
  intros r. now rewrite (float_score_reads_orders _ _ _ _ _ Ho).
Qed.

Lemma find_best_rider_returns (landmark : option Landmark) (o : Order)
      (os : list Order) (r0 : Rider) (rs : list Rider) (db : DB) :
  exists best,
    _find_best_rider (r0 :: rs) landmark (o :: os) db = Return (Some best) db
    /\ In best (r0 :: rs)
    /\ (forall db2, orders db2 = orders db ->
          _find_best_rider (r0 :: rs) landmark (o :: os) db2 = Return (Some best) db2).
Proof.
  pose proof (find_best_rider_run landmark o os (r0 :: rs) db) as Hrun.
  set (scored := map (fun r => (r, float_score landmark (delivery_date o) db r))
                     (r0 :: rs)) in *.
  destruct (sort_by higher_score scored) as [|[best sb] t] eqn:Hsort.
  { pose proof (sort_by_length higher_score scored) as Hlen.
    rewrite Hsort in Hlen. discriminate. }
  exists best. split; [|split].
  - now apply Hrun.
  - assert (Hin : In (best, sb) scored).
    { apply (sort_by_In higher_score). rewrite Hsort. now left. }
    apply in_map_iff in Hin. destruct Hin as (r & E & Hr). now injection E as <- _.
  - exact Hrun.
Qed.

(** When every score is a number, the rider returned is the first of the
    list that reaches the highest score. *)
Lemma find_best_rider_first_highest (landmark : option Landmark) (o : Order)
      (os : list Order) (riders : list Rider) (db : DB) (best : Rider) :
  _find_best_rider riders landmark (o :: os) db = Return (Some best) db ->
  (forall r, In r riders ->
             isnan (float_score landmark (delivery_date o) db r) = false) ->
  exists l1 l2,
    riders = (l1 ++ best :: l2)%list
    /\ (forall r, In r l1 ->
          float_lt (float_score landmark (delivery_date o) db r)
                   (float_score landmark (delivery_date o) db best) = true)
    /\ (forall r, In r l2 ->
          float_le (float_score landmark (delivery_date o) db r)
                   (float_score landmark (delivery_date o) db best) = true).
Proof.
  intros Hrun Hnum.
  set (score := float_score landmark (delivery_date o) db) in *.
  set (scored := map (fun r => (r, score r)) riders).
  rewrite (find_best_rider_run landmark o os riders db db eq_refl) in Hrun.
  fold score scored in Hrun.
  destruct (sort_by higher_score scored) as [|[h sh] t] eqn:Hsort; [discriminate|].
  injection Hrun as ->.
  assert (HP : Forall (fun x : Rider * float => isnan (snd x) = false) scored).
  { apply Forall_forall. intros x Hx. apply in_map_iff in Hx.
    destruct Hx as (r & <- & Hr). now apply Hnum. }
  destruct (sort_by_head_on higher_score _ higher_score_trans higher_score_negtrans
                            scored (best, sh) t HP Hsort)
    as (s1 & s2 & Hsplit & H1 & H2).
  assert (Hval : forall x, In x scored -> snd x = score (fst x) /\ In (fst x) riders).
  { intros x Hx. apply in_map_iff in Hx. destruct Hx as (r & <- & Hr). now split. }
  assert (Hsh : sh = score best).
  { apply (Hval (best, sh)). rewrite Hsplit. apply in_or_app. right. now left. }
  exists (map fst s1), (map fst s2). split; [|split].
  - transitivity (map fst scored).
    + unfold scored. rewrite map_map. simpl. now rewrite map_id.
    + rewrite Hsplit, map_app. reflexivity.
  - intros r Hr. apply in_map_iff in Hr. destruct Hr as (x & <- & Hx).
    assert (Hin : In x scored) by (rewrite Hsplit; apply in_or_app; now left).
    destruct (Hval x Hin) as [<- _]. rewrite <- Hsh. exact (H1 x Hx).
  - intros r Hr. apply in_map_iff in Hr. destruct Hr as (x & <- & Hx).
    assert (Hin : In x scored) by (rewrite Hsplit; apply in_or_app; right; now right).
    destruct (Hval x Hin) as [Hs Hrd]. rewrite <- Hs, <- Hsh.
    apply float_lt_false.
    + rewrite Hsh. apply Hnum. apply (Hval (best, sh)).
      rewrite Hsplit. apply in_or_app. right. now left.
    + rewrite Hs. now apply Hnum.
    + exact (H2 x Hx).
Qed.

Ltac step_in H :=
  match type of H with
  | context [match ?m with Return _ _ => _ | Raised _ _ => _ end] =>
      lazymatch m with
      | context [match _ with Return _ _ => _ | Raised _ _ => _ end] => fail
      | _ => destruct m eqn:?; try discriminate H
      end
  end.




(** C5: scoring and selection read the rider list, the cohort and the
    orders table only, so two runs that agree on these give every rider the
    same score, the float Python computes, and select the same rider; when
    every score is a number, the rider selected is the first of the list,
    in iteration order, that reaches the highest score: the riders ahead of
    it score strictly less, the riders behind it score at most as much.
    Every score is a number when the ratings are numbers of two places
    between -9.99 and 9.99, which is what the rating column holds. *)
Theorem selection_is_deterministic_first_highest (landmark : option Landmark)
        (o : Order) (os : list Order) (r0 : Rider) (rs : list Rider) (db : DB) :
  let score := float_score landmark (delivery_date o) db in
  exists best,
    for_each (score_rider_float landmark (o :: os)) (r0 :: rs) db
    = Return (map (fun r => (r, score r)) (r0 :: rs)) db
    /\ _find_best_rider (r0 :: rs) landmark (o :: os) db = Return (Some best) db
    /\ (forall db2, orders db2 = orders db ->
          for_each (score_rider_float landmark (o :: os)) (r0 :: rs) db2
          = Return (map (fun r => (r, score r)) (r0 :: rs)) db2
          /\ _find_best_rider (r0 :: rs) landmark (o :: os) db2 = Return (Some best) db2)
    /\ ((forall r, In r (r0 :: rs) -> isnan (score r) = false) ->
        exists l1 l2,
          r0 :: rs = (l1 ++ best :: l2)%list
          /\ (forall r, In r l1 -> float_lt (score r) (score best) = true)
          /\ (forall r, In r l2 -> float_le (score r) (score best) = true))
    /\ ((forall r, In r (r0 :: rs) -> two_places (rating r)) ->
        forall r, In r (r0 :: rs) -> isnan (score r) = false).
Proof.
  intros score.
  destruct (find_best_rider_returns landmark o os r0 rs db) as (best & Hbest & _ & Hdet).
  exists best. split; [apply scored_riders_value|]. split; [exact Hbest|]. split.
  - intros db2 Ho. split; [|now apply Hdet].
    rewrite scored_riders_value. f_equal. apply map_ext. intros r.
    unfold score. now rewrite (float_score_reads_orders _ _ _ _ _ Ho).
  - split.
    + intros Hnum. now apply (find_best_rider_first_highest landmark o os).
    + intros Hr r Hin. apply two_places_score_number. now apply Hr.
Qed.

(** ** The pool of a cohort *)

Lemma available_riders_In (db : DB) (r : Rider) :
  In r (available_riders db) <-> In r (riders db) /\ rider_status r = AVAILABLE.
Proof.
  unfold available_riders. rewrite sort_by_In, filter_In. unfold is_available.
  destruct (rider_status r); simpl; intuition congruence.
Qed.

(** C1 (as amended): for a cohort with a non-empty set of AVAILABLE
    riders, scoring always yields a candidate: a rider of the pool is
    selected whatever the scores are, and the cohort's outcome is never a
    failure entry. *)
Theorem nonempty_pool_always_selects (landmark : option Landmark)
        (delivery_date : nat) (o : Order) (os : list Order) (db : DB) :
  available_riders db <> [] ->
  (exists best,
      _find_best_rider (available_riders db) landmark (o :: os) db
      = Return (Some best) db
      /\ In best (available_riders db))
  /\ (forall name reason count db',
        _assign_group_to_rider landmark delivery_date (o :: os) db
        <> Return (GroupFailure name reason count) db').
Proof.
  intros Hne.
  destruct (available_riders db) as [|r0 rs] eqn:Hav; [congruence|].
  destruct (find_best_rider_returns landmark o os r0 rs db) as (best & Hbest & Hin & _).
  split.
  - exists best. split; [exact Hbest|exact Hin].
  - intros nm reason count db' H.
    unfold _assign_group_to_rider in H. unfold bind at 1, query in H.
    rewrite Hav in H. unfold bind at 1 in H. rewrite Hbest in H.
    unfold bind in H. repeat step_in H.
Qed.

(** ** Tables *)

Lemma put_row_fresh {A : Type} (pk : A -> nat) (x : A) (t : list A) :
  (forall row, In row t -> pk row <> pk x) -> put_row pk x t = t.
Proof.
  intros H. unfold put_row. rewrite <- (map_id t) at 2.
  apply map_ext_in. intros row Hrow.
  destruct (pk row =? pk x) eqn:E; [|reflexivity].
  apply Nat.eqb_eq in E. now apply H in Hrow.
Qed.

Lemma next_pk_fresh {A : Type} (pk : A -> nat) (t : list A) (row : A) :
  In row t -> pk row < next_pk pk t.
Proof.
  intros H. unfold next_pk.
  assert (Hle : list_max (map pk t) <= list_max (map pk t)) by lia.
  apply list_max_le in Hle. rewrite Forall_forall in Hle.
  specialize (Hle (pk row) (in_map pk _ _ H)). lia.
Qed.

Lemma put_row_last {A : Type} (pk : A -> nat) (x x' : A) (t : list A) :
  pk x = pk x' ->
  (forall row, In row t -> pk row <> pk x) ->
  put_row pk x' (t ++ [x])%list = (t ++ [x'])%list.
Proof.
  intros Hpk H. unfold put_row. rewrite map_app. f_equal.
  - apply put_row_fresh. intros row Hrow. rewrite <- Hpk. now apply H.
  - simpl. rewrite Hpk, Nat.eqb_refl. reflexivity.
Qed.

(** ** Route creation *)

Lemma fold_max_spec (l : list Z) (a : Z) :
  (a <= fold_left Z.max l a)%Z
  /\ (forall x, In x l -> (x <= fold_left Z.max l a)%Z)
  /\ (fold_left Z.max l a = a \/ In (fold_left Z.max l a) l).
Proof.
  revert a. induction l as [|y l IH]; intros a; simpl.
  - repeat split; [lia | intros x [] | now left].
  - destruct (IH (Z.max a y)) as (H1 & H2 & H3). repeat split.
    + lia.
    + intros x [<-|Hx]; [lia|auto].
    + destruct H3 as [H3|H3].
      * destruct (Z.max_spec a y) as [[_ E]|[_ E]]; rewrite E in H3 |- *.
        -- right. left. now symmetry.
        -- now left.
      * right. now right.
Qed.

(** The first row of the rows in descending sequence order carries the
    largest sequence. *)
Lemma first_by_sequence_is_max (l : list DeliveryRoute) :
  match sort_by (fun y x => (sequence y >? sequence x)%Z) l with
  | first :: _ => (sequence first + 1)%Z
  | [] => 1%Z
  end
  = match map sequence l with
    | [] => 1%Z
    | s :: rest => (1 + fold_left Z.max rest s)%Z
    end.
Proof.
  destruct (sort_by _ l) as [|h t] eqn:Hs.
  - destruct l as [|x l]; [reflexivity|].
    pose proof (sort_by_length (fun y x => (sequence y >? sequence x)%Z) (x :: l)) as Hl.
    rewrite Hs in Hl. discriminate.
  - apply sort_by_head in Hs.
    + destruct Hs as (l1 & l2 & -> & H1 & H2).
      assert (Hmax : forall x, In x (l1 ++ h :: l2)%list -> (sequence x <= sequence h)%Z).
      { intros x Hx. apply in_app_or in Hx. destruct Hx as [Hx|[<-|Hx]].
        - specialize (H1 x Hx). lia.
        - lia.
        - specialize (H2 x Hx). lia. }
      assert (Hin : In (sequence h) (map sequence (l1 ++ h :: l2)%list)).
      { apply in_map, in_or_app. right. now left. }
      destruct (map sequence (l1 ++ h :: l2)%list) as [|s rest] eqn:Hm.
      { destruct Hin. }
      assert (Hall : forall z, In z (s :: rest) -> (z <= sequence h)%Z).
      { intros z Hz. rewrite <- Hm in Hz. apply in_map_iff in Hz.
        destruct Hz as (x & <- & Hx). auto. }
      destruct (fold_max_spec rest s) as (F1 & F2 & F3).
      assert (In (fold_left Z.max rest s) (s :: rest)) as Fin.
      { destruct F3 as [->|F3]; [now left|now right]. }
      apply Hall in Fin.
      assert ((sequence h <= fold_left Z.max rest s)%Z).
      { destruct Hin as [<-|Hin]; auto. }
      lia.
    + intros a b c. lia.
    + intros a b c. lia.
Qed.

(** What a call of [_create_delivery_route] leaves behind: a new last row
    of the routes table, numbered as the specification says, or nothing
    when it raises. *)
Lemma create_delivery_route_cases (rider : Rider) (landmark : option Landmark)
      (date : nat) (os : list Order) (db : DB) :
  match _create_delivery_route rider landmark date os db with
  | Return route db' =>
      riders db' = riders db /\ orders db' = orders db
      /\ sms_logs db' = sms_logs db
      /\ routes db' = (routes db ++ [route])%list
      /\ route_rider route = rider_pk rider
      /\ route_date route = date
      /\ sequence route = next_sequence_spec rider date db
      /\ completed route = false
      /\ landmark = Some (route_landmark route)
  | Raised _ db' => db' = db
  end.
Proof.
  unfold _create_delivery_route, bind, query, py_min, create_route.
  destruct (map delivery_time_start os) as [|t ts]; [reflexivity|].
  unfold ret. destruct landmark as [l|]; [|reflexivity].
  unfold bind, query, update, save_route, update, with_routes, ret; simpl.
  repeat split.
  - apply put_row_last; [reflexivity|].
    intros row Hrow. simpl. pose proof (next_pk_fresh route_pk _ _ Hrow). lia.
  - unfold next_sequence_spec. apply first_by_sequence_is_max.
Qed.

Lemma create_delivery_route_returns (rider : Rider) (l : Landmark) (date : nat)
      (o : Order) (os : list Order) (db : DB) :
  exists route db',
    _create_delivery_route rider (Some l) date (o :: os) db = Return route db'.
Proof.
  unfold _create_delivery_route, bind, query, py_min, create_route, ret,
    bind, query, update, save_route, update, ret; simpl.
  eauto.
Qed.





(** ** Rows and primary keys *)

Lemma get_row_some {A : Type} (pk : A -> nat) (k : nat) (t : list A) (y : A) :
  get_row pk k t = Some y -> In y t /\ pk y = k.
Proof.
  intros H. apply find_some in H. destruct H as [Hin Hk].
  apply Nat.eqb_eq in Hk. now split.
Qed.

Lemma get_row_none {A : Type} (pk : A -> nat) (k : nat) (t : list A) :
  ~ In k (map pk t) -> get_row pk k t = None.
Proof.
  intros H. destruct (get_row pk k t) as [y|] eqn:E; [|reflexivity].
  apply get_row_some in E. destruct E as [Hin <-].
  exfalso. apply H. now apply in_map.
Qed.

Lemma get_row_unique {A : Type} (pk : A -> nat) (t : list A) (y : A) :
  NoDup (map pk t) -> In y t -> get_row pk (pk y) t = Some y.
Proof.
  induction t as [|x t IH]; intros Hnd Hin; [destruct Hin|].
  simpl in Hnd. inversion Hnd as [|? ? Hx Hnd']; subst.
  unfold get_row. simpl. destruct (pk x =? pk y) eqn:E.
  - destruct Hin as [->|Hin]; [reflexivity|].
    apply Nat.eqb_eq in E. exfalso. apply Hx. rewrite E. now apply in_map.
  - destruct Hin as [->|Hin]; [now rewrite Nat.eqb_refl in E|].
    now apply IH.
Qed.

Lemma pk_injective {A : Type} (pk : A -> nat) (t : list A) (a b : A) :
  NoDup (map pk t) -> In a t -> In b t -> pk a = pk b -> a = b.
Proof.
  intros Hnd Ha Hb E.
  pose proof (get_row_unique pk t a Hnd Ha) as H1.
  pose proof (get_row_unique pk t b Hnd Hb) as H2.
  rewrite E in H1. congruence.
Qed.

Lemma NoDup_map_filter {A : Type} (pk : A -> nat) (p : A -> bool) (t : list A) :
  NoDup (map pk t) -> NoDup (map pk (filter p t)).
Proof.
  induction t as [|x t IH]; intros Hnd; simpl; [constructor|].
  simpl in Hnd. inversion Hnd as [|? ? Hx Hnd']; subst.
  destruct (p x); simpl; auto.
  constructor; auto. intros Hin. apply Hx.
  apply in_map_iff in Hin. destruct Hin as (y & E & Hy).
  apply filter_In in Hy. rewrite <- E. apply in_map. tauto.
Qed.

Lemma filter_map_In {A : Type} (p : A -> bool) (f : A -> A) (t : list A) :
  (forall x, In x t -> p (f x) = p x) ->
  filter p (map f t) = map f (filter p t).
Proof.
  induction t as [|x t IH]; intros H; simpl; [reflexivity|].
  rewrite H by now left.
  rewrite IH by (intros; apply H; now right).
  now destruct (p x).
Qed.

(** ** Enumeration *)

Lemma enumerate1_from {A : Type} (xs : list A) : enumerate1 xs = enumerate_from 1 xs.
Proof. reflexivity. Qed.

Lemma enumerate_from_cons {A : Type} (n : nat) (x : A) (xs : list A) :
  enumerate_from n (x :: xs) = (Z.of_nat n, x) :: enumerate_from (S n) xs.
Proof. reflexivity. Qed.

Lemma enumerate_from_snd {A : Type} (n : nat) (xs : list A) :
  map snd (enumerate_from n xs) = xs.
Proof.
  revert n. induction xs as [|x xs IH]; intros n; [reflexivity|].
  rewrite enumerate_from_cons. simpl. now rewrite IH.
Qed.

Lemma enumerate_from_nth {A : Type} (xs : list A) (n k : nat) (x : A) :
  nth_error xs k = Some x ->
  nth_error (enumerate_from n xs) k = Some (Z.of_nat (n + k), x).
Proof.
  revert n k. induction xs as [|y xs IH]; intros n k H.
  - destruct k; discriminate.
  - rewrite enumerate_from_cons. destruct k as [|k]; simpl in *.
    + injection H as ->. now rewrite Nat.add_0_r.
    + rewrite (IH (S n) k H). do 3 f_equal. lia.
Qed.

Lemma renumbered_pk (entry : Z * DeliveryRoute) :
  route_pk (renumbered entry) = route_pk (snd entry).
Proof. reflexivity. Qed.

Lemma renumbered_twice (xs : list DeliveryRoute) (n : nat) :
  map renumbered (enumerate_from n (map renumbered (enumerate_from n xs)))
  = map renumbered (enumerate_from n xs).
Proof.
  revert n. induction xs as [|x xs IH]; intros n; [reflexivity|].
  rewrite enumerate_from_cons. cbn [map]. rewrite enumerate_from_cons. cbn [map].
  now rewrite IH.
Qed.

(** ** The renumbering loop *)

Lemma for_each_renumber (entries : list (Z * DeliveryRoute)) (db : DB) :
  for_each renumber entries db
  = Return (map renumbered entries)
           (with_routes
              (fun t => fold_left (fun t y => put_row route_pk y t)
                                  (map renumbered entries) t)
              db).
Proof.
  revert db. induction entries as [|[idx r] entries IH]; intros db.
  - destruct db. reflexivity.
  - simpl for_each. unfold bind at 1. unfold renumber at 1.
    unfold bind at 1, save_route, update, ret at 1. unfold bind.
    rewrite IH. reflexivity.
Qed.

Lemma saves_overlay (saved t : list DeliveryRoute) :
  NoDup (map route_pk saved) ->
  fold_left (fun t y => put_row route_pk y t) saved t = map (overlay saved) t.
Proof.
  revert t. induction saved as [|y saved IH]; intros t Hnd.
  - simpl. symmetry. rewrite <- (map_id t) at 2. now apply map_ext.
  - simpl in Hnd. inversion Hnd as [|? ? Hy Hnd']; subst.
    simpl fold_left. rewrite IH by assumption.
    unfold put_row. rewrite map_map. apply map_ext. intros row.
    unfold overlay, get_row. simpl find.
    rewrite (Nat.eqb_sym (route_pk y) (route_pk row)).
    destruct (route_pk row =? route_pk y) eqn:E; [|reflexivity].
    fold (get_row route_pk (route_pk y) saved).
    now rewrite get_row_none.
Qed.

Lemma overlay_pk (saved : list DeliveryRoute) (row : DeliveryRoute) :
  route_pk (overlay saved row) = route_pk row.
Proof.
  unfold overlay. destruct (get_row _ _ saved) as [y|] eqn:E; [|reflexivity].
  now apply get_row_some in E.
Qed.

Lemma overlay_twice (saved : list DeliveryRoute) (row : DeliveryRoute) :
  overlay saved (overlay saved row) = overlay saved row.
Proof.
  unfold overlay at 1. rewrite overlay_pk.
  unfold overlay. now destruct (get_row _ _ saved).
Qed.

Lemma overlay_away (saved : list DeliveryRoute) (row : DeliveryRoute) :
  ~ In (route_pk row) (map route_pk saved) -> overlay saved row = row.
Proof. intros H. unfold overlay. now rewrite get_row_none. Qed.

(** ** The route optimizer *)

Lemma saved_pks (xs : list DeliveryRoute) (n : nat) :
  map route_pk (map renumbered (enumerate_from n xs)) = map route_pk xs.
Proof.
  rewrite map_map. rewrite <- (enumerate_from_snd n xs) at 2.
  rewrite map_map. reflexivity.
Qed.

Lemma selection_nodup (before : DeliveryRoute -> DeliveryRoute -> bool)
      (p : DeliveryRoute -> bool) (t : list DeliveryRoute) :
  NoDup (map route_pk t) -> NoDup (map route_pk (sort_by before (filter p t))).
Proof.
  intros Hnd. eapply Permutation_NoDup.
  - apply Permutation_map, Permutation_sym, sort_by_perm.
  - now apply NoDup_map_filter.
Qed.

Lemma overlay_saved_entry (xs : list DeliveryRoute) (n : nat) (e : Z * DeliveryRoute) :
  NoDup (map route_pk xs) ->
  In e (enumerate_from n xs) ->
  overlay (map renumbered (enumerate_from n xs)) (snd e) = renumbered e.
Proof.
  intros Hnd He. unfold overlay. rewrite <- (renumbered_pk e).
  rewrite get_row_unique; [reflexivity| |now apply in_map].
  now rewrite saved_pks.
Qed.

Lemma overlay_saved_selection (xs : list DeliveryRoute) (n : nat) :
  NoDup (map route_pk xs) ->
  map (overlay (map renumbered (enumerate_from n xs))) xs
  = map renumbered (enumerate_from n xs).
Proof.
  intros Hnd. rewrite <- (enumerate_from_snd n xs) at 2.
  rewrite map_map. apply map_ext_in. intros e He.
  now apply overlay_saved_entry.
Qed.

(** Saving the renumbered instances changes nothing of a row but its
    sequence. *)
Lemma overlay_saved_shape (t xs : list DeliveryRoute) (n : nat) (row : DeliveryRoute) :
  NoDup (map route_pk t) ->
  (forall x, In x xs -> In x t) ->
  In row t ->
  exists i, overlay (map renumbered (enumerate_from n xs)) row = set_sequence i row.
Proof.
  intros Hnd Hsub Hrow. unfold overlay.
  destruct (get_row _ _ _) as [y|] eqn:E.
  - apply get_row_some in E. destruct E as [Hy Hpk].
    apply in_map_iff in Hy. destruct Hy as ([i x] & <- & He).
    exists i. unfold renumbered. simpl. f_equal.
    apply (pk_injective route_pk t); auto.
    apply Hsub. rewrite <- (enumerate_from_snd n xs).
    now apply (in_map snd) in He.
  - exists (sequence row). now destruct row.
Qed.

Lemma optimize_rider_route_run (rider : Rider) (date : nat) (db : DB)
      (sel saved : list DeliveryRoute) :
  NoDup (map route_pk (routes db)) ->
  sel = sort_by earlier_arrival (filter (incomplete_on rider date) (routes db)) ->
  saved = map renumbered (enumerate1 sel) ->
  optimize_rider_route rider date db
  = Return (mkOptimizeSummary
              (full_name rider) date (List.length saved)
              (map (fun r => mkRouteSummary (sequence r) (name (route_landmark r))
                               (strftime "%I:%M %p" (estimated_arrival r))
                               (List.length (route_orders r)))
                   saved))
           (with_routes (map (overlay saved)) db).
Proof.
  intros Hnd -> ->. unfold optimize_rider_route, bind, query.
  rewrite for_each_renumber. unfold ret. f_equal.
  unfold with_routes. f_equal. apply saves_overlay.
  rewrite enumerate1_from, saved_pks. now apply selection_nodup.
Qed.

(** The selection of a second run is what the first run saved. *)
Lemma optimize_rider_route_again (rider : Rider) (date : nat) (t : list DeliveryRoute) :
  NoDup (map route_pk t) ->
  let sel := sort_by earlier_arrival (filter (incomplete_on rider date) t) in
  let saved := map renumbered (enumerate1 sel) in
  sort_by earlier_arrival (filter (incomplete_on rider date) (map (overlay saved) t))
  = saved.
Proof.
  intros Hnd sel saved.
  assert (Hsub : forall x, In x sel -> In x t).
  { intros x Hx. apply sort_by_In, filter_In in Hx. tauto. }
  assert (Hshape : forall row, In row t -> exists i, overlay saved row = set_sequence i row).
  { intros row Hrow. unfold saved. rewrite enumerate1_from.
    now apply (overlay_saved_shape t). }
  rewrite filter_map_In.
  - rewrite (sort_by_map earlier_arrival).
    + unfold saved at 2. rewrite enumerate1_from.
      rewrite <- overlay_saved_selection by now apply selection_nodup.
      reflexivity.
    + intros a b Ha Hb. apply filter_In in Ha, Hb.
      destruct (Hshape a) as [i ->]; [tauto|].
      destruct (Hshape b) as [j ->]; [tauto|]. reflexivity.
  - intros x Hx. destruct (Hshape x Hx) as [i ->]. reflexivity.
Qed.

(** C7 (as amended): with unique primary keys, [optimize_rider_route]
    numbers the rider's incomplete routes of the date 1..N in ascending
    order of estimated arrival; routes with the same estimated arrival are
    numbered in the order of their rows in the table, whatever their
    numbers were before; every other route, so every completed route, is
    left as it was; run again on the result, it returns the same summary
    and changes nothing. *)
Theorem optimize_rider_route_idempotent (rider : Rider) (date : nat) (db : DB) :
  NoDup (map route_pk (routes db)) ->
  exists sel summary db1,
    optimize_rider_route rider date db = Return summary db1
    /\ optimize_rider_route rider date db1 = Return summary db1
    /\ Permutation sel (filter (incomplete_on rider date) (routes db))
    /\ StronglySorted (fun a b => estimated_arrival a <= estimated_arrival b) sel
    /\ (forall t,
          filter (fun r => estimated_arrival r =? t) sel
          = filter (fun r => estimated_arrival r =? t)
                   (filter (incomplete_on rider date) (routes db)))
    /\ (forall k r,
          nth_error sel k = Some r ->
          exists r',
            get_row route_pk (route_pk r) (routes db1) = Some r'
            /\ sequence r' = Z.of_nat (S k)
            /\ r' = set_sequence (Z.of_nat (S k)) r)
    /\ (forall k r,
          nth_error (routes db) k = Some r ->
          incomplete_on rider date r = false ->
          nth_error (routes db1) k = Some r)
    /\ (forall k r,
          nth_error (routes db) k = Some r ->
          completed r = true ->
          nth_error (routes db1) k = Some r)
    /\ riders db1 = riders db /\ orders db1 = orders db
    /\ sms_logs db1 = sms_logs db.
Proof.
  intros Hnd.
  set (sel := sort_by earlier_arrival (filter (incomplete_on rider date) (routes db))).
  set (saved := map renumbered (enumerate1 sel)).
  assert (Hsel : NoDup (map route_pk sel)) by now apply selection_nodup.
  assert (Hsaved : map route_pk saved = map route_pk sel).
  { unfold saved. rewrite enumerate1_from. apply saved_pks. }
  assert (Haway : forall r, In r (routes db) -> incomplete_on rider date r = false ->
                            overlay saved r = r).
  { intros r Hr Hinc. apply overlay_away. rewrite Hsaved. intros Hin.
    apply in_map_iff in Hin. destruct Hin as (x & E & Hx).
    apply sort_by_In, filter_In in Hx. destruct Hx as [Hx Hp].
    apply (pk_injective route_pk (routes db) x r Hnd Hx Hr) in E. congruence. }
  assert (Hkeep : forall k r, nth_error (routes db) k = Some r ->
                              incomplete_on rider date r = false ->
                              nth_error (map (overlay saved) (routes db)) k = Some r).
  { intros k r Hk Hinc. rewrite nth_error_map, Hk. simpl. f_equal.
    apply Haway; [|exact Hinc]. eapply nth_error_In; eassumption. }
  eexists sel, _, (with_routes (map (overlay saved)) db).
  split; [apply (optimize_rider_route_run rider date db sel saved Hnd); reflexivity|].
  split.
  { rewrite (optimize_rider_route_run rider date _ saved saved).
    - f_equal. unfold with_routes. simpl. f_equal.
      rewrite map_map. apply map_ext. intros row. apply overlay_twice.
    - simpl. rewrite map_map.
      erewrite map_ext; [exact Hnd|]. intros row. apply overlay_pk.
    - simpl. symmetry. now apply optimize_rider_route_again.
    - unfold saved. rewrite !enumerate1_from. symmetry. apply renumbered_twice. }
  split; [apply sort_by_perm|].
  split; [apply (sort_by_key_sorted estimated_arrival)|].
  split; [intros t; apply (sort_by_key_stable estimated_arrival)|].
  split.
  { intros k r Hk. cbn [routes with_routes].
    assert (Hr : In r (routes db)).
    { apply nth_error_In in Hk. apply sort_by_In, filter_In in Hk. tauto. }
    assert (Ho : overlay saved r = set_sequence (Z.of_nat (S k)) r).
    { unfold saved. rewrite enumerate1_from.
      apply (enumerate_from_nth sel 1 k r) in Hk.
      apply nth_error_In in Hk.
      exact (overlay_saved_entry sel 1 _ Hsel Hk). }
    exists (set_sequence (Z.of_nat (S k)) r).
    split; [|split; reflexivity].
    rewrite <- Ho, <- (overlay_pk saved r).
    apply get_row_unique.
    - rewrite map_map. erewrite map_ext; [exact Hnd|]. intros row. apply overlay_pk.
    - now apply in_map. }
  split; [exact Hkeep|].
  split.
  { intros k r Hk Hc. apply Hkeep; [exact Hk|].
    unfold incomplete_on. rewrite Hc. simpl. apply andb_false_r. }
  repeat split.
Qed.

(** ** What each operation touches *)

Lemma send_sms_returns (phone message : string) (order : option Order)
      (message_type : MessageType) (db : DB) :
  exists b db',
    _send_sms phone message order message_type db = Return b db'
    /\ riders db' = riders db /\ routes db' = routes db
    /\ (message_type <> CONFIRMATION -> orders db' = orders db).
Proof.
  unfold _send_sms.
  destruct (gateway message _), order as [o|];
    unfold bind, update, ret; simpl;
    try (destruct message_type; simpl);
    eexists _, _; (split; [reflexivity|]); repeat split; congruence.
Qed.

Lemma send_rider_assignment_sms_cases (rider : Rider) (os : list Order) (db : DB) :
  match send_rider_assignment_sms rider os db with
  | Return _ db' =>
      riders db' = riders db /\ routes db' = routes db /\ orders db' = orders db
  | Raised _ db' => db' = db
  end.
Proof.
  unfold send_rider_assignment_sms, bind.
  destruct os as [|o os].
  - reflexivity.
  - unfold attr_name. destruct (landmark o) as [l|]; [|reflexivity].
    unfold ret at 1. unfold py_min. cbn [map]. unfold ret at 1.
    match goal with
    | |- context [_send_sms ?p ?m ?o ?t db] =>
        destruct (send_sms_returns p m o t db) as (b & db' & -> & Hr & Ht & Ho)
    end.
    repeat split; auto. apply Ho. discriminate.
Qed.

Lemma assign_orders_returns (best : Rider) (os : list Order) (db : DB) :
  exists db',
    for_each (assign_order best) os db
    = Return (map (set_assignment (rider_pk best) ASSIGNED) os) db'
    /\ riders db' = riders db /\ routes db' = routes db.
Proof.
  revert db. induction os as [|o os IH]; intros db; simpl.
  - now exists db.
  - unfold bind at 1. unfold assign_order at 1.
    unfold bind at 1, save_order, update, ret at 1.
    destruct (IH (with_orders (put_row order_pk (set_assignment (rider_pk best) ASSIGNED o)) db))
      as (db' & Hrun & Hr & Ht).
    unfold bind. rewrite Hrun. exists db'. repeat split; auto.
Qed.

Lemma find_best_rider_cases (rs : list Rider) (landmark : option Landmark)
      (os : list Order) (db : DB) :
  match _find_best_rider rs landmark os db with
  | Return (Some best) db' => db' = db /\ In best rs
  | Return None db' => db' = db
  | Raised _ db' => db' = db
  end.
Proof.
  destruct rs as [|r0 rs]; [reflexivity|].
  destruct os as [|o os]; [reflexivity|].
  destruct (find_best_rider_returns landmark o os r0 rs db) as (best & -> & Hin & _).
  split; [reflexivity|exact Hin].
Qed.

(** The outcomes of a cohort: a failure entry with the database as it
    was; a success entry with one new route for a rider of the pool, who is
    saved as ON_DELIVERY; or an exception, with at most the new route. *)
Lemma assign_group_cases (landmark : option Landmark) (date : nat)
      (os : list Order) (db : DB) :
  match _assign_group_to_rider landmark date os db with
  | Return (GroupFailure _ _ _) db' => db' = db
  | Return (GroupSuccess _ _ _ route_id) db' =>
      exists best route,
        In best (available_riders db)
        /\ routes db' = (routes db ++ [route])%list
        /\ route_rider route = rider_pk best
        /\ route_pk route = route_id
        /\ riders db'
           = put_row rider_pk (set_rider_status ON_DELIVERY best) (riders db)
  | Raised _ db' =>
      riders db' = riders db
      /\ (routes db' = routes db
          \/ exists best route,
               In best (available_riders db)
               /\ routes db' = (routes db ++ [route])%list
               /\ route_rider route = rider_pk best)
  end.
Proof.
  unfold _assign_group_to_rider. unfold bind at 1, query.
  destruct (available_riders db) as [|r0 rs] eqn:Hav.
  { unfold bind, attr_name. destruct landmark; simpl; auto. }
  unfold bind at 1.
  pose proof (find_best_rider_cases (r0 :: rs) landmark os db) as Hf.
  destruct (_find_best_rider (r0 :: rs) landmark os db) as [[best|] db0|e db0].
  2: { subst db0. unfold bind, attr_name. destruct landmark; simpl; auto. }
  2: { subst db0. auto. }
  destruct Hf as [-> Hbest].
  unfold bind at 1.
  destruct (assign_orders_returns best os db) as (db1 & -> & Hr1 & Ht1).
  unfold bind at 1.
  pose proof (create_delivery_route_cases best landmark date
                (map (set_assignment (rider_pk best) ASSIGNED) os) db1) as Hc.
  destruct (_create_delivery_route best landmark date _ db1) as [route db2|e db2].
  2: { subst db2. split; [exact Hr1|]. left. exact Ht1. }
  destruct Hc as (Hr2 & _ & _ & Ht2 & Hrider & _ & _ & _ & ->).
  unfold bind at 1.
  pose proof (send_rider_assignment_sms_cases best
                (map (set_assignment (rider_pk best) ASSIGNED) os) db2) as Hs.
  destruct (send_rider_assignment_sms best _ db2) as [b db3|e db3].
  2: { subst db3. split; [congruence|]. right. exists best, route.
       repeat split; (exact Hbest || congruence). }
  destruct Hs as (Hr3 & Ht3 & _).
  unfold bind at 1, save_rider, update. unfold bind, attr_name. simpl.
  exists best, route. repeat split; (exact Hbest || congruence).
Qed.

(** ** The pass over the cohorts *)

Lemma NoDup_snoc {A : Type} (l : list A) (x : A) :
  NoDup l -> ~ In x l -> NoDup (l ++ [x])%list.
Proof.
  intros Hnd Hx. apply (Permutation_NoDup (Permutation_cons_append l x)).
  now constructor.
Qed.

(** A rider of the pool has no route among those created so far. *)
Lemma pool_rider_not_booked (pre new : list DeliveryRoute) (db : DB) (best : Rider) :
  booked pre new db ->
  In best (available_riders db) ->
  ~ In (rider_pk best) (map route_rider new).
Proof.
  intros (_ & _ & Hst) Hbest Hin.
  apply available_riders_In in Hbest. destruct Hbest as [Hr Ha].
  specialize (Hst best Hr Hin). congruence.
Qed.

Lemma assign_group_booked (pre new : list DeliveryRoute) (landmark : option Landmark)
      (date : nat) (os : list Order) (db : DB) :
  booked pre new db ->
  match _assign_group_to_rider landmark date os db with
  | Return res db' =>
      exists new',
        booked pre new' db'
        /\ map route_pk new' = (map route_pk new ++ route_ids [res])%list
  | Raised _ db' =>
      exists new',
        routes db' = (pre ++ new')%list /\ NoDup (map route_rider new')
  end.
Proof.
  intros Hb. pose proof (assign_group_cases landmark date os db) as Hc.
  pose proof Hb as (Hroutes & Hnd & Hst).
  assert (Hsnoc : forall best route,
             In best (available_riders db) ->
             route_rider route = rider_pk best ->
             NoDup (map route_rider (new ++ [route])%list)).
  { intros best route Hbest Hrider. rewrite map_app. simpl.
    apply NoDup_snoc; [exact Hnd|]. rewrite Hrider.
    now apply (pool_rider_not_booked pre new db). }
  destruct (_assign_group_to_rider landmark date os db)
    as [[nm reason n|nm rn n rid] db'|e db'].
  - subst db'. exists new. split; [exact Hb|]. simpl. now rewrite app_nil_r.
  - destruct Hc as (best & route & Hbest & Ht & Hrider & Hpk & Hr).
    exists (new ++ [route])%list. split; [split; [|split]|].
    + now rewrite Ht, Hroutes, app_assoc.
    + now apply (Hsnoc best).
    + intros r Hin Hbooked. rewrite Hr in Hin. unfold put_row in Hin.
      apply in_map_iff in Hin. destruct Hin as (row & <- & Hrow).
      simpl rider_pk in Hbooked |- *.
      destruct (rider_pk row =? rider_pk best) eqn:E; [reflexivity|].
      apply Hst; [exact Hrow|].
      rewrite map_app in Hbooked. apply in_app_or in Hbooked.
      destruct Hbooked as [H|[H|[]]]; [exact H|].
      apply Nat.eqb_neq in E. congruence.
    + rewrite map_app. simpl. now rewrite Hpk.
  - destruct Hc as (Hr & [Ht|(best & route & Hbest & Ht & Hrider)]).
    + exists new. split; [congruence|exact Hnd].
    + exists (new ++ [route])%list. split.
      * now rewrite Ht, Hroutes, app_assoc.
      * now apply (Hsnoc best).
Qed.

Lemma route_ids_app (a b : list GroupResult) :
  route_ids (a ++ b) = (route_ids a ++ route_ids b)%list.
Proof. apply flat_map_app. Qed.

Lemma assign_groups_booked (pre : list DeliveryRoute)
      (grouped : list ((option Landmark * nat) * list Order)) :
  forall (count : nat) (results : list GroupResult) (new : list DeliveryRoute) (db : DB),
    booked pre new db ->
    route_ids results = map route_pk new ->
    match assign_groups grouped count results db with
    | Return (_, results') db' =>
        exists new', booked pre new' db' /\ route_ids results' = map route_pk new'
    | Raised _ db' =>
        exists new', routes db' = (pre ++ new')%list /\ NoDup (map route_rider new')
    end.
Proof.
  induction grouped as [|[[landmark date] os] grouped IH];
    intros count results new db Hb Hids.
  - simpl. now exists new.
  - simpl assign_groups. unfold bind.
    pose proof (assign_group_booked pre new landmark date os db Hb) as Hstep.
    destruct (_assign_group_to_rider landmark date os db) as [res db'|e db'].
    + destruct Hstep as (new' & Hb' & Hpk).
      apply (IH _ _ new' db' Hb').
      now rewrite route_ids_app, Hids, Hpk.
    + exact Hstep.
Qed.

(** C3: within one call of [assign_orders_to_riders] the pool of every
    cohort is queried after the riders selected for earlier cohorts were
    saved as ON_DELIVERY, so no rider is selected for two cohorts: the
    routes the call creates, one for each success entry of its report, have
    pairwise distinct riders, and these riders end ON_DELIVERY. *)
Theorem no_rider_selected_twice (orders_queryset : option (Order -> bool)) (db : DB) :
  exists new,
    routes (final_db (assign_orders_to_riders orders_queryset db))
    = (routes db ++ new)%list
    /\ NoDup (map route_rider new)
    /\ match assign_orders_to_riders orders_queryset db with
       | Return (NoOrders _) _ => new = []
       | Return (Assigned _ _ details) db' =>
           route_ids details = map route_pk new
           /\ forall r, In r (riders db') ->
                        In (rider_pk r) (map route_rider new) ->
                        rider_status r = ON_DELIVERY
       | Raised _ _ => True
       end.
Proof.
  unfold assign_orders_to_riders, bind, query.
  destruct (filter _ (orders db)) as [|row rows].
  - exists []. simpl. rewrite app_nil_r. repeat split. constructor.
  - assert (Hb : booked (routes db) [] db).
    { repeat split; [now rewrite app_nil_r|constructor|intros r _ []]. }
    pose proof (assign_groups_booked (routes db)
                  (_group_orders_by_landmark_and_date (row :: rows)) 0 [] [] db
                  Hb eq_refl) as H.
    destruct (assign_groups _ 0 [] db) as [[count details] db'|e db'].
    + destruct H as (new & (Ht & Hnd & Hst) & Hids). exists new. simpl. auto.
    + destruct H as (new & Ht & Hnd). exists new. simpl. auto.
Qed.

(** ** Delivery outcomes *)

Lemma get_put_row {A : Type} (pk : A -> nat) (x r : A) (t : list A) (k : nat) :
  get_row pk k t = Some r -> pk x = k -> get_row pk k (put_row pk x t) = Some x.
Proof.
  intros Hget Hpk. subst k. unfold get_row, put_row in *.
  induction t as [|row t IH]; [discriminate|].
  simpl in *. destruct (pk row =? pk x) eqn:E.
  - now rewrite Nat.eqb_refl.
  - rewrite E. auto.
Qed.

Lemma send_delivery_success_sms_frame (order : Order) (t : nat) (db : DB) :
  delivered_at order = Some t ->
  exists b db',
    send_delivery_success_sms order db = Return b db'
    /\ riders db' = riders db /\ orders db' = orders db /\ routes db' = routes db.
Proof.
  intros Ht. unfold send_delivery_success_sms, bind. rewrite Ht. unfold ret at 1.
  match goal with
  | |- context [_send_sms ?p ?m ?o ?ty db] =>
      destruct (send_sms_returns p m o ty db) as (b1 & db1 & -> & Hr1 & Ht1 & Ho1)
  end.
  match goal with
  | |- context [_send_sms ?p ?m ?o ?ty db1] =>
      destruct (send_sms_returns p m o ty db1) as (b2 & db2 & -> & Hr2 & Ht2 & Ho2)
  end.
  eexists _, _. split; [reflexivity|].
  rewrite Hr2, Hr1, Ht2, Ht1, Ho2, Ho1 by discriminate. auto.
Qed.

Lemma send_delivery_failed_sms_frame (order : Order) (db : DB) :
  exists b db',
    send_delivery_failed_sms order db = Return b db'
    /\ riders db' = riders db /\ orders db' = orders db /\ routes db' = routes db.
Proof.
  unfold send_delivery_failed_sms.
  match goal with
  | |- context [_send_sms ?p ?m ?o ?ty db] =>
      destruct (send_sms_returns p m o ty db) as (b1 & db1 & -> & Hr1 & Ht1 & Ho1)
  end.
  eexists _, _. split; [reflexivity|]. rewrite Ho1 by discriminate. auto.
Qed.

(** What a report of DELIVERED, or of FAILED, writes, for an order whose
    rider is a row of the riders table. *)
Lemma post_delivered (data : StatusUpdate) (pk : nat) (db : DB)
      (order : Order) (k : nat) (rider : Rider) (v : ValidatedData) :
  get_row order_pk pk (orders db) = Some order ->
  assigned_rider order = Some k ->
  get_row rider_pk k (riders db) = Some rider ->
  is_valid data = Some v ->
  validated_status v = DELIVERED ->
  exists message db',
    OrderUpdateStatusView_post data pk db
    = Return (HTTP_200_OK message
                (set_delivered now (validated_delivery_proof v)
                               (set_status DELIVERED order)))
             db'
    /\ riders db'
       = put_row rider_pk
           (set_counters (total_deliveries rider + 1) (successful_deliveries rider + 1)
                         (failed_deliveries rider) rider)
           (riders db)
    /\ orders db'
       = put_row order_pk
           (set_delivered now (validated_delivery_proof v) (set_status DELIVERED order))
           (orders db)
    /\ routes db' = routes db.
Proof.
  intros Horder Hk Hrider Hv Hst.
  unfold OrderUpdateStatusView_post. unfold bind at 1, query.
  rewrite Horder, Hv, Hst. cbn [assigned_rider set_status set_delivered].
  rewrite Hk. unfold bind at 1. unfold bind at 1. unfold bind at 1.
  unfold load_rider. unfold bind at 1, query. rewrite Hrider.
  unfold ret at 1, save_rider, update. unfold bind at 1.
  match goal with
  | |- context [send_delivery_success_sms ?o ?d] =>
      destruct (send_delivery_success_sms_frame o now d eq_refl)
        as (b & db1 & -> & Hr1 & Ho1 & Ht1)
  end.
  unfold ret at 1, bind, save_order, update, ret.
  eexists _, _. split; [reflexivity|]. simpl. rewrite Hr1, Ho1, Ht1. repeat split.
Qed.

Lemma post_failed (data : StatusUpdate) (pk : nat) (db : DB)
      (order : Order) (k : nat) (rider : Rider) (v : ValidatedData) :
  get_row order_pk pk (orders db) = Some order ->
  assigned_rider order = Some k ->
  get_row rider_pk k (riders db) = Some rider ->
  is_valid data = Some v ->
  validated_status v = FAILED ->
  exists message db',
    OrderUpdateStatusView_post data pk db
    = Return (HTTP_200_OK message
                (set_failure_reason (validated_failure_reason v)
                                    (set_status FAILED order)))
             db'
    /\ riders db'
       = put_row rider_pk
           (set_counters (total_deliveries rider + 1) (successful_deliveries rider)
                         (failed_deliveries rider + 1) rider)
           (riders db)
    /\ orders db'
       = put_row order_pk
           (set_failure_reason (validated_failure_reason v) (set_status FAILED order))
           (orders db)
    /\ routes db' = routes db.
Proof.
  intros Horder Hk Hrider Hv Hst.
  unfold OrderUpdateStatusView_post. unfold bind at 1, query.
  rewrite Horder, Hv, Hst. cbn [assigned_rider set_status set_failure_reason].
  rewrite Hk. unfold bind at 1. unfold bind at 1. unfold bind at 1.
  unfold load_rider. unfold bind at 1, query. rewrite Hrider.
  unfold ret at 1, save_rider, update. unfold bind at 1.
  match goal with
  | |- context [send_delivery_failed_sms ?o ?d] =>
      destruct (send_delivery_failed_sms_frame o d) as (b & db1 & -> & Hr1 & Ho1 & Ht1)
  end.
  unfold ret at 1, bind, save_order, update, ret.
  eexists _, _. split; [reflexivity|]. simpl. rewrite Hr1, Ho1, Ht1. repeat split.
Qed.

(** C9: when an order that has an assigned rider, whose counters are
    below the largest number their columns hold, is reported DELIVERED by a
    request the serializer accepts, the rider's [total_deliveries] and
    [successful_deliveries] are each one more than before and
    [failed_deliveries] is as before; when it is reported FAILED,
    [total_deliveries] and [failed_deliveries] are each one more and
    [successful_deliveries] is as before; nothing else of the rider
    changes. *)
Theorem delivery_outcome_updates_counters (data : StatusUpdate) (pk : nat) (db : DB)
        (order : Order) (k : nat) (rider : Rider) (v : ValidatedData) :
  get_row order_pk pk (orders db) = Some order ->
  assigned_rider order = Some k ->
  get_row rider_pk k (riders db) = Some rider ->
  can_count rider ->
  is_valid data = Some v ->
  (validated_status v = DELIVERED ->
   exists message order' rider' db',
     OrderUpdateStatusView_post data pk db = Return (HTTP_200_OK message order') db'
     /\ status order' = DELIVERED
     /\ get_row rider_pk k (riders db') = Some rider'
     /\ total_deliveries rider' = (total_deliveries rider + 1)%Z
     /\ successful_deliveries rider' = (successful_deliveries rider + 1)%Z
     /\ failed_deliveries rider' = failed_deliveries rider
     /\ same_but_counters rider rider')
  /\ (validated_status v = FAILED ->
      exists message order' rider' db',
        OrderUpdateStatusView_post data pk db = Return (HTTP_200_OK message order') db'
        /\ status order' = FAILED
        /\ get_row rider_pk k (riders db') = Some rider'
        /\ total_deliveries rider' = (total_deliveries rider + 1)%Z
        /\ successful_deliveries rider' = successful_deliveries rider
        /\ failed_deliveries rider' = (failed_deliveries rider + 1)%Z
        /\ same_but_counters rider rider').
Proof.
  intros Horder Hk Hrider _ Hv.
  pose proof (get_row_some _ _ _ _ Hrider) as [_ Hpk].
  split; intros Hst.
  - destruct (post_delivered data pk db order k rider v Horder Hk Hrider Hv Hst)
      as (message & db' & Hrun & Hr & _).
    eexists message, _, _, db'. split; [exact Hrun|]. split; [reflexivity|].
    split; [rewrite Hr; now apply (get_put_row rider_pk _ rider)|].
    repeat split.
  - destruct (post_failed data pk db order k rider v Horder Hk Hrider Hv Hst)
      as (message & db' & Hrun & Hr & _).
    eexists message, _, _, db'. split; [exact Hrun|]. split; [reflexivity|].
    split; [rewrite Hr; now apply (get_put_row rider_pk _ rider)|].
    repeat split.
Qed.

(** ** Manual assignment *)

Lemma manual_assign_cases (request : ManualAssign) (pk : nat) (db : DB) :
  match ManualAssignOrderView_post request pk db with
  | Return (HTTP_200_OK _ order') db' =>
      riders db' = riders db
      /\ exists order rider route,
           get_row order_pk pk (orders db) = Some order
           /\ (exists k, rider_id request = Some k
                         /\ get_row rider_pk k (riders db) = Some rider)
           /\ order' = set_assignment (rider_pk rider) ASSIGNED order
           /\ orders db' = put_row order_pk order' (orders db)
           /\ routes db' = (routes db ++ [route])%list
           /\ sequence route = 1%Z
           /\ route_orders route = [order_pk order]
           /\ route_rider route = rider_pk rider
  | Return _ db' => db' = db
  | Raised _ db' => riders db' = riders db
  end.
Proof.
  unfold ManualAssignOrderView_post.
  destruct (is_staff request); [|reflexivity]. cbn [negb].
  unfold bind at 1, query.
  destruct (get_row order_pk pk (orders db)) as [order|] eqn:Horder; [|reflexivity].
  destruct (rider_id request) as [[|k]|] eqn:Hid; try reflexivity.
  unfold bind at 1.
  destruct (get_row rider_pk (S k) (riders db)) as [rider|] eqn:Hrider; [|reflexivity].
  unfold bind at 1, save_order, update. unfold bind at 1, create_route.
  cbn [landmark set_assignment].
  destruct (landmark order) as [l|]; [|reflexivity].
  unfold bind at 1, query. unfold bind at 1, update. unfold ret at 1.
  unfold bind at 1, save_route, update. unfold bind at 1.
  match goal with
  | |- context [send_rider_assignment_sms ?r ?os ?d] =>
      pose proof (send_rider_assignment_sms_cases r os d) as Hs;
      destruct (send_rider_assignment_sms r os d) as [b db3|e db3]
  end.
  - destruct Hs as (Hr & Ht & Ho). unfold ret.
    split; [exact Hr|].
    eexists order, rider, _. split; [reflexivity|]. split; [eauto|].
    split; [reflexivity|]. split; [exact Ho|]. split.
    { rewrite Ht. cbn [routes with_routes with_orders].
      apply put_row_last; [reflexivity|].
      intros row Hrow. cbn [route_pk].
      pose proof (next_pk_fresh route_pk _ _ Hrow). lia. }
    repeat split.
  - subst db3. reflexivity.
Qed.

(** C10: manual assignment never writes to the riders table: the chosen
    rider keeps status and counters, so the pool of AVAILABLE riders that a
    later automatic pass queries is the same as before; a successful manual
    assignment saves the order as ASSIGNED to the rider and appends one
    route, with sequence 1, that holds this order alone. *)
Theorem manual_assignment_leaves_rider (request : ManualAssign) (pk : nat) (db : DB) :
  riders (final_db (ManualAssignOrderView_post request pk db)) = riders db
  /\ available_riders (final_db (ManualAssignOrderView_post request pk db))
     = available_riders db
  /\ match ManualAssignOrderView_post request pk db with
     | Return (HTTP_200_OK _ order') db' =>
         exists order rider route,
           get_row order_pk pk (orders db) = Some order
           /\ (exists k, rider_id request = Some k
                         /\ get_row rider_pk k (riders db) = Some rider)
           /\ get_row rider_pk (rider_pk rider) (riders db') = Some rider
           /\ order' = set_assignment (rider_pk rider) ASSIGNED order
           /\ orders db' = put_row order_pk order' (orders db)
           /\ routes db' = (routes db ++ [route])%list
           /\ sequence route = 1%Z
           /\ route_orders route = [order_pk order]
           /\ route_rider route = rider_pk rider
     | _ => True
     end.
Proof.
  pose proof (manual_assign_cases request pk db) as H.
  assert (Hr : riders (final_db (ManualAssignOrderView_post request pk db)) = riders db).
  { destruct (ManualAssignOrderView_post request pk db) as [[m o|m|m|] db'|e db'];
      simpl; try (now subst); tauto. }
  split; [exact Hr|]. split; [unfold available_riders; now rewrite Hr|].
  destruct (ManualAssignOrderView_post request pk db) as [[m o|m|m|] db'|e db'];
    try exact I.
  destruct H as (Hr' & order & rider & route & Ho & (k & Hid & Hk) & Hrest).
  exists order, rider, route. split; [exact Ho|]. split; [eauto|].
  split; [|exact Hrest].
  rewrite Hr'. apply get_row_some in Hk as Hk'. destruct Hk' as [_ ->]. exact Hk.
Qed.

(** ** Cohorts without landmark *)

Lemma failed_cohort_changes_nothing (landmark : option Landmark) (date : nat)
      (os : list Order) (db db' : DB) (nm reason : string) (n : nat) :
  _assign_group_to_rider landmark date os db = Return (GroupFailure nm reason n) db' ->
  db' = db.
Proof.
  intros H. pose proof (assign_group_cases landmark date os db) as Hc.
  now rewrite H in Hc.
Qed.

Lemma no_riders_failure_entry (l : Landmark) (date : nat) (os : list Order) (db : DB) :
  available_riders db = [] ->
  _assign_group_to_rider (Some l) date os db
  = Return (GroupFailure (name l) "No available riders" (List.length os)) db.
Proof.
  intros H. unfold _assign_group_to_rider, bind, query. now rewrite H.
Qed.

Lemma no_riders_no_landmark_raises (date : nat) (os : list Order) (db : DB) :
  available_riders db = [] ->
  _assign_group_to_rider None date os db = Raised AttributeError db.
Proof.
  intros H. unfold _assign_group_to_rider, bind, query. now rewrite H.
Qed.

(** ** Cohorts with a landmark

    When every order has a landmark, no cohort raises, and the pass returns
    its report. *)

Lemma send_rider_assignment_sms_returns (rider : Rider) (o : Order)
      (os : list Order) (db : DB) :
  landmark o <> None ->
  exists b db', send_rider_assignment_sms rider (o :: os) db = Return b db'.
Proof.
  intros Hl. unfold send_rider_assignment_sms, bind, attr_name.
  destruct (landmark o) as [l|]; [|congruence].
  unfold ret at 1. unfold py_min. cbn [map]. unfold ret at 1.
  match goal with
  | |- context [_send_sms ?p ?m ?x ?t db] =>
      destruct (send_sms_returns p m x t db) as (b & db' & -> & _)
  end.
  eauto.
Qed.

Lemma assign_group_returns (l : Landmark) (date : nat) (o : Order)
      (os : list Order) (db : DB) :
  landmark o <> None ->
  exists res db', _assign_group_to_rider (Some l) date (o :: os) db = Return res db'.
Proof.
  intros Hl. unfold _assign_group_to_rider. unfold bind at 1, query.
  destruct (available_riders db) as [|r0 rs]; [eexists _, _; reflexivity|].
  destruct (find_best_rider_returns (Some l) o os r0 rs db) as (best & Hbest & _).
  unfold bind at 1. rewrite Hbest.
  destruct (assign_orders_returns best (o :: os) db) as (db1 & Ha & _).
  unfold bind at 1. rewrite Ha. cbn [map].
  destruct (create_delivery_route_returns best l date
              (set_assignment (rider_pk best) ASSIGNED o)
              (map (set_assignment (rider_pk best) ASSIGNED) os) db1)
    as (route & db2 & Hc).
  unfold bind at 1. rewrite Hc.
  destruct (send_rider_assignment_sms_returns best
              (set_assignment (rider_pk best) ASSIGNED o)
              (map (set_assignment (rider_pk best) ASSIGNED) os) db2 Hl)
    as (b & db3 & Hs).
  unfold bind at 1. rewrite Hs.
  eexists _, _. reflexivity.
Qed.

Lemma group_add_landmarked (order : Order)
      (grouped : list ((option Landmark * nat) * list Order)) :
  landmark order <> None ->
  Forall landmarked grouped ->
  Forall landmarked (group_add (landmark order, delivery_date order) order grouped).
Proof.
  intros Hl. induction 1 as [|[k members] rest Hg Hrest IH]; simpl.
  - repeat constructor; simpl; eauto.
  - destruct (key_eqb k (landmark order, delivery_date order)).
    + constructor; [|exact Hrest].
      destruct Hg as (Hk & o & os & Hm & Ho). simpl in Hm. subst members.
      split; [exact Hk|]. exists o, (os ++ [order])%list. now split.
    + constructor; assumption.
Qed.

Lemma grouping_landmarked (rows : list Order) :
  (forall o, In o rows -> landmark o <> None) ->
  Forall landmarked (_group_orders_by_landmark_and_date rows).
Proof.
  unfold _group_orders_by_landmark_and_date.
  assert (H : forall grouped, Forall landmarked grouped ->
              (forall o, In o rows -> landmark o <> None) ->
              Forall landmarked
                (fold_left (fun grouped order =>
                              group_add (landmark order, delivery_date order) order grouped)
                           rows grouped)).
  { induction rows as [|o rows IH]; intros grouped Hg Hrows; simpl; [exact Hg|].
    apply IH.
    - apply group_add_landmarked; [|exact Hg]. apply Hrows. now left.
    - intros x Hx. apply Hrows. now right. }
  apply H. constructor.
Qed.

Lemma assign_groups_returns (grouped : list ((option Landmark * nat) * list Order)) :
  Forall landmarked grouped ->
  forall count results db,
    exists r db', assign_groups grouped count results db = Return r db'.
Proof.
  induction 1 as [|[[lm date] members] rest Hg Hrest IH]; intros count results db.
  - eexists _, _. reflexivity.
  - destruct Hg as (Hk & o & os & Hm & Ho). simpl in Hk, Hm. subst members.
    destruct lm as [l|]; [|congruence].
    simpl assign_groups. unfold bind.
    destruct (assign_group_returns l date o os db Ho) as (res & db1 & ->).
    apply IH.
Qed.

Lemma assign_returns_with_landmarks (orders_queryset : option (Order -> bool)) (db : DB) :
  (forall o, In o (orders db) -> landmark o <> None) ->
  exists report db', assign_orders_to_riders orders_queryset db = Return report db'.
Proof.
  intros Hl. unfold assign_orders_to_riders, bind, query.
  destruct (filter _ (orders db)) as [|row rows] eqn:Hrows.
  - eexists _, _. reflexivity.
  - destruct (assign_groups_returns
                (_group_orders_by_landmark_and_date (row :: rows))) with
      (count := 0) (results := @nil GroupResult) (db := db)
      as ([count details] & db' & ->).
    + apply grouping_landmarked. intros o Ho. apply Hl.
      rewrite <- Hrows in Ho. apply filter_In in Ho. tauto.
    + eexists _, _. reflexivity.
Qed.

(** C4: a cohort whose orders have no landmark and for which no rider is
    AVAILABLE makes [assign_orders_to_riders] raise: building the failure
    entry reads [landmark.name].  No failure entry is recorded, the cohorts
    behind it are not processed, and no report is returned. *)
Theorem orphan_cohort_raises :
  filter confirmed_unassigned (orders orphan_db) = orders orphan_db
  /\ available_riders orphan_db = []
  /\ _group_orders_by_landmark_and_date (orders orphan_db)
     = [((None, 20), [orphan_order]);
        ((Some westgate, 20), [example_order 2 (Some westgate) 600 CONFIRMED None])]
  /\ assign_orders_to_riders None orphan_db = Raised AttributeError orphan_db.
Proof. repeat split; reflexivity. Qed.

(** * Further properties of the engine *)

(** ** The grouping stage *)

Lemma key_eqb_refl (k : option Landmark * nat) : key_eqb k k = true.
Proof.
  destruct k as [[l|] d]; unfold key_eqb; simpl; now rewrite !Nat.eqb_refl.
Qed.

Lemma key_eqb_sym (a b : option Landmark * nat) : key_eqb a b = key_eqb b a.
Proof.
  destruct a as [[la|] da], b as [[lb|] db]; unfold key_eqb; simpl;
    rewrite ?(Nat.eqb_sym da db), ?(Nat.eqb_sym (landmark_pk la) (landmark_pk lb));
    reflexivity.
Qed.

Lemma key_eqb_trans (a b c : option Landmark * nat) :
  key_eqb a b = true -> key_eqb b c = true -> key_eqb a c = true.
Proof.
  destruct a as [[la|] da], b as [[lb|] db], c as [[lc|] dc];
    unfold key_eqb; simpl; rewrite ?andb_true_iff, ?Nat.eqb_eq;
    intuition (try discriminate; try congruence).
Qed.

Lemma key_eqb_false_l (a b c : option Landmark * nat) :
  key_eqb a b = true -> key_eqb a c = false -> key_eqb b c = false.
Proof.
  intros Hab Hac. destruct (key_eqb b c) eqn:E; [|reflexivity].
  rewrite (key_eqb_trans a b c Hab E) in Hac. discriminate.
Qed.

(** [group_add] either extends the first group under an equal key, or
    opens a group behind all others. *)
Lemma group_add_cases (key : option Landmark * nat) (o : Order)
      (grouped : list ((option Landmark * nat) * list Order)) :
  ((forall g, In g grouped -> key_eqb (fst g) key = false)
   /\ group_add key o grouped = (grouped ++ [(key, [o])])%list)
  \/ (exists g1 k ms g2,
         grouped = (g1 ++ (k, ms) :: g2)%list
         /\ (forall g, In g g1 -> key_eqb (fst g) key = false)
         /\ key_eqb k key = true
         /\ group_add key o grouped = (g1 ++ (k, (ms ++ [o])%list) :: g2)%list).
Proof.
  induction grouped as [|[k ms] rest IH]; simpl.
  - left. split; [intros g []|reflexivity].
  - destruct (key_eqb k key) eqn:E.
    + right. exists [], k, ms, rest. repeat split; auto. intros g [].
    + destruct IH as [[Hno Heq]|(g1 & k' & ms' & g2 & Hrest & Hno & Hk & Heq)].
      * left. split; [|now rewrite Heq].
        intros g [<-|Hg]; auto.
      * right. exists ((k, ms) :: g1), k', ms', g2. repeat split.
        -- now rewrite Hrest.
        -- intros g [<-|Hg]; auto.
        -- exact Hk.
        -- now rewrite Heq.
Qed.

Lemma ForallOrdPairs_snoc {A : Type} (R : A -> A -> Prop) (l : list A) (a : A) :
  ForallOrdPairs R l -> (forall x, In x l -> R x a) -> ForallOrdPairs R (l ++ [a])%list.
Proof.
  induction 1 as [|x l Hx Hl IH]; intros Ha; simpl.
  - repeat constructor.
  - constructor.
    + apply Forall_app. split; [exact Hx|]. constructor; [|constructor].
      apply Ha. now left.
    + apply IH. intros y Hy. apply Ha. now right.
Qed.

Lemma ForallOrdPairs_middle {A : Type} (R : A -> A -> Prop) (l1 l2 : list A) (a b : A) :
  ForallOrdPairs R (l1 ++ a :: l2)%list -> In b l2 -> R a b.
Proof.
  induction l1 as [|x l1 IH]; simpl; intros H Hb.
  - inversion H as [|? ? Ha _]; subst. rewrite Forall_forall in Ha. auto.
  - inversion H; subst. auto.
Qed.

Lemma ForallOrdPairs_before {A : Type} (R : A -> A -> Prop) (l1 l2 : list A) (a b : A) :
  ForallOrdPairs R (l1 ++ a :: l2)%list -> In b l1 -> R b a.
Proof.
  induction l1 as [|x l1 IH]; simpl; intros H Hb; [destruct Hb|].
  inversion H as [|? ? Hx Hrest]; subst. destruct Hb as [<-|Hb].
  - rewrite Forall_forall in Hx. apply Hx. apply in_or_app. right. now left.
  - auto.
Qed.

Lemma filter_snoc {A : Type} (p : A -> bool) (l : list A) (a : A) :
  filter p (l ++ [a])%list = (filter p l ++ if p a then [a] else [])%list.
Proof. rewrite filter_app. reflexivity. Qed.

Lemma filter_none {A : Type} (p : A -> bool) (l : list A) :
  (forall x, In x l -> p x = false) -> filter p l = [].
Proof.
  induction l as [|x l IH]; intros H; simpl; [reflexivity|].
  rewrite H by now left. apply IH. intros y Hy. apply H. now right.
Qed.

(** What the grouping stage has built after the orders [processed]. *)
Lemma grouping_invariant (processed : list Order) :
  forall grouped,
    grouped = fold_left (fun grouped order => group_add (order_key order) order grouped)
                        processed [] ->
    (forall k ms, In (k, ms) grouped ->
                  ms <> [] /\ ms = filter (fun o => key_eqb k (order_key o)) processed)
    /\ (forall o, In o processed ->
                  exists k ms, In (k, ms) grouped /\ key_eqb k (order_key o) = true)
    /\ ForallOrdPairs (fun a b => key_eqb a b = false) (map fst grouped).
Proof.
  induction processed as [|o processed IH] using rev_ind; intros grouped ->.
  - simpl. repeat split; try (intros; contradiction). constructor.
  - rewrite fold_left_app. simpl.
    destruct (IH _ eq_refl) as (Hmem & Hcov & Hkeys).
    set (acc := fold_left _ processed []) in *.
    destruct (group_add_cases (order_key o) o acc)
      as [[Hno ->]|(g1 & k & ms & g2 & Hacc & Hno & Hk & ->)].
    + assert (Hfresh : filter (fun x => key_eqb (order_key o) (order_key x)) processed = []).
      { apply filter_none. intros x Hx. destruct (Hcov x Hx) as (k & ms & Hg & Hkx).
        specialize (Hno (k, ms) Hg). simpl in Hno.
        destruct (key_eqb (order_key o) (order_key x)) eqn:E; [|reflexivity].
        rewrite key_eqb_sym in E.
        rewrite (key_eqb_trans _ _ _ Hkx E) in Hno. discriminate. }
      split; [|split].
      * intros k ms Hin. apply in_app_or in Hin. destruct Hin as [Hin|[Hin|[]]].
        -- destruct (Hmem k ms Hin) as [Hne Hms]. split; [exact Hne|].
           pose proof (Hno (k, ms) Hin) as Hn. simpl in Hn.
           rewrite filter_snoc, Hn, app_nil_r. exact Hms.
        -- injection Hin as <- <-. split; [discriminate|].
           now rewrite filter_snoc, Hfresh, key_eqb_refl.
      * intros x Hx. apply in_app_or in Hx. destruct Hx as [Hx|[<-|[]]].
        -- destruct (Hcov x Hx) as (k & ms & Hg & Hkx).
           exists k, ms. split; [apply in_or_app; now left|exact Hkx].
        -- exists (order_key o), [o]. split; [apply in_or_app; right; now left|].
           apply key_eqb_refl.
      * rewrite map_app. simpl. apply ForallOrdPairs_snoc; [exact Hkeys|].
        intros x Hx. apply in_map_iff in Hx. destruct Hx as (g & <- & Hg). auto.
    + assert (Hother : forall k' ms', In (k', ms') g1 \/ In (k', ms') g2 ->
                                      key_eqb k' (order_key o) = false).
      { intros k' ms' [Hin|Hin].
        - apply (Hno (k', ms') Hin).
        - rewrite Hacc, map_app in Hkeys. simpl in Hkeys.
          assert (Hkk : key_eqb k k' = false).
          { apply (ForallOrdPairs_middle _ _ _ _ _ Hkeys).
            now apply (in_map fst _ (k', ms')). }
          destruct (key_eqb k' (order_key o)) eqn:E; [|reflexivity].
          rewrite key_eqb_sym in E.
          rewrite (key_eqb_trans _ _ _ Hk E) in Hkk. discriminate. }
      split; [|split].
      * intros k' ms' Hin. apply in_app_or in Hin. destruct Hin as [Hin|[Hin|Hin]].
        -- destruct (Hmem k' ms') as [Hne Hms]; [rewrite Hacc; apply in_or_app; now left|].
           split; [exact Hne|].
           rewrite filter_snoc, (Hother k' ms' (or_introl Hin)), app_nil_r. exact Hms.
        -- injection Hin as <- <-.
           destruct (Hmem k ms) as [Hne Hms];
             [rewrite Hacc; apply in_or_app; right; now left|].
           split; [now destruct ms|].
           now rewrite filter_snoc, Hk, <- Hms.
        -- destruct (Hmem k' ms') as [Hne Hms];
             [rewrite Hacc; apply in_or_app; right; now right|].
           split; [exact Hne|].
           rewrite filter_snoc, (Hother k' ms' (or_intror Hin)), app_nil_r. exact Hms.
      * intros x Hx. apply in_app_or in Hx. destruct Hx as [Hx|[<-|[]]].
        -- destruct (Hcov x Hx) as (k' & ms' & Hg & Hkx).
           rewrite Hacc in Hg. apply in_app_or in Hg. destruct Hg as [Hg|[Hg|Hg]].
           ++ exists k', ms'. split; [apply in_or_app; now left|exact Hkx].
           ++ injection Hg as <- <-. exists k, (ms ++ [o])%list.
              split; [apply in_or_app; right; now left|exact Hkx].
           ++ exists k', ms'. split; [apply in_or_app; right; now right|exact Hkx].
        -- exists k, (ms ++ [o])%list. split; [apply in_or_app; right; now left|exact Hk].
      * rewrite Hacc in Hkeys. rewrite map_app in Hkeys |- *. exact Hkeys.
Qed.

(** X1: the grouping stage partitions its input: the members of a group
    are exactly the orders whose landmark (by primary key, or none) and
    delivery date are the group's, in input order; no group is empty; every
    order is in a group; and no two groups have the same key. *)
Theorem grouping_is_a_partition (rows : list Order) :
  (forall k ms, In (k, ms) (_group_orders_by_landmark_and_date rows) ->
                ms <> [] /\ ms = filter (fun o => key_eqb k (order_key o)) rows)
  /\ (forall o, In o rows ->
                exists k ms, In (k, ms) (_group_orders_by_landmark_and_date rows)
                             /\ In o ms)
  /\ ForallOrdPairs (fun a b => key_eqb a b = false)
                    (map fst (_group_orders_by_landmark_and_date rows)).
Proof.
  destruct (grouping_invariant rows _ eq_refl) as (Hmem & Hcov & Hkeys).
  split; [exact Hmem|]. split; [|exact Hkeys].
  intros o Ho. destruct (Hcov o Ho) as (k & ms & Hg & Hk).
  exists k, ms. split; [exact Hg|].
  destruct (Hmem k ms Hg) as [_ ->]. apply filter_In. now split.
Qed.


(** ** A cohort, in full *)

Lemma put_row_pks {A : Type} (pk : A -> nat) (x : A) (t : list A) :
  map pk (put_row pk x t) = map pk t.
Proof.
  unfold put_row. rewrite map_map. apply map_ext. intros row.
  destruct (pk row =? pk x) eqn:E; [|reflexivity].
  apply Nat.eqb_eq in E. now symmetry.
Qed.

Lemma put_row_In {A : Type} (pk : A -> nat) (x row : A) (t : list A) :
  In row (put_row pk x t) -> In row t \/ row = x.
Proof.
  unfold put_row. intros H. apply in_map_iff in H. destruct H as (r & <- & Hr).
  destruct (pk r =? pk x); auto.
Qed.

Lemma put_row_keeps {A : Type} (pk : A -> nat) (x row : A) (t : list A) :
  In row t -> pk row <> pk x -> In row (put_row pk x t).
Proof.
  intros H Hpk. unfold put_row. apply in_map_iff. exists row. split; [|exact H].
  apply Nat.eqb_neq in Hpk. now rewrite Hpk.
Qed.

Lemma get_row_put_other {A : Type} (pk : A -> nat) (x : A) (t : list A) (k : nat) :
  pk x <> k -> get_row pk k (put_row pk x t) = get_row pk k t.
Proof.
  intros Hk. unfold get_row, put_row. induction t as [|row t IH]; [reflexivity|].
  simpl. destruct (pk row =? pk x) eqn:E.
  - apply Nat.eqb_eq in E. apply Nat.eqb_neq in Hk. rewrite Hk.
    rewrite E, Hk. exact IH.
  - destruct (pk row =? k); [reflexivity|exact IH].
Qed.

Lemma get_row_present {A : Type} (pk : A -> nat) (k : nat) (t : list A) :
  In k (map pk t) -> exists r, get_row pk k t = Some r.
Proof.
  intros H. apply in_map_iff in H. destruct H as (x & Hx & Hin).
  destruct (get_row pk k t) as [r|] eqn:E; [eauto|].
  unfold get_row in E. apply (find_none _ _ E) in Hin.
  rewrite Hx, Nat.eqb_refl in Hin. discriminate.
Qed.

Lemma assign_orders_table (best : Rider) (os : list Order) (db : DB) :
  exists db',
    for_each (assign_order best) os db
    = Return (map (set_assignment (rider_pk best) ASSIGNED) os) db'
    /\ riders db' = riders db /\ routes db' = routes db
    /\ sms_logs db' = sms_logs db
    /\ orders db' = saved_orders best os (orders db).
Proof.
  revert db. induction os as [|o os IH]; intros db; simpl.
  - now exists db.
  - unfold bind at 1. unfold assign_order at 1.
    unfold bind at 1, save_order, update, ret at 1.
    destruct (IH (with_orders (put_row order_pk (set_assignment (rider_pk best) ASSIGNED o)) db))
      as (db' & Hrun & Hr & Ht & Hs & Ho).
    unfold bind. rewrite Hrun. exists db'. repeat split; auto.
Qed.

Lemma find_best_rider_nonempty (r0 : Rider) (rs : list Rider)
      (landmark : option Landmark) (os : list Order) (db : DB) :
  match _find_best_rider (r0 :: rs) landmark os db with
  | Return (Some best) db' => db' = db /\ In best (r0 :: rs) /\ os <> []
  | Return None _ => False
  | Raised e db' => db' = db /\ os = [] /\ e = IndexError
  end.
Proof.
  destruct os as [|o os]; [repeat split|].
  destruct (find_best_rider_returns landmark o os r0 rs db) as (best & -> & Hin & _).
  repeat split; [exact Hin|discriminate].
Qed.

Lemma create_delivery_route_shape (rider : Rider) (landmark : option Landmark)
      (date : nat) (os : list Order) (db : DB) :
  match _create_delivery_route rider landmark date os db with
  | Return route db' =>
      route_orders route = map order_pk os
      /\ route_pk route = next_pk route_pk (routes db)
      /\ landmark = Some (route_landmark route)
      /\ exists t ts,
           map delivery_time_start os = t :: ts
           /\ estimated_arrival route = fold_left Nat.min ts t
  | Raised e db' =>
      (os = [] /\ e = ValueError) \/ (os <> [] /\ landmark = None /\ e = IntegrityError)
  end.
Proof.
  unfold _create_delivery_route, bind, query, py_min, create_route.
  destruct os as [|o os]; [now left|]. cbn [map].
  unfold ret. destruct landmark as [l|].
  - unfold bind, query, update, save_route, update, ret. simpl. eauto 10.
  - right. repeat split. discriminate.
Qed.

Lemma next_sequence_spec_routes (rider : Rider) (date : nat) (db1 db2 : DB) :
  routes db1 = routes db2 ->
  next_sequence_spec rider date db1 = next_sequence_spec rider date db2.
Proof. intros H. unfold next_sequence_spec. now rewrite H. Qed.

(** Everything a cohort leaves behind, by outcome. *)
Lemma assign_group_effect (landmark : option Landmark) (date : nat)
      (os : list Order) (db : DB) :
  match _assign_group_to_rider landmark date os db with
  | Return (GroupFailure nm reason n) db' =>
      db' = db /\ n = List.length os /\ available_riders db = []
      /\ reason = "No available riders"
      /\ exists l, landmark = Some l /\ nm = name l
  | Return (GroupSuccess nm rn n rid) db' =>
      exists best route,
        In best (available_riders db)
        /\ n = List.length os /\ rn = full_name best
        /\ landmark = Some (route_landmark route)
        /\ nm = name (route_landmark route)
        /\ orders db' = saved_orders best os (orders db)
        /\ routes db' = (routes db ++ [route])%list
        /\ route_pk route = rid
        /\ rid = next_pk route_pk (routes db)
        /\ route_rider route = rider_pk best
        /\ route_date route = date
        /\ route_orders route = map order_pk os
        /\ sequence route = next_sequence_spec best date db
        /\ completed route = false
        /\ (exists t ts,
              map delivery_time_start os = t :: ts
              /\ estimated_arrival route = fold_left Nat.min ts t)
        /\ riders db'
           = put_row rider_pk (set_rider_status ON_DELIVERY best) (riders db)
  | Raised e db' =>
      riders db' = riders db
      /\ (orders db' = orders db
          \/ exists best,
               In best (available_riders db)
               /\ orders db' = saved_orders best os (orders db))
  end.
Proof.
  unfold _assign_group_to_rider. unfold bind at 1, query.
  destruct (available_riders db) as [|r0 rs] eqn:Hav.
  { unfold bind, attr_name. destruct landmark; simpl; eauto 10. }
  unfold bind at 1.
  pose proof (find_best_rider_nonempty r0 rs landmark os db) as Hf.
  destruct (_find_best_rider (r0 :: rs) landmark os db) as [[best|] db0|e db0].
  2: { destruct Hf. }
  2: { destruct Hf as (-> & _). auto. }
  destruct Hf as (-> & Hbest & Hne).
  unfold bind at 1.
  destruct (assign_orders_table best os db) as (db1 & -> & Hr1 & Ht1 & _ & Ho1).
  unfold bind at 1.
  pose proof (create_delivery_route_cases best landmark date
                (map (set_assignment (rider_pk best) ASSIGNED) os) db1) as Hc.
  pose proof (create_delivery_route_shape best landmark date
                (map (set_assignment (rider_pk best) ASSIGNED) os) db1) as Hsh.
  destruct (_create_delivery_route best landmark date _ db1) as [route db2|e db2].
  2: { subst db2. split; [exact Hr1|]. right. exists best. split; [exact Hbest|exact Ho1]. }
  destruct Hc as (Hr2 & Ho2 & _ & Ht2 & Hrider & Hdate & Hseq & Hcompl & Hlm).
  destruct Hsh as (Hro & Hpk & _ & t & ts & Htimes & Heta).
  unfold bind at 1.
  pose proof (send_rider_assignment_sms_cases best
                (map (set_assignment (rider_pk best) ASSIGNED) os) db2) as Hs.
  destruct (send_rider_assignment_sms best _ db2) as [b db3|e db3].
  2: { subst db3. split; [congruence|]. right. exists best.
       split; [exact Hbest|congruence]. }
  destruct Hs as (Hr3 & Ht3 & Ho3).
  unfold bind at 1, save_rider, update. unfold bind, attr_name.
  rewrite Hlm. simpl.
  exists best, route.
  rewrite map_map in Hro, Htimes. simpl in Hro, Htimes.
  repeat split; try (exact Hbest || congruence).
  - now rewrite length_map.
  - exact Hro.
  - rewrite Hseq. now apply next_sequence_spec_routes.
  - exists t, ts. split; assumption.
Qed.


(** ** A pass, in full *)

Lemma saved_orders_In (best : Rider) (os t : list Order) (o' : Order) :
  In o' (saved_orders best os t) ->
  In o' t \/ exists o, In o os /\ o' = set_assignment (rider_pk best) ASSIGNED o.
Proof.
  unfold saved_orders. revert t. induction os as [|o os IH]; intros t H; simpl in H.
  - now left.
  - apply IH in H. destruct H as [H|(x & Hx & ->)].
    + apply put_row_In in H. destruct H as [H| ->]; [now left|].
      right. exists o. split; [now left|reflexivity].
    + right. exists x. split; [now right|reflexivity].
Qed.

Lemma saved_orders_pks (best : Rider) (os t : list Order) :
  map order_pk (saved_orders best os t) = map order_pk t.
Proof.
  unfold saved_orders. revert t. induction os as [|o os IH]; intros t; simpl.
  - reflexivity.
  - rewrite IH. apply put_row_pks.
Qed.

Lemma saved_orders_keeps (best : Rider) (os t : list Order) (o : Order) :
  In o t -> (forall x, In x os -> order_pk x <> order_pk o) ->
  In o (saved_orders best os t).
Proof.
  unfold saved_orders. revert t. induction os as [|x os IH]; intros t Hin Hpk; simpl.
  - exact Hin.
  - apply IH.
    + apply put_row_keeps; [exact Hin|]. simpl.
      intros E. apply (Hpk x); [now left|now symmetry].
    + intros y Hy. apply Hpk. now right.
Qed.

Lemma pool_size_flip (best : Rider) (t : list Rider) :
  pool_size (put_row rider_pk (set_rider_status ON_DELIVERY best) t) <= pool_size t
  /\ (In best t -> rider_status best = AVAILABLE ->
      S (pool_size (put_row rider_pk (set_rider_status ON_DELIVERY best) t))
      <= pool_size t).
Proof.
  unfold pool_size, put_row. induction t as [|row t [IH1 IH2]]; simpl in *.
  - split; [lia|intros []].
  - destruct (rider_pk row =? rider_pk best) eqn:E; simpl.
    + split.
      * destruct (is_available row); simpl; lia.
      * intros [->|Hin] Ha.
        -- assert (His : is_available best = true)
             by (unfold is_available; now rewrite Ha).
           rewrite His. simpl. lia.
        -- specialize (IH2 Hin Ha). destruct (is_available row); simpl; lia.
    + split.
      * destruct (is_available row); simpl; lia.
      * intros [->|Hin] Ha; [now rewrite Nat.eqb_refl in E|].
        specialize (IH2 Hin Ha). destruct (is_available row); simpl; lia.
Qed.

(** A cohort of orders of [rows] keeps what a pass keeps; a success takes
    one rider out of the pool. *)
Lemma assign_group_keeps (db0 : DB) (rows : list Order) (landmark : option Landmark)
      (date : nat) (os : list Order) (db : DB) :
  pass_keeps db0 rows db ->
  (forall o, In o os -> In o rows) ->
  pass_keeps db0 rows (final_db (_assign_group_to_rider landmark date os db))
  /\ match _assign_group_to_rider landmark date os db with
     | Return res db' =>
         order_count_of res = List.length os
         /\ (if success res then 1 else 0) + pool_size (riders db')
            <= pool_size (riders db)
     | Raised _ _ => True
     end.
Proof.
  intros (Ha & Hpks & Hkeep & Hb & Hpool) Hsub.
  pose proof (assign_group_effect landmark date os db) as He.
  assert (Horders : forall best,
             pass_keeps db0 rows
               (mkDB (riders db) (saved_orders best os (orders db)) (routes db)
                     (sms_logs db))).
  { intros best. repeat split; simpl; auto.
    - intros o' Ho'. apply saved_orders_In in Ho'.
      destruct Ho' as [Ho'|(o & Ho & ->)]; [auto|].
      right. exists o, best. split; [auto|reflexivity].
    - now rewrite saved_orders_pks.
    - intros o Ho Hx. apply saved_orders_keeps; [auto|].
      intros x Hxin. apply Hx. auto. }
  destruct (_assign_group_to_rider landmark date os db)
    as [[nm reason n|nm rn n rid] db'|e db']; simpl.
  - destruct He as (-> & -> & _). repeat split; auto.
  - destruct He as (best & route & Hbest & -> & _ & _ & _ & Ho & _ & _ & _ & _ & _ & _
                    & _ & _ & _ & Hr).
    apply available_riders_In in Hbest. destruct Hbest as [Hin Hav].
    destruct (pool_size_flip best (riders db)) as [Hle Hlt].
    specialize (Hlt Hin Hav).
    destruct (Horders best) as (Ha' & Hpks' & Hkeep' & _). simpl in Ha', Hpks', Hkeep'.
    split; [|split; [reflexivity|rewrite Hr; simpl; lia]].
    repeat split.
    + intros o' Ho'. rewrite Ho in Ho'. auto.
    + now rewrite Ho.
    + intros o Hoin Hx. rewrite Ho. auto.
    + intros r Hrin. rewrite Hr in Hrin. apply put_row_In in Hrin.
      destruct Hrin as [Hrin| ->]; [auto|].
      destruct (Hb best Hin) as [H0|(r0 & _ & _ & ->)].
      * right. exists best. auto.
      * simpl in Hav. discriminate.
    + rewrite Hr. lia.
  - destruct He as (Hr & [Ho|(best & _ & Ho)]).
    + split; [|exact I]. repeat split.
      * intros o' Ho'. rewrite Ho in Ho'. auto.
      * now rewrite Ho.
      * intros o Hoin Hx. rewrite Ho. auto.
      * intros r Hrin. rewrite Hr in Hrin. auto.
      * now rewrite Hr.
    + destruct (Horders best) as (Ha' & Hpks' & Hkeep' & _). simpl in Ha', Hpks', Hkeep'.
      split; [|exact I]. repeat split.
      * intros o' Ho'. rewrite Ho in Ho'. auto.
      * now rewrite Ho.
      * intros o Hoin Hx. rewrite Ho. auto.
      * intros r Hrin. rewrite Hr in Hrin. auto.
      * now rewrite Hr.
Qed.

Lemma assign_groups_keeps (db0 : DB) (rows : list Order)
      (grouped : list ((option Landmark * nat) * list Order)) :
  forall (count : nat) (results : list GroupResult) (db : DB),
    pass_keeps db0 rows db ->
    (forall k ms o, In (k, ms) grouped -> In o ms -> In o rows) ->
    match assign_groups grouped count results db with
    | Return (count', results') db' =>
        pass_keeps db0 rows db'
        /\ exists more,
             results' = (results ++ more)%list
             /\ map order_count_of more = map (fun g => List.length (snd g)) grouped
             /\ count' = count + list_sum (map order_count_of (filter success more))
             /\ List.length (filter success more) + pool_size (riders db')
                <= pool_size (riders db)
    | Raised _ db' => pass_keeps db0 rows db'
    end.
Proof.
  induction grouped as [|[[landmark date] os] grouped IH];
    intros count results db Hk Hsub.
  - simpl. split; [exact Hk|]. exists []. rewrite app_nil_r. simpl.
    repeat split; lia.
  - simpl assign_groups. unfold bind.
    destruct (assign_group_keeps db0 rows landmark date os db Hk) as [Hk' Hres].
    { intros o Ho. apply (Hsub (landmark, date) os); [now left|exact Ho]. }
    destruct (_assign_group_to_rider landmark date os db) as [res db1|e db1];
      [|exact Hk'].
    simpl in Hk'. destruct Hres as [Hcount Hpool].
    specialize (IH (if success res then count + List.length os else count)
                   (results ++ [res])%list db1 Hk').
    destruct (assign_groups grouped _ _ db1) as [[count' results'] db'|e db'].
    + destruct IH as (Hk'' & more & -> & Hmap & -> & Hpool').
      { intros k ms o Hg. apply (Hsub k ms o). now right. }
      split; [exact Hk''|]. exists (res :: more). repeat split.
      * now rewrite <- app_assoc.
      * simpl. now rewrite Hcount, Hmap.
      * simpl. destruct (success res); simpl; lia.
      * simpl. destruct (success res); simpl in *; lia.
    + apply IH. intros k ms o Hg. apply (Hsub k ms o). now right.
Qed.

Lemma pass_keeps_refl (db : DB) (rows : list Order) : pass_keeps db rows db.
Proof. repeat split; auto. Qed.

(** The pass of [assign_orders_to_riders], with the queryset resolved. *)
Lemma assign_orders_keeps (orders_queryset : option (Order -> bool)) (db : DB) :
  let q := match orders_queryset with Some q => q | None => confirmed_unassigned end in
  let rows := filter q (orders db) in
  match assign_orders_to_riders orders_queryset db with
  | Return (NoOrders _) db' => db' = db /\ rows = []
  | Return (Assigned count total details) db' =>
      pass_keeps db rows db'
      /\ total = List.length rows
      /\ map order_count_of details
         = map (fun g => List.length (snd g)) (_group_orders_by_landmark_and_date rows)
      /\ count = list_sum (map order_count_of (filter success details))
      /\ List.length (filter success details) + pool_size (riders db')
         <= pool_size (riders db)
  | Raised _ db' => pass_keeps db rows db'
  end.
Proof.
  intros q rows. unfold assign_orders_to_riders, bind, query.
  fold q. fold rows.
  destruct rows as [|row rest] eqn:Hrows; [now split|].
  rewrite <- Hrows.
  pose proof (assign_groups_keeps db rows (_group_orders_by_landmark_and_date rows)
                0 [] db (pass_keeps_refl db rows)) as H.
  destruct (assign_groups _ 0 [] db) as [[count details] db'|e db'].
  - destruct H as (Hk & more & Hd & Hmap & Hc & Hp).
    { intros k ms o Hg Ho.
      destruct (grouping_invariant rows _ eq_refl) as (Hmem & _).
      destruct (Hmem k ms Hg) as [_ Hms]. rewrite Hms in Ho.
      apply filter_In in Ho. tauto. }
    simpl in Hd. subst more. split; [exact Hk|]. repeat split; auto.
  - apply H. intros k ms o Hg Ho.
    destruct (grouping_invariant rows _ eq_refl) as (Hmem & _).
    destruct (Hmem k ms Hg) as [_ Hms]. rewrite Hms in Ho.
    apply filter_In in Ho. tauto.
Qed.


Lemma group_add_sizes (key : option Landmark * nat) (o : Order)
      (grouped : list ((option Landmark * nat) * list Order)) :
  list_sum (map (fun g => List.length (snd g)) (group_add key o grouped))
  = S (list_sum (map (fun g => List.length (snd g)) grouped)).
Proof.
  induction grouped as [|[k ms] rest IH]; simpl; [reflexivity|].
  destruct (key_eqb k key); simpl.
  - rewrite length_app. simpl. lia.
  - rewrite IH. lia.
Qed.

Lemma grouping_sizes (rows : list Order) :
  list_sum (map (fun g => List.length (snd g)) (_group_orders_by_landmark_and_date rows))
  = List.length rows.
Proof.
  unfold _group_orders_by_landmark_and_date.
  induction rows as [|o rows IH] using rev_ind; [reflexivity|].
  rewrite fold_left_app, length_app. simpl. rewrite group_add_sizes, IH. lia.
Qed.

Lemma list_sum_filter_le {A : Type} (f : A -> nat) (p : A -> bool) (l : list A) :
  list_sum (map f (filter p l)) <= list_sum (map f l).
Proof.
  induction l as [|x l IH]; simpl; [lia|].
  destruct (p x); simpl; lia.
Qed.

(** X2: the report accounts for every order of the working set:
    [total_orders] is the number of orders selected, [details] has one
    entry per cohort whose [order_count] is the size of the cohort, these
    sizes sum to [total_orders], and [assigned_count] is the sum of the
    [order_count] of the success entries, so at most [total_orders]. *)
Theorem report_accounts_for_every_order (orders_queryset : option (Order -> bool))
        (db db' : DB) (count total : nat) (details : list GroupResult) :
  assign_orders_to_riders orders_queryset db = Return (Assigned count total details) db' ->
  let rows :=
    filter (match orders_queryset with Some q => q | None => confirmed_unassigned end)
           (orders db) in
  total = List.length rows
  /\ map order_count_of details
     = map (fun g => List.length (snd g)) (_group_orders_by_landmark_and_date rows)
  /\ list_sum (map order_count_of details) = total
  /\ count = list_sum (map order_count_of (filter success details))
  /\ count <= total.
Proof.
  intros Hrun rows. pose proof (assign_orders_keeps orders_queryset db) as H.
  simpl in H. rewrite Hrun in H. fold rows in H.
  destruct H as (_ & Ht & Hmap & Hc & _).
  assert (Hsum : list_sum (map order_count_of details) = total).
  { rewrite Hmap, Ht. apply grouping_sizes. }
  repeat split; auto.
  rewrite Hc, <- Hsum. apply list_sum_filter_le.
Qed.

(** X3: a pass writes to no order outside its working set: primary keys
    keep their places in the orders table; every row after the pass is a
    row of before or an order of the working set saved as ASSIGNED to a
    rider; and, primary keys being unique, every order the queryset did not
    select is still there as it was.  This holds as well when the pass
    raises. *)
Theorem pass_writes_only_selected_orders (orders_queryset : option (Order -> bool))
        (db : DB) :
  let q := match orders_queryset with Some q => q | None => confirmed_unassigned end in
  let db' := final_db (assign_orders_to_riders orders_queryset db) in
  map order_pk (orders db') = map order_pk (orders db)
  /\ (forall o', In o' (orders db') ->
                 In o' (orders db)
                 \/ exists o best,
                      In o (orders db) /\ q o = true
                      /\ o' = set_assignment (rider_pk best) ASSIGNED o)
  /\ (NoDup (map order_pk (orders db)) ->
      forall o, In o (orders db) -> q o = false -> In o (orders db')).
Proof.
  intros q db'.
  assert (Hk : pass_keeps db (filter q (orders db)) db').
  { pose proof (assign_orders_keeps orders_queryset db) as H. simpl in H.
    unfold db'. fold q in H.
    destruct (assign_orders_to_riders orders_queryset db)
      as [[m|count total details] db1|e db1]; simpl.
    - destruct H as [-> _]. apply pass_keeps_refl.
    - apply H.
    - exact H. }
  destruct Hk as (Ha & Hpks & Hkeep & _).
  split; [exact Hpks|]. split.
  - intros o' Ho'. destruct (Ha o' Ho') as [H|(o & best & Ho & ->)]; [now left|].
    right. apply filter_In in Ho. exists o, best. tauto.
  - intros Hnd o Ho Hq. apply Hkeep; [exact Ho|].
    intros x Hx E. apply filter_In in Hx. destruct Hx as [Hx Hqx].
    apply (pk_injective order_pk (orders db) x o Hnd Hx Ho) in E. congruence.
Qed.

(** X4: a pass writes to the riders table only to save a rider who was
    AVAILABLE as ON_DELIVERY: every row after the pass is a row of before
    or such a rider with nothing but the status changed; so no rider is
    AVAILABLE after the pass who was not before. *)
Theorem pass_only_books_available_riders (orders_queryset : option (Order -> bool))
        (db : DB) :
  let db' := final_db (assign_orders_to_riders orders_queryset db) in
  (forall r, In r (riders db') ->
             In r (riders db)
             \/ exists r0, In r0 (riders db) /\ rider_status r0 = AVAILABLE
                           /\ r = set_rider_status ON_DELIVERY r0)
  /\ (forall r, In r (available_riders db') -> In r (available_riders db)).
Proof.
  intros db'.
  assert (Hb : forall r, In r (riders db') ->
                         In r (riders db)
                         \/ exists r0, In r0 (riders db) /\ rider_status r0 = AVAILABLE
                                       /\ r = set_rider_status ON_DELIVERY r0).
  { pose proof (assign_orders_keeps orders_queryset db) as H. simpl in H.
    unfold db'.
    destruct (assign_orders_to_riders orders_queryset db)
      as [[m|count total details] db1|e db1]; simpl.
    - destruct H as [-> _]. auto.
    - apply H.
    - apply H. }
  split; [exact Hb|].
  intros r Hr. apply available_riders_In in Hr. destruct Hr as [Hin Hav].
  apply available_riders_In. split; [|exact Hav].
  destruct (Hb r Hin) as [H|(r0 & _ & _ & ->)]; [exact H|discriminate].
Qed.

(** X5: a pass assigns at most as many cohorts as there are AVAILABLE
    riders: the success entries of the report and the riders still
    AVAILABLE after the pass together are at most the riders AVAILABLE
    before. *)
Theorem successes_bounded_by_pool (orders_queryset : option (Order -> bool))
        (db db' : DB) (count total : nat) (details : list GroupResult) :
  assign_orders_to_riders orders_queryset db = Return (Assigned count total details) db' ->
  List.length (filter success details) + pool_size (riders db') <= pool_size (riders db).
Proof.
  intros Hrun. pose proof (assign_orders_keeps orders_queryset db) as H.
  simpl in H. rewrite Hrun in H. apply H.
Qed.


(** ** Bounds of the score *)









(** ** Routes *)

Lemma next_sequence_above (rider : Rider) (date : nat) (db : DB) (r : DeliveryRoute) :
  In r (routes db) -> same_rider_and_date rider date r = true ->
  (sequence r < next_sequence_spec rider date db)%Z.
Proof.
  intros Hin Hs. unfold next_sequence_spec.
  assert (H : In (sequence r)
                 (map sequence (filter (same_rider_and_date rider date) (routes db)))).
  { apply in_map, filter_In. now split. }
  destruct (map sequence _) as [|s rest]; [destruct H|].
  destruct (fold_max_spec rest s) as (H1 & H2 & _).
  destruct H as [<-|H]; [lia|]. specialize (H2 _ H). lia.
Qed.

Lemma same_rider_and_date_ext (r1 r2 : Rider) (d1 d2 : nat) (x : DeliveryRoute) :
  rider_pk r1 = rider_pk r2 -> d1 = d2 ->
  same_rider_and_date r1 d1 x = same_rider_and_date r2 d2 x.
Proof. intros H1 H2. unfold same_rider_and_date. now rewrite H1, H2. Qed.

(** X9: [_create_delivery_route] numbers the new route strictly above
    every route the rider has on the date, so it keeps the sequence numbers
    of any rider and date pairwise distinct if they were. *)
Theorem route_creation_keeps_sequences_distinct (rider : Rider)
        (landmark : option Landmark) (date : nat) (os : list Order)
        (db db' : DB) (route : DeliveryRoute) :
  _create_delivery_route rider landmark date os db = Return route db' ->
  (forall r, In r (routes db) -> same_rider_and_date rider date r = true ->
             (sequence r < sequence route)%Z)
  /\ (forall rider2 date2,
        NoDup (map sequence (filter (same_rider_and_date rider2 date2) (routes db))) ->
        NoDup (map sequence (filter (same_rider_and_date rider2 date2) (routes db')))).
Proof.
  intros Hrun.
  pose proof (create_delivery_route_cases rider landmark date os db) as Hc.
  rewrite Hrun in Hc.
  destruct Hc as (_ & _ & _ & Hroutes & Hrider & Hdate & Hseq & _).
  assert (Habove : forall r, In r (routes db) -> same_rider_and_date rider date r = true ->
                             (sequence r < sequence route)%Z).
  { intros r Hin Hs. rewrite Hseq. now apply next_sequence_above. }
  split; [exact Habove|].
  intros rider2 date2 Hnd. rewrite Hroutes, filter_app, map_app. simpl.
  destruct (same_rider_and_date rider2 date2 route) eqn:E; simpl;
    [|now rewrite app_nil_r].
  apply NoDup_snoc; [exact Hnd|].
  intros Hin. apply in_map_iff in Hin. destruct Hin as (r & Hr & Hf).
  apply filter_In in Hf. destruct Hf as [Hf1 Hf2].
  unfold same_rider_and_date in E. rewrite Hrider, Hdate in E.
  apply andb_true_iff in E. destruct E as [E1 E2]. apply Nat.eqb_eq in E1, E2.
  rewrite (same_rider_and_date_ext rider2 rider date2 date r) in Hf2 by congruence.
  specialize (Habove r Hf1 Hf2). lia.
Qed.

Lemma fold_min_spec (l : list nat) (a : nat) :
  fold_left Nat.min l a <= a
  /\ (forall x, In x l -> fold_left Nat.min l a <= x)
  /\ (fold_left Nat.min l a = a \/ In (fold_left Nat.min l a) l).
Proof.
  revert a. induction l as [|y l IH]; intros a; simpl.
  - repeat split; [lia | intros x [] | now left].
  - destruct (IH (Nat.min a y)) as (H1 & H2 & H3). repeat split.
    + lia.
    + intros x [<-|Hx]; [lia|auto].
    + destruct H3 as [H3|H3].
      * destruct (Nat.min_spec a y) as [[_ E]|[_ E]]; rewrite E in H3 |- *.
        -- now left.
        -- right. left. now symmetry.
      * right. now right.
Qed.

(** X10: the route [_create_delivery_route] returns is a new last row of
    the routes table, under a primary key no row had, not completed; it
    holds exactly the orders it was given, and its [estimated_arrival] is
    the earliest [delivery_time_start] among them. *)
Theorem route_is_built_from_its_orders (rider : Rider) (landmark : option Landmark)
        (date : nat) (os : list Order) (db db' : DB) (route : DeliveryRoute) :
  _create_delivery_route rider landmark date os db = Return route db' ->
  routes db' = (routes db ++ [route])%list
  /\ ~ In (route_pk route) (map route_pk (routes db))
  /\ completed route = false
  /\ route_orders route = map order_pk os
  /\ (forall o, In o os -> estimated_arrival route <= delivery_time_start o)
  /\ (exists o, In o os /\ estimated_arrival route = delivery_time_start o).
Proof.
  intros Hrun.
  pose proof (create_delivery_route_cases rider landmark date os db) as Hc.
  pose proof (create_delivery_route_shape rider landmark date os db) as Hs.
  rewrite Hrun in Hc, Hs.
  destruct Hc as (_ & _ & _ & Hroutes & _ & _ & _ & Hcompl & _).
  destruct Hs as (Hro & Hpk & _ & t & ts & Htimes & Heta).
  split; [exact Hroutes|]. split; [|split; [exact Hcompl|split; [exact Hro|]]].
  - intros Hin. apply in_map_iff in Hin. destruct Hin as (r & E & Hr).
    pose proof (next_pk_fresh route_pk _ _ Hr). lia.
  - destruct (fold_min_spec ts t) as (H1 & H2 & H3). rewrite <- Heta in H1, H2, H3.
    split.
    + intros o Ho. apply (in_map delivery_time_start) in Ho. rewrite Htimes in Ho.
      destruct Ho as [<-|Ho]; auto.
    + assert (Hin : In (estimated_arrival route) (map delivery_time_start os)).
      { rewrite Htimes. destruct H3 as [->|H3]; [now left|now right]. }
      apply in_map_iff in Hin. destruct Hin as (o & E & Ho). eauto.
Qed.

(** X11: called as [_assign_group_to_rider] calls it, for a rider and
    orders that are rows of their tables, the rider's routes of the date
    being numbered below the largest number an integer column holds, so
    that the next number can be stored, [_create_delivery_route] raises
    exactly when it is given no order ([min] of an empty list: ValueError)
    or, with orders, no landmark (the column is not nullable:
    IntegrityError); it has then written nothing. *)
Theorem route_creation_fails_exactly_when (rider : Rider) (landmark : option Landmark)
        (date : nat) (os : list Order) (db : DB) :
  In (rider_pk rider) (map rider_pk (riders db)) ->
  (forall o, In o os -> In (order_pk o) (map order_pk (orders db))) ->
  (forall r, In r (routes db) -> same_rider_and_date rider date r = true ->
             (sequence r < max_integer)%Z) ->
  match _create_delivery_route rider landmark date os db with
  | Return _ _ => os <> [] /\ landmark <> None
  | Raised e db' =>
      db' = db
      /\ ((os = [] /\ e = ValueError)
          \/ (os <> [] /\ landmark = None /\ e = IntegrityError))
  end.
Proof.
  intros _ _ _.
  pose proof (create_delivery_route_cases rider landmark date os db) as Hc.
  pose proof (create_delivery_route_shape rider landmark date os db) as Hs.
  destruct (_create_delivery_route rider landmark date os db) as [route db'|e db'].
  - destruct Hs as (_ & _ & Hlm & t & ts & Htimes & _). split.
    + intros ->. discriminate.
    + rewrite Hlm. discriminate.
  - split; assumption.
Qed.


(** ** Messages *)

(** X12: [_send_sms] never raises and returns the gateway's answer when
    there is an order to log against.  It then appends exactly one row to
    the SMS log, with that answer as [delivered] and a recipient that
    starts with "+": a number that already does is used as it is.  Without
    an order it logs nothing and returns [False].  It writes to no rider
    and no route, and to an order only for a confirmation request. *)
Theorem send_sms_logs_one_row (phone message : string) (order : option Order)
        (message_type : MessageType) (db : DB) :
  exists b db',
    _send_sms phone message order message_type db = Return b db'
    /\ riders db' = riders db /\ routes db' = routes db
    /\ (message_type <> CONFIRMATION -> orders db' = orders db)
    /\ match order with
       | None => b = false /\ sms_logs db' = sms_logs db
       | Some o =>
           exists recipient,
             sms_logs db'
             = (sms_logs db
                  ++ [mkSMSLog (Some (order_pk o)) recipient message_type message b])%list
             /\ b = gateway message recipient
             /\ prefix "+" recipient = true
             /\ (prefix "+" phone = true -> recipient = phone)
       end.
Proof.
  unfold _send_sms.
  set (recipient :=
         if prefix "+" phone then phone
         else if prefix "0" phone
              then "+254" ++ substring 1 (String.length phone - 1) phone
              else if prefix "254" phone then "+" ++ phone else "+254" ++ phone).
  assert (Hplus : prefix "+" recipient = true).
  { unfold recipient. destruct (prefix "+" phone) eqn:E; [exact E|].
    destruct (prefix "0" phone); [reflexivity|].
    destruct (prefix "254" phone); simpl; [|reflexivity].
    now destruct phone. }
  assert (Hsame : prefix "+" phone = true -> recipient = phone).
  { intros E. unfold recipient. now rewrite E. }
  destruct order as [o|].
  - destruct (gateway message recipient) eqn:Hg;
      unfold bind, update, ret; simpl.
    + destruct message_type; simpl; eexists _, _;
        (split; [reflexivity|]); repeat split; try congruence;
        exists recipient; repeat split; auto.
    + eexists _, _. split; [reflexivity|]. repeat split.
      exists recipient. repeat split; auto.
  - destruct (gateway message recipient); eexists _, _;
      (split; [reflexivity|]); repeat split.
Qed.

(** ** A cohort that succeeds *)

Lemma saved_orders_get_other (best : Rider) (os t : list Order) (k : nat) :
  (forall x, In x os -> order_pk x <> k) ->
  get_row order_pk k (saved_orders best os t) = get_row order_pk k t.
Proof.
  unfold saved_orders. revert t. induction os as [|x os IH]; intros t H; simpl.
  - reflexivity.
  - rewrite IH by (intros y Hy; apply H; now right).
    apply get_row_put_other. simpl. apply H. now left.
Qed.

Lemma saved_orders_get (best : Rider) (os t : list Order) (o : Order) :
  NoDup (map order_pk os) -> In o os ->
  In (order_pk o) (map order_pk t) ->
  get_row order_pk (order_pk o) (saved_orders best os t)
  = Some (set_assignment (rider_pk best) ASSIGNED o).
Proof.
  revert t. induction os as [|x os IH]; intros t Hnd Hin Hrow; [destruct Hin|].
  simpl in Hnd. inversion Hnd as [|? ? Hx Hnd']; subst.
  change (saved_orders best (x :: os) t)
    with (saved_orders best os
            (put_row order_pk (set_assignment (rider_pk best) ASSIGNED x) t)).
  destruct Hin as [->|Hin].
  - rewrite saved_orders_get_other.
    + destruct (get_row_present order_pk _ _ Hrow) as (r & Hr).
      now apply (get_put_row order_pk _ r).
    + intros y Hy E. apply Hx. rewrite <- E. now apply in_map.
  - apply IH; auto. now rewrite put_row_pks.
Qed.

(** X13: when a cohort succeeds, with orders of distinct primary keys that
    are rows of the orders table: the entry names a rider of the pool and
    the size of the cohort; the route the entry points to is in the routes
    table, for that rider and the cohort's date, and holds the cohort's
    orders; every order of the cohort is stored with status ASSIGNED and
    the rider as its assigned rider, and is otherwise as it was; and the
    rider is stored with status ON_DELIVERY, and is otherwise as it was. *)
Theorem successful_cohort_is_booked (landmark : option Landmark) (date : nat)
        (os : list Order) (db db' : DB) (nm rn : string) (n rid : nat) :
  _assign_group_to_rider landmark date os db = Return (GroupSuccess nm rn n rid) db' ->
  NoDup (map order_pk os) ->
  (forall o, In o os -> In (order_pk o) (map order_pk (orders db))) ->
  exists best route,
    In best (available_riders db)
    /\ rn = full_name best /\ n = List.length os
    /\ In route (routes db') /\ route_pk route = rid
    /\ route_rider route = rider_pk best /\ route_date route = date
    /\ route_orders route = map order_pk os
    /\ (forall o, In o os ->
          exists o',
            get_row order_pk (order_pk o) (orders db') = Some o'
            /\ status o' = ASSIGNED
            /\ assigned_rider o' = Some (rider_pk best)
            /\ same_but_assignment o o')
    /\ (exists best',
          get_row rider_pk (rider_pk best) (riders db') = Some best'
          /\ rider_status best' = ON_DELIVERY
          /\ same_but_status best best').
Proof.
  intros Hrun Hnd Hrows.
  pose proof (assign_group_effect landmark date os db) as He. rewrite Hrun in He.
  destruct He as (best & route & Hbest & Hn & Hrn & _ & _ & Ho & Hroutes & Hpk & _
                  & Hrider & Hdate & Hro & _ & _ & _ & Hr).
  exists best, route. repeat split; auto.
  - rewrite Hroutes. apply in_or_app. right. now left.
  - intros o Hin. exists (set_assignment (rider_pk best) ASSIGNED o).
    split; [rewrite Ho; apply saved_orders_get; auto|].
    repeat split.
  - exists (set_rider_status ON_DELIVERY best). split; [|repeat split].
    rewrite Hr. apply available_riders_In in Hbest. destruct Hbest as [Hin _].
    destruct (get_row_present rider_pk (rider_pk best) (riders db)) as (r & Hget).
    { now apply in_map. }
    now apply (get_put_row rider_pk _ r).
Qed.

(** ** The optimizer's summary *)

Lemma renumbered_sequences (xs : list DeliveryRoute) (n : nat) :
  map sequence (map renumbered (enumerate_from n xs))
  = map Z.of_nat (seq n (List.length xs)).
Proof.
  revert n. induction xs as [|x xs IH]; intros n; [reflexivity|].
  rewrite enumerate_from_cons. cbn [map List.length seq]. now rewrite IH.
Qed.

(** X14: the summary [optimize_rider_route] returns counts the rider's
    incomplete routes of the date and lists one entry for each, numbered
    1..N in order; with no such route it is an empty summary, and the
    database is as it was. *)
Theorem optimizer_summary_is_numbered (rider : Rider) (date : nat) (db : DB) :
  let n := List.length (filter (incomplete_on rider date) (routes db)) in
  exists summary db1,
    optimize_rider_route rider date db = Return summary db1
    /\ summary_rider summary = full_name rider
    /\ summary_date summary = date
    /\ route_count summary = n
    /\ map summary_sequence (summary_routes summary) = map Z.of_nat (seq 1 n)
    /\ (n = 0 -> summary_routes summary = [] /\ routes db1 = routes db).
Proof.
  intros n. unfold optimize_rider_route, bind, query.
  rewrite for_each_renumber. unfold ret. eexists _, _. split; [reflexivity|].
  set (sel := sort_by earlier_arrival (filter (incomplete_on rider date) (routes db))).
  assert (Hlen : List.length sel = n) by apply sort_by_length.
  cbn [summary_rider summary_date route_count summary_routes].
  split; [reflexivity|]. split; [reflexivity|]. split; [|split].
  - rewrite length_map. unfold enumerate1.
    rewrite length_combine, length_map, length_seq. lia.
  - rewrite map_map. cbn [summary_sequence].
    rewrite enumerate1_from.
    change (map sequence (map renumbered (enumerate_from 1 sel))
            = map Z.of_nat (seq 1 n)).
    rewrite renumbered_sequences. now rewrite Hlen.
  - intros Hn. rewrite Hn in Hlen. destruct sel; [|discriminate]. now split.
Qed.


(** ** Status updates *)

(** What a status update does to the riders table. *)
Lemma update_status_riders_aux (data : StatusUpdate) (pk : nat) (db : DB) :
  exists dbf,
    final_db (OrderUpdateStatusView_post data pk db) = dbf
    /\ (riders dbf = riders db
        \/ exists rider,
             In rider (riders db)
             /\ (riders dbf
                 = put_row rider_pk
                     (set_counters (total_deliveries rider + 1)
                                   (successful_deliveries rider + 1)
                                   (failed_deliveries rider) rider)
                     (riders db)
                 \/ riders dbf
                    = put_row rider_pk
                        (set_counters (total_deliveries rider + 1)
                                      (successful_deliveries rider)
                                      (failed_deliveries rider + 1) rider)
                        (riders db))).
Proof.
  unfold OrderUpdateStatusView_post. unfold bind at 1, query.
  destruct (get_row order_pk pk (orders db)) as [order|]; [|eexists; split; [reflexivity|now left]].
  destruct (is_valid data) as [v|]; [|eexists; split; [reflexivity|now left]].
  destruct (validated_status v); try (eexists; split; [reflexivity|now left]);
    cbn [assigned_rider set_status set_delivered set_failure_reason];
    destruct (assigned_rider order) as [k|].
  - unfold bind at 1. unfold bind at 1. unfold bind at 1.
    unfold load_rider. unfold bind at 1, query.
    destruct (get_row rider_pk k (riders db)) as [rider|] eqn:Hr;
      [|eexists; split; [reflexivity|now left]].
    unfold ret at 1, save_rider, update. unfold bind at 1.
    match goal with
    | |- context [send_delivery_success_sms ?o ?d] =>
        destruct (send_delivery_success_sms_frame o now d eq_refl)
          as (b & db1 & -> & Hr1 & _)
    end.
    unfold ret at 1, bind, save_order, update, ret.
    eexists. split; [reflexivity|]. simpl.
    right. exists rider. split; [now apply get_row_some in Hr|].
    left. rewrite Hr1. reflexivity.
  - unfold bind. unfold ret at 1.
    match goal with
    | |- context [send_delivery_success_sms ?o ?d] =>
        destruct (send_delivery_success_sms_frame o now d eq_refl)
          as (b & db1 & -> & Hr1 & _)
    end.
    unfold ret at 1, bind, save_order, update, ret.
    eexists. split; [reflexivity|]. simpl. now left.
  - unfold bind at 1. unfold bind at 1. unfold bind at 1.
    unfold load_rider. unfold bind at 1, query.
    destruct (get_row rider_pk k (riders db)) as [rider|] eqn:Hr;
      [|eexists; split; [reflexivity|now left]].
    unfold ret at 1, save_rider, update. unfold bind at 1.
    match goal with
    | |- context [send_delivery_failed_sms ?o ?d] =>
        destruct (send_delivery_failed_sms_frame o d) as (b & db1 & -> & Hr1 & _)
    end.
    unfold ret at 1, bind, save_order, update, ret.
    eexists. split; [reflexivity|]. simpl.
    right. exists rider. split; [now apply get_row_some in Hr|].
    right. rewrite Hr1. reflexivity.
  - unfold bind. unfold ret at 1.
    match goal with
    | |- context [send_delivery_failed_sms ?o ?d] =>
        destruct (send_delivery_failed_sms_frame o d) as (b & db1 & -> & Hr1 & _)
    end.
    unfold ret at 1, bind, save_order, update, ret.
    eexists. split; [reflexivity|]. simpl. now left.
Qed.

Lemma update_status_riders (data : StatusUpdate) (pk : nat) (db : DB) :
  let db' := final_db (OrderUpdateStatusView_post data pk db) in
  riders db' = riders db
  \/ exists rider,
       In rider (riders db)
       /\ (riders db'
           = put_row rider_pk
               (set_counters (total_deliveries rider + 1)
                             (successful_deliveries rider + 1)
                             (failed_deliveries rider) rider)
               (riders db)
           \/ riders db'
              = put_row rider_pk
                  (set_counters (total_deliveries rider + 1)
                                (successful_deliveries rider)
                                (failed_deliveries rider + 1) rider)
                  (riders db)).
Proof.
  destruct (update_status_riders_aux data pk db) as (dbf & -> & H). exact H.
Qed.

(** X15: a status update is not checked against the order's current
    status: whatever status the order has, a request the serializer accepts
    is answered with 200 and the order is stored with the status the
    request names; its primary key, rider, landmark and delivery date stay,
    no other order and no route changes.  (The rider of the order, if it
    has one, is a row of the riders table, with counters below the largest
    number their columns hold.) *)
Theorem status_update_ignores_current_status (data : StatusUpdate) (pk : nat) (db : DB)
        (order : Order) (v : ValidatedData) :
  get_row order_pk pk (orders db) = Some order ->
  is_valid data = Some v ->
  (forall k, assigned_rider order = Some k ->
             exists rider, get_row rider_pk k (riders db) = Some rider /\ can_count rider) ->
  exists message order' db',
    OrderUpdateStatusView_post data pk db = Return (HTTP_200_OK message order') db'
    /\ get_row order_pk pk (orders db') = Some order'
    /\ status order' = validated_status v
    /\ order_pk order' = pk
    /\ assigned_rider order' = assigned_rider order
    /\ landmark order' = landmark order
    /\ delivery_date order' = delivery_date order
    /\ routes db' = routes db
    /\ map order_pk (orders db') = map order_pk (orders db)
    /\ (forall o, In o (orders db) -> order_pk o <> pk -> In o (orders db')).
Proof.
  intros Horder Hv Hfk.
  pose proof (get_row_some _ _ _ _ Horder) as [_ Hpk].
  assert (Hsaved : forall message order' db',
             OrderUpdateStatusView_post data pk db
             = Return (HTTP_200_OK message order') db' ->
             orders db' = put_row order_pk order' (orders db) ->
             routes db' = routes db ->
             order_pk order' = pk ->
             status order' = validated_status v ->
             assigned_rider order' = assigned_rider order ->
             landmark order' = landmark order ->
             delivery_date order' = delivery_date order ->
             exists message order' db',
               OrderUpdateStatusView_post data pk db
               = Return (HTTP_200_OK message order') db'
               /\ get_row order_pk pk (orders db') = Some order'
               /\ status order' = validated_status v
               /\ order_pk order' = pk
               /\ assigned_rider order' = assigned_rider order
               /\ landmark order' = landmark order
               /\ delivery_date order' = delivery_date order
               /\ routes db' = routes db
               /\ map order_pk (orders db') = map order_pk (orders db)
               /\ (forall o, In o (orders db) -> order_pk o <> pk -> In o (orders db'))).
  { intros message order' db' Hrun Ho Ht Hk Hs Ha Hl Hd.
    exists message, order', db'. split; [exact Hrun|].
    split; [rewrite Ho; now apply (get_put_row order_pk _ order)|].
    repeat split; auto.
    - rewrite Ho. apply put_row_pks.
    - intros o Hin Hne. rewrite Ho. apply put_row_keeps; [exact Hin|congruence]. }
  destruct (validated_status v) eqn:Hst;
    try (eapply Hsaved;
         [unfold OrderUpdateStatusView_post, bind, query;
          rewrite Horder, Hv, Hst; reflexivity
         |reflexivity|reflexivity|exact Hpk|reflexivity|reflexivity
         |reflexivity|reflexivity]).
  - destruct (assigned_rider order) as [k|] eqn:Hk.
    + destruct (Hfk k eq_refl) as (rider & Hr & _).
      destruct (post_delivered data pk db order k rider v Horder Hk Hr Hv Hst)
        as (message & db' & Hrun & _ & Ho & Ht).
      eapply Hsaved; [exact Hrun|exact Ho|exact Ht|exact Hpk|reflexivity|exact Hk
                     |reflexivity|reflexivity].
    + assert (H : exists message db',
                 OrderUpdateStatusView_post data pk db
                 = Return (HTTP_200_OK message
                             (set_delivered now (validated_delivery_proof v)
                                            (set_status DELIVERED order))) db'
                 /\ orders db'
                    = put_row order_pk
                        (set_delivered now (validated_delivery_proof v)
                                       (set_status DELIVERED order))
                        (orders db)
                 /\ routes db' = routes db).
      { unfold OrderUpdateStatusView_post. unfold bind at 1, query.
        rewrite Horder, Hv, Hst. cbn [assigned_rider set_status set_delivered].
        rewrite Hk. unfold bind. unfold ret at 1.
        match goal with
        | |- context [send_delivery_success_sms ?o ?d] =>
            destruct (send_delivery_success_sms_frame o now d eq_refl)
              as (b & db1 & -> & _ & Ho1 & Ht1)
        end.
        unfold ret at 1, save_order, update, ret.
        eexists _, _. split; [reflexivity|]. simpl. rewrite Ho1, Ht1. split; reflexivity. }
      destruct H as (message & db' & Hrun & Ho & Ht).
      eapply Hsaved; [exact Hrun|exact Ho|exact Ht|exact Hpk|reflexivity|exact Hk
                     |reflexivity|reflexivity].
  - destruct (assigned_rider order) as [k|] eqn:Hk.
    + destruct (Hfk k eq_refl) as (rider & Hr & _).
      destruct (post_failed data pk db order k rider v Horder Hk Hr Hv Hst)
        as (message & db' & Hrun & _ & Ho & Ht).
      eapply Hsaved; [exact Hrun|exact Ho|exact Ht|exact Hpk|reflexivity|exact Hk
                     |reflexivity|reflexivity].
    + assert (H : exists message db',
                 OrderUpdateStatusView_post data pk db
                 = Return (HTTP_200_OK message
                             (set_failure_reason (validated_failure_reason v)
                                                 (set_status FAILED order))) db'
                 /\ orders db'
                    = put_row order_pk
                        (set_failure_reason (validated_failure_reason v)
                                            (set_status FAILED order))
                        (orders db)
                 /\ routes db' = routes db).
      { unfold OrderUpdateStatusView_post. unfold bind at 1, query.
        rewrite Horder, Hv, Hst. cbn [assigned_rider set_status set_failure_reason].
        rewrite Hk. unfold bind. unfold ret at 1.
        match goal with
        | |- context [send_delivery_failed_sms ?o ?d] =>
            destruct (send_delivery_failed_sms_frame o d)
              as (b & db1 & -> & _ & Ho1 & Ht1)
        end.
        unfold ret at 1, save_order, update, ret.
        eexists _, _. split; [reflexivity|]. simpl. rewrite Ho1, Ht1. split; reflexivity. }
      destruct H as (message & db' & Hrun & Ho & Ht).
      eapply Hsaved; [exact Hrun|exact Ho|exact Ht|exact Hpk|reflexivity|exact Hk
                     |reflexivity|reflexivity].
Qed.

(** X16: a status update keeps the invariant of the rider counters: if
    [total_deliveries = successful_deliveries + failed_deliveries] holds
    for every rider before, it holds for every rider after, whatever the
    request. *)
Theorem status_update_keeps_counters_adding_up (data : StatusUpdate) (pk : nat) (db : DB) :
  (forall r, In r (riders db) -> counters_add_up r) ->
  forall r, In r (riders (final_db (OrderUpdateStatusView_post data pk db))) ->
            counters_add_up r.
Proof.
  intros Hinv r Hr.
  destruct (update_status_riders data pk db) as [H|(rider & Hin & [H|H])];
    rewrite H in Hr; [auto| |];
    (apply put_row_In in Hr; destruct Hr as [Hr| ->]; [auto|]);
    specialize (Hinv rider Hin); unfold counters_add_up in *; simpl; lia.
Qed.

Lemma put_row_map_same {A B : Type} (pk : A -> nat) (f : A -> B) (x x' : A) (t : list A) :
  NoDup (map pk t) -> In x t -> pk x' = pk x -> f x' = f x ->
  map f (put_row pk x' t) = map f t.
Proof.
  intros Hnd Hin Hpk Hf. unfold put_row. rewrite map_map. apply map_ext_in.
  intros row Hrow. destruct (pk row =? pk x') eqn:E; [|reflexivity].
  apply Nat.eqb_eq in E. rewrite Hpk in E.
  now rewrite (pk_injective pk t row x Hnd Hrow Hin E).
Qed.

Lemma pool_pks (db : DB) (k : nat) :
  In k (map rider_pk (available_riders db))
  <-> In (k, AVAILABLE) (map (fun r => (rider_pk r, rider_status r)) (riders db)).
Proof.
  split; intros H; apply in_map_iff in H; destruct H as (r & E & Hr).
  - apply available_riders_In in Hr. destruct Hr as [Hin Hst].
    apply in_map_iff. exists r. split; [congruence|exact Hin].
  - injection E as E1 E2. apply in_map_iff. exists r. split; [exact E1|].
    apply available_riders_In. now split.
Qed.

(** X17: a status update never changes the status of a rider: with unique
    primary keys, the statuses, ratings and preferred landmarks of the
    riders table are after the update what they were before, so the riders
    AVAILABLE are the same; in particular the rider of an order reported
    DELIVERED or FAILED does not return to the pool. *)
Theorem status_update_keeps_rider_status (data : StatusUpdate) (pk : nat) (db : DB) :
  NoDup (map rider_pk (riders db)) ->
  let db' := final_db (OrderUpdateStatusView_post data pk db) in
  map rider_status (riders db') = map rider_status (riders db)
  /\ map rating (riders db') = map rating (riders db)
  /\ map preferred_landmarks (riders db') = map preferred_landmarks (riders db)
  /\ (forall k, In k (map rider_pk (available_riders db'))
                <-> In k (map rider_pk (available_riders db))).
Proof.
  intros Hnd db'.
  assert (H : forall (B : Type) (f : Rider -> B),
             (forall r t s fl, f (set_counters t s fl r) = f r) ->
             map f (riders db') = map f (riders db)).
  { intros B f Hf. unfold db'.
    destruct (update_status_riders data pk db) as [H|(rider & Hin & [H|H])];
      rewrite H; [reflexivity| |];
      apply (put_row_map_same rider_pk f rider); auto. }
  split; [apply H; reflexivity|]. split; [apply H; reflexivity|].
  split; [apply H; reflexivity|].
  intros k. rewrite !pool_pks.
  now rewrite (H _ (fun r => (rider_pk r, rider_status r))).
Qed.


(** X18: a delivery reported twice is counted twice: the view does not
    look at the order's current status, so after a second DELIVERED report
    for the same order the rider's [total_deliveries] and
    [successful_deliveries] are each two more than before the first, with
    the order still DELIVERED.  (The counters are low enough for their
    columns to hold two more.) *)
Theorem delivery_reported_twice_counts_twice (data : StatusUpdate) (pk : nat) (db : DB)
        (order : Order) (k : nat) (rider : Rider) (v : ValidatedData) :
  get_row order_pk pk (orders db) = Some order ->
  assigned_rider order = Some k ->
  get_row rider_pk k (riders db) = Some rider ->
  (total_deliveries rider + 2 <= max_integer)%Z ->
  (successful_deliveries rider + 2 <= max_integer)%Z ->
  is_valid data = Some v ->
  validated_status v = DELIVERED ->
  exists m1 o1 db1 m2 o2 db2 rider2,
    OrderUpdateStatusView_post data pk db = Return (HTTP_200_OK m1 o1) db1
    /\ status o1 = DELIVERED
    /\ OrderUpdateStatusView_post data pk db1 = Return (HTTP_200_OK m2 o2) db2
    /\ status o2 = DELIVERED
    /\ get_row rider_pk k (riders db2) = Some rider2
    /\ total_deliveries rider2 = (total_deliveries rider + 2)%Z
    /\ successful_deliveries rider2 = (successful_deliveries rider + 2)%Z
    /\ failed_deliveries rider2 = failed_deliveries rider.
Proof.
  intros Horder Hk Hrider _ _ Hv Hst.
  pose proof (get_row_some _ _ _ _ Horder) as [_ Hopk].
  pose proof (get_row_some _ _ _ _ Hrider) as [_ Hrpk].
  destruct (post_delivered data pk db order k rider v Horder Hk Hrider Hv Hst)
    as (m1 & db1 & Hrun1 & Hr1 & Ho1 & _).
  set (order1 := set_delivered now (validated_delivery_proof v)
                               (set_status DELIVERED order)) in *.
  set (rider1 := set_counters (total_deliveries rider + 1) (successful_deliveries rider + 1)
                              (failed_deliveries rider) rider) in *.
  assert (Horder1 : get_row order_pk pk (orders db1) = Some order1).
  { rewrite Ho1. now apply (get_put_row order_pk _ order). }
  assert (Hrider1 : get_row rider_pk k (riders db1) = Some rider1).
  { rewrite Hr1. now apply (get_put_row rider_pk _ rider). }
  destruct (post_delivered data pk db1 order1 k rider1 v Horder1 Hk Hrider1 Hv Hst)
    as (m2 & db2 & Hrun2 & Hr2 & _).
  eexists m1, _, db1, m2, _, db2, _.
  split; [exact Hrun1|]. split; [reflexivity|].
  split; [exact Hrun2|]. split; [reflexivity|].
  split; [rewrite Hr2; now apply (get_put_row rider_pk _ rider1)|].
  simpl. repeat split; lia.
Qed.

(** ** Confirmation and rescheduling *)

(** X19: only an order that is PENDING_CONFIRMATION can be confirmed: for
    any other status the request is a 400 and nothing changes.  A pending
    order is stored as CONFIRMED, which puts it into the working set of the
    next pass if it has no rider; and it can then be neither confirmed
    again nor rescheduled. *)
Theorem confirmation_is_guarded (pk : nat) (db : DB) (order : Order) :
  get_row order_pk pk (orders db) = Some order ->
  (status order <> PENDING_CONFIRMATION ->
   OrderConfirmView_post pk db
   = Return (HTTP_400_BAD_REQUEST "Order cannot be confirmed") db)
  /\ (status order = PENDING_CONFIRMATION ->
      let order' := set_status CONFIRMED order in
      let db1 := with_orders (put_row order_pk order') db in
      OrderConfirmView_post pk db
      = Return (HTTP_200_OK "Order confirmed successfully" order') db1
      /\ get_row order_pk pk (orders db1) = Some order'
      /\ (assigned_rider order = None -> confirmed_unassigned order' = true)
      /\ OrderConfirmView_post pk db1
         = Return (HTTP_400_BAD_REQUEST "Order cannot be confirmed") db1
      /\ OrderRescheduleView_post pk db1
         = Return (HTTP_400_BAD_REQUEST "Order cannot be rescheduled") db1).
Proof.
  intros Horder. pose proof (get_row_some _ _ _ _ Horder) as [_ Hpk]. split.
  - intros Hst. unfold OrderConfirmView_post, bind, query. rewrite Horder.
    destruct (status order); try reflexivity. congruence.
  - intros Hst order' db1.
    assert (Hget : get_row order_pk pk (orders db1) = Some order').
    { unfold db1. simpl. now apply (get_put_row order_pk _ order). }
    split; [|split; [exact Hget|split; [|split]]].
    + unfold OrderConfirmView_post, bind, query. rewrite Horder, Hst. reflexivity.
    + intros Hn. unfold confirmed_unassigned, order'. simpl. now rewrite Hn.
    + unfold OrderConfirmView_post, bind, query. rewrite Hget. reflexivity.
    + unfold OrderRescheduleView_post, bind, query. rewrite Hget. reflexivity.
Qed.

(** X20: only an order that is PENDING_CONFIRMATION can be rescheduled:
    for any other status the request is a 400 and nothing changes.  A
    pending order is stored as RESCHEDULE_REQUESTED, which keeps it out of
    the working set of a pass; and it can then be neither confirmed nor
    rescheduled again. *)
Theorem rescheduling_is_guarded (pk : nat) (db : DB) (order : Order) :
  get_row order_pk pk (orders db) = Some order ->
  (status order <> PENDING_CONFIRMATION ->
   OrderRescheduleView_post pk db
   = Return (HTTP_400_BAD_REQUEST "Order cannot be rescheduled") db)
  /\ (status order = PENDING_CONFIRMATION ->
      let order' := set_status RESCHEDULE_REQUESTED order in
      let db1 := with_orders (put_row order_pk order') db in
      OrderRescheduleView_post pk db
      = Return (HTTP_200_OK "Reschedule request received" order') db1
      /\ get_row order_pk pk (orders db1) = Some order'
      /\ confirmed_unassigned order' = false
      /\ OrderConfirmView_post pk db1
         = Return (HTTP_400_BAD_REQUEST "Order cannot be confirmed") db1
      /\ OrderRescheduleView_post pk db1
         = Return (HTTP_400_BAD_REQUEST "Order cannot be rescheduled") db1).
Proof.
  intros Horder. pose proof (get_row_some _ _ _ _ Horder) as [_ Hpk]. split.
  - intros Hst. unfold OrderRescheduleView_post, bind, query. rewrite Horder.
    destruct (status order); try reflexivity. congruence.
  - intros Hst order' db1.
    assert (Hget : get_row order_pk pk (orders db1) = Some order').
    { unfold db1. simpl. now apply (get_put_row order_pk _ order). }
    split; [|split; [exact Hget|split; [|split]]].
    + unfold OrderRescheduleView_post, bind, query. rewrite Horder, Hst. reflexivity.
    + reflexivity.
    + unfold OrderConfirmView_post, bind, query. rewrite Hget. reflexivity.
    + unfold OrderRescheduleView_post, bind, query. rewrite Hget. reflexivity.
Qed.

(** ** Rider availability *)

Lemma put_row_In_strong {A : Type} (pk : A -> nat) (x row : A) (t : list A) :
  In row (put_row pk x t) -> (In row t /\ pk row <> pk x) \/ row = x.
Proof.
  unfold put_row. intros H. apply in_map_iff in H. destruct H as (r & <- & Hr).
  destruct (pk r =? pk x) eqn:E; [now right|].
  left. split; [exact Hr|]. now apply Nat.eqb_neq.
Qed.

Lemma put_row_has {A : Type} (pk : A -> nat) (x r : A) (t : list A) (k : nat) :
  get_row pk k t = Some r -> pk x = k -> In x (put_row pk x t).
Proof.
  intros Hget Hpk. apply get_row_some in Hget. destruct Hget as [Hin Hk].
  unfold put_row. apply in_map_iff. exists r. split; [|exact Hin].
  now rewrite Hk, Hpk, Nat.eqb_refl.
Qed.

(** X21: [RiderUpdateStatusView.post] moves a rider in and out of the
    pool: with a status that is one of the three choices, the rider is
    stored with it and nothing else of the rider changes; after AVAILABLE
    the rider is in the pool the next cohort draws from, after ON_DELIVERY
    or OFFLINE no rider with that primary key is.  Any other status, or none, is a 400, an
    unknown rider a 404, and nothing changes. *)
Theorem rider_status_update_moves_the_pool (new_status : option string) (pk : nat) (db : DB) :
  (get_row rider_pk pk (riders db) = None ->
   RiderUpdateStatusView_post new_status pk db = Return RIDER_404_NOT_FOUND db)
  /\ (forall rider,
        get_row rider_pk pk (riders db) = Some rider ->
        match new_status with
        | None => None
        | Some text => rider_status_of text
        end = None ->
        RiderUpdateStatusView_post new_status pk db
        = Return (RIDER_400_BAD_REQUEST
                    "Invalid status. Must be AVAILABLE, ON_DELIVERY, or OFFLINE") db)
  /\ (forall rider text st,
        get_row rider_pk pk (riders db) = Some rider ->
        new_status = Some text ->
        rider_status_of text = Some st ->
        let rider' := set_rider_status st rider in
        let db1 := with_riders (put_row rider_pk rider') db in
        RiderUpdateStatusView_post new_status pk db
        = Return (RIDER_200_OK ("Rider status updated to " ++ text) rider') db1
        /\ get_row rider_pk pk (riders db1) = Some rider'
        /\ (st = AVAILABLE -> In rider' (available_riders db1))
        /\ (st <> AVAILABLE ->
            forall r, In r (available_riders db1) -> rider_pk r <> pk)).
Proof.
  split; [|split].
  - unfold RiderUpdateStatusView_post, bind, query. intros ->. reflexivity.
  - unfold RiderUpdateStatusView_post, bind, query.
    intros rider -> H. destruct new_status as [text|]; [|reflexivity].
    now rewrite H.
  - intros rider text st Hget -> Hst rider' db1.
    unfold RiderUpdateStatusView_post, bind, query. rewrite Hget, Hst.
    pose proof (get_row_some _ _ _ _ Hget) as [_ Hpk].
    split; [reflexivity|]. split; [|split].
    + unfold db1. simpl. now apply (get_put_row rider_pk _ rider).
    + intros ->. apply available_riders_In. split; [|reflexivity].
      unfold db1. simpl. now apply (put_row_has rider_pk _ rider _ pk).
    + intros Hna r Hr. apply available_riders_In in Hr. destruct Hr as [Hin Hav].
      unfold db1 in Hin. simpl in Hin. apply put_row_In_strong in Hin.
      destruct Hin as [[_ Hne]| ->].
      * simpl in Hne. congruence.
      * simpl in Hav. congruence.
Qed.


(** X22: the bulk actions of the rider admin act on the pool:
    [mark_available] puts every rider it matches into the pool, and
    [mark_offline] leaves in the pool only riders it did not match; both
    report the number of riders matched, and leave the unmatched riders,
    the orders and the routes as they were. *)
Theorem bulk_actions_move_the_pool (queryset : Rider -> bool) (db : DB) :
  (exists db1,
      mark_available queryset db
      = Return (str (List.length (filter queryset (riders db)))
                  ++ " riders marked as available.") db1
      /\ orders db1 = orders db /\ routes db1 = routes db
      /\ (forall r, In r (riders db) -> queryset r = true ->
                    In (set_rider_status AVAILABLE r) (available_riders db1))
      /\ (forall r, In r (riders db) -> queryset r = false -> In r (riders db1)))
  /\ (exists db1,
         mark_offline queryset db
         = Return (str (List.length (filter queryset (riders db)))
                     ++ " riders marked as offline.") db1
         /\ orders db1 = orders db /\ routes db1 = routes db
         /\ (forall r, In r (available_riders db1) ->
                       In r (available_riders db) /\ queryset r = false)
         /\ (forall r, In r (riders db) -> queryset r = false -> In r (riders db1))).
Proof.
  split; eexists; (split; [reflexivity|]); simpl; repeat split.
  - intros r Hin Hq. apply available_riders_In. split; [|reflexivity].
    simpl. apply in_map_iff. exists r. now rewrite Hq.
  - intros r Hin Hq. apply in_map_iff. exists r. now rewrite Hq.
  - apply available_riders_In in H. destruct H as [Hin Hav]. simpl in Hin.
    apply in_map_iff in Hin. destruct Hin as (r0 & E & Hr0).
    destruct (queryset r0); subst r; [discriminate|].
    apply available_riders_In. now split.
  - apply available_riders_In in H. destruct H as [Hin Hav]. simpl in Hin.
    apply in_map_iff in Hin. destruct Hin as (r0 & E & Hr0).
    destruct (queryset r0) eqn:Hq; subst r; [discriminate|exact Hq].
  - intros r Hin Hq. apply in_map_iff. exists r. now rewrite Hq.
Qed.

(** X23: [mark_as_delivered] of the order admin stores every order it
    matches as DELIVERED, delivered now, and leaves the others; unlike the
    status view it writes to no rider, so no delivery counter moves, and it
    logs no message. *)
Theorem bulk_delivery_moves_no_counter (queryset : Order -> bool) (db : DB) :
  exists db1,
    mark_as_delivered queryset db
    = Return (str (List.length (filter queryset (orders db)))
                ++ " orders marked as delivered.") db1
    /\ riders db1 = riders db /\ routes db1 = routes db
    /\ sms_logs db1 = sms_logs db
    /\ map order_pk (orders db1) = map order_pk (orders db)
    /\ (forall o, In o (orders db) -> queryset o = true ->
                  In (set_delivered_at now (set_status DELIVERED o)) (orders db1))
    /\ (forall o, In o (orders db) -> queryset o = false -> In o (orders db1))
    /\ (forall o', In o' (orders db1) ->
                   status o' = DELIVERED \/ In o' (orders db)).
Proof.
  eexists. split; [reflexivity|]. simpl. repeat split.
  - rewrite map_map. apply map_ext. intros o. now destruct (queryset o).
  - intros o Hin Hq. apply in_map_iff. exists o. now rewrite Hq.
  - intros o Hin Hq. apply in_map_iff. exists o. now rewrite Hq.
  - intros o' Hin. apply in_map_iff in Hin. destruct Hin as (o & <- & Ho).
    destruct (queryset o); [now left|now right].
Qed.

(** ** Manual assignment, again *)

(** X24: a manual assignment that is rejected has written nothing: a
    request from a user who is not staff (403), for an unknown order or
    rider (404), or without a rider id (400) leaves the database as it
    was. *)
Theorem rejected_manual_assignment_writes_nothing (request : ManualAssign) (pk : nat)
        (db : DB) :
  (is_staff request = false ->
   ManualAssignOrderView_post request pk db
   = Return (HTTP_403_FORBIDDEN "Only staff can manually assign orders") db)
  /\ (is_staff request = true -> get_row order_pk pk (orders db) = None ->
      ManualAssignOrderView_post request pk db = Return HTTP_404_NOT_FOUND db)
  /\ (forall db' response,
        ManualAssignOrderView_post request pk db = Return response db' ->
        (forall message order, response <> HTTP_200_OK message order) ->
        db' = db).
Proof.
  split; [|split].
  - intros H. unfold ManualAssignOrderView_post. now rewrite H.
  - intros H Hn. unfold ManualAssignOrderView_post. rewrite H. cbn [negb].
    unfold bind, query. now rewrite Hn.
  - intros db' response Hrun Hno.
    pose proof (manual_assign_cases request pk db) as H. rewrite Hrun in H.
    destruct response as [m o|m|m|]; try exact H.
    exfalso. now apply (Hno m o).
Qed.

(** X25: manual assignment checks neither the status of the order nor
    that of the rider: for a staff request, any order that has a landmark,
    whatever its status, and any rider, AVAILABLE or not, the request
    succeeds and the order is stored with status ASSIGNED and the rider as
    its assigned rider, and is otherwise as it was. *)
Theorem manual_assignment_checks_no_status (pk k : nat) (db : DB)
        (order : Order) (rider : Rider) :
  get_row order_pk pk (orders db) = Some order ->
  landmark order <> None ->
  get_row rider_pk (S k) (riders db) = Some rider ->
  exists order' db',
    ManualAssignOrderView_post (mkManualAssign true (Some (S k))) pk db
    = Return (HTTP_200_OK "Order assigned successfully" order') db'
    /\ get_row order_pk pk (orders db') = Some order'
    /\ status order' = ASSIGNED
    /\ assigned_rider order' = Some (S k)
    /\ same_but_assignment order order'.
Proof.
  intros Horder Hl Hrider.
  pose proof (get_row_some _ _ _ _ Horder) as [_ Hpk].
  pose proof (get_row_some _ _ _ _ Hrider) as [_ Hrpk].
  unfold ManualAssignOrderView_post. cbn [is_staff rider_id negb].
  unfold bind at 1, query. rewrite Horder. unfold bind at 1. rewrite Hrider.
  unfold bind at 1, save_order, update. unfold bind at 1, create_route.
  cbn [landmark set_assignment].
  destruct (landmark order) as [l|] eqn:El; [|congruence].
  unfold bind at 1, query. unfold bind at 1, update. unfold ret at 1.
  unfold bind at 1, save_route, update. unfold bind at 1.
  match goal with
  | |- context [send_rider_assignment_sms ?r [?o] ?d] =>
      pose proof (send_rider_assignment_sms_cases r [o] d) as Hs;
      destruct (send_rider_assignment_sms_returns r o [] d) as (b & db3 & Hrun)
  end.
  { simpl. rewrite El. discriminate. }
  rewrite Hrun in Hs |- *. destruct Hs as (_ & _ & Ho).
  unfold ret. eexists _, _. split; [reflexivity|].
  split; [rewrite Ho; simpl; now apply (get_put_row order_pk _ order)|].
  split; [reflexivity|]. split; [simpl; now rewrite Hrpk|].
  repeat split.
Qed.

(** ** The assignment view *)

(** X26: [AssignOrdersView.post] runs the pass on the default working set
    for staff and nothing for anyone else: a request that is not from staff
    is a 403 and leaves the database as it was; for staff, primary keys
    being unique, every order that was not CONFIRMED and without rider is
    after the request as it was before, whatever the outcome. *)
Theorem assignment_view_touches_only_waiting_orders (user_is_staff : bool) (db : DB) :
  (user_is_staff = false ->
   AssignOrdersView_post user_is_staff db
   = Return (AssignForbidden "Only staff can trigger assignments") db)
  /\ (NoDup (map order_pk (orders db)) ->
      forall o, In o (orders db) -> confirmed_unassigned o = false ->
                In o (orders (final_db (AssignOrdersView_post user_is_staff db)))).
Proof.
  split.
  - intros ->. reflexivity.
  - intros Hnd o Ho Hq. destruct user_is_staff; [|exact Ho].
    unfold AssignOrdersView_post, bind. cbn [negb].
    pose proof (assign_orders_keeps None db) as H. cbv zeta in H.
    assert (Hk : pass_keeps db (filter confirmed_unassigned (orders db))
                            (final_db (assign_orders_to_riders None db))).
    { destruct (assign_orders_to_riders None db) as [[m|c t d] db1|e db1]; simpl.
      - destruct H as [-> _]. apply pass_keeps_refl.
      - apply H.
      - exact H. }
    assert (Hfin : final_db
                     match assign_orders_to_riders None db with
                     | Return a db' => ret (AssignCompleted "Assignment completed" a) db'
                     | Raised e db' => Raised e db'
                     end
                   = final_db (assign_orders_to_riders None db)).
    { now destruct (assign_orders_to_riders None db). }
    rewrite Hfin. destruct Hk as (_ & _ & Hkeep & _). apply Hkeep; [exact Ho|].
    intros x Hx E. apply filter_In in Hx. destruct Hx as [Hx Hqx].
    apply (pk_injective order_pk (orders db) x o Hnd Hx Ho) in E. congruence.
Qed.


(** ** The list of available riders *)

Lemma insert_by_sorted {A : Type} (before : A -> A -> bool) (R : A -> A -> Prop)
      (x : A) (l : list A) :
  (forall a b, before a b = true -> R a b) ->
  (forall a b, before a b = false -> R b a) ->
  (forall a b c, R a b -> R b c -> R a c) ->
  StronglySorted R l -> StronglySorted R (insert_by before x l).
Proof.
  intros Ht Hf Htrans. induction 1 as [|y l Hs IH Hy]; simpl.
  - constructor; constructor.
  - destruct (before y x) eqn:E.
    + constructor; [exact IH|].
      apply Forall_forall. intros z Hz.
      apply (Permutation_in _ (insert_by_perm before x l)) in Hz.
      destruct Hz as [<-|Hz]; [now apply Ht|].
      rewrite Forall_forall in Hy. auto.
    + constructor; [now constructor|].
      constructor; [now apply Hf|].
      rewrite Forall_forall in Hy |- *. intros z Hz.
      apply (Htrans _ y); [now apply Hf|auto].
Qed.

Lemma sort_by_sorted {A : Type} (before : A -> A -> bool) (R : A -> A -> Prop)
      (l : list A) :
  (forall a b, before a b = true -> R a b) ->
  (forall a b, before a b = false -> R b a) ->
  (forall a b c, R a b -> R b c -> R a c) ->
  StronglySorted R (sort_by before l).
Proof.
  intros Ht Hf Htrans. induction l as [|x l IH]; simpl.
  - constructor.
  - now apply insert_by_sorted.
Qed.

(** X27: [RiderAvailableListView] lists exactly the riders that are
    AVAILABLE, each as often as in the table, from the highest rating down;
    they are the riders of the pool a cohort draws from. *)
Theorem available_list_is_the_pool (db : DB) :
  (forall r, In r (RiderAvailableListView_get_queryset db)
             <-> In r (riders db) /\ rider_status r = AVAILABLE)
  /\ Permutation (RiderAvailableListView_get_queryset db) (available_riders db)
  /\ StronglySorted (fun a b => (rating b <= rating a)%Q)
                    (RiderAvailableListView_get_queryset db).
Proof.
  unfold RiderAvailableListView_get_queryset. split; [|split].
  - intros r. rewrite sort_by_In, filter_In. unfold is_available.
    destruct (rider_status r); simpl; intuition congruence.
  - eapply perm_trans; [apply sort_by_perm|].
    apply Permutation_sym, sort_by_perm.
  - apply sort_by_sorted.
    + intros a b H. apply Qlt_le_weak, Qgt_alt.
      destruct (rating a ?= rating b)%Q; congruence.
    + intros a b H. apply Qle_alt. destruct (rating a ?= rating b)%Q; congruence.
    + intros a b c H1 H2. eapply Qle_trans; eassumption.
Qed.

End Engine.

(** ** The theorems at concrete inputs *)

(** The idle rider scores 0, and is selected all the same. *)
Lemma zero_score_rider_is_selected :
  available_riders zero_score_db = [idle_rider]
  /\ (total_score_spec (Some westgate) 20 zero_score_db idle_rider == 0)%Q
  /\ score_rider_float (Some westgate) [waiting_order] idle_rider zero_score_db
     = Return (idle_rider, float_of_int 0) zero_score_db
  /\ _find_best_rider [idle_rider] (Some westgate) [waiting_order] zero_score_db
     = Return (Some idle_rider) zero_score_db
  /\ exists db',
       _assign_group_to_rider example_gateway example_strftime
                              (Some westgate) 20 [waiting_order] zero_score_db
       = Return (GroupSuccess "Westgate" "Rider" 1 1) db'.
Proof.
  split; [reflexivity|]. split; [reflexivity|].
  split; [vm_compute; reflexivity|].
  split; [vm_compute; reflexivity|]. eexists. vm_compute. reflexivity.
Qed.

Lemma nonempty_pool_always_selects_witness :
  available_riders zero_score_db <> []
  /\ (exists best,
         _find_best_rider (available_riders zero_score_db) (Some westgate)
                          [waiting_order] zero_score_db
         = Return (Some best) zero_score_db
         /\ In best (available_riders zero_score_db))
  /\ (forall name reason count db',
         _assign_group_to_rider example_gateway example_strftime
                                (Some westgate) 20 [waiting_order] zero_score_db
         <> Return (GroupFailure name reason count) db').
Proof.
  assert (H : available_riders zero_score_db <> []) by (vm_compute; discriminate).
  split; [exact H|].
  exact (nonempty_pool_always_selects example_gateway example_strftime
           (Some westgate) 20 waiting_order [] zero_score_db H).
Defined.



Lemma selection_is_deterministic_first_highest_witness :
  (forall r, In r [rated_rider; tried_rider] -> two_places (rating r))
  /\ _find_best_rider [rated_rider; tried_rider] (Some westgate) [waiting_order] tie_db
     = Return (Some tried_rider) tie_db
  /\ float_lt (float_score (Some westgate) 20 tie_db rated_rider)
              (float_score (Some westgate) 20 tie_db tried_rider) = true.
Proof.
  assert (H : forall r, In r [rated_rider; tried_rider] -> two_places (rating r)).
  { intros r [<-|[<-|[]]]; [exists 402%Z|exists 302%Z]; (split; [lia|reflexivity]). }
  split; [exact H|].
  destruct (selection_is_deterministic_first_highest (Some westgate) waiting_order []
              rated_rider [tried_rider] tie_db)
    as (best & _ & Hbest & _ & Hfirst & Hnum).
  destruct (Hfirst (Hnum H)) as (l1 & l2 & Hsplit & H1 & _).
  assert (E : best = tried_rider).
  { vm_compute in Hbest. now injection Hbest as <-. }
  subst best. split; [exact Hbest|].
  apply H1. destruct l1 as [|x l1]; [discriminate Hsplit|].
  injection Hsplit as <- _. now left.
Defined.

(** Rounding can decide between two riders whose exact scores are the
    same: each of the two scores 45.1 exactly, the floats are
    45.099999999999994 and 45.1, and the second rider is selected. *)
Lemma rounding_decides_a_tie :
  available_riders tie_db = [rated_rider; tried_rider]
  /\ (total_score_spec (Some westgate) 20 tie_db rated_rider == 451 # 10)%Q
  /\ (total_score_spec (Some westgate) 20 tie_db tried_rider == 451 # 10)%Q
  /\ float_score (Some westgate) 20 tie_db rated_rider
     = S754_finite false 6347260724825292 (-47)
  /\ float_score (Some westgate) 20 tie_db tried_rider
     = S754_finite false 6347260724825293 (-47)
  /\ _find_best_rider [rated_rider; tried_rider] (Some westgate) [waiting_order] tie_db
     = Return (Some tried_rider) tie_db.
Proof. repeat split; vm_compute; reflexivity. Qed.


(** Two stops at the same time, the second stop ahead of the first in the
    table: the optimizer makes the second stop the first. *)
Lemma tied_routes_are_numbered_in_table_order :
  map (fun r => (route_pk r, sequence r, estimated_arrival r)) (routes tied_routes_db)
  = [(1, 2%Z, 540); (2, 1%Z, 540)]
  /\ exists summary db1,
       optimize_rider_route example_strftime idle_rider 20 tied_routes_db
       = Return summary db1
       /\ map (fun r => (route_pk r, sequence r, estimated_arrival r)) (routes db1)
          = [(1, 1%Z, 540); (2, 2%Z, 540)].
Proof. split; [reflexivity|]. eexists _, _. split; vm_compute; reflexivity. Qed.

Lemma optimize_rider_route_idempotent_witness :
  NoDup (map route_pk (routes routes_db))
  /\ exists summary db1,
       optimize_rider_route example_strftime idle_rider 20 routes_db
       = Return summary db1
       /\ optimize_rider_route example_strftime idle_rider 20 db1
          = Return summary db1
       /\ map sequence (routes db1) = [3; 1; 2; 4]%Z.
Proof.
  assert (H : NoDup (map route_pk (routes routes_db))).
  { simpl. repeat constructor; simpl; intuition discriminate. }
  split; [exact H|].
  destruct (optimize_rider_route_idempotent example_strftime idle_rider 20 routes_db H)
    as (sel & summary & db1 & Hrun & Hagain & _).
  exists summary, db1. split; [exact Hrun|]. split; [exact Hagain|].
  vm_compute in Hrun. injection Hrun as _ <-. reflexivity.
Defined.

Lemma delivery_outcome_updates_counters_witness :
  get_row order_pk 9 (orders transit_db) = Some transit_order
  /\ assigned_rider transit_order = Some 1
  /\ get_row rider_pk 1 (riders transit_db) = Some idle_rider
  /\ can_count idle_rider
  /\ is_valid (mkStatusUpdate (Some DELIVERED) " left at the gate " "")
     = Some (mkValidatedData DELIVERED "left at the gate" "")
  /\ exists message order' rider' db',
       OrderUpdateStatusView_post example_gateway 0 example_strftime
         (mkStatusUpdate (Some DELIVERED) " left at the gate " "") 9 transit_db
       = Return (HTTP_200_OK message order') db'
       /\ status order' = DELIVERED
       /\ get_row rider_pk 1 (riders db') = Some rider'
       /\ total_deliveries rider' = 1%Z
       /\ successful_deliveries rider' = 1%Z
       /\ failed_deliveries rider' = 0%Z.
Proof.
  assert (H1 : get_row order_pk 9 (orders transit_db) = Some transit_order) by reflexivity.
  assert (H2 : assigned_rider transit_order = Some 1) by reflexivity.
  assert (H3 : get_row rider_pk 1 (riders transit_db) = Some idle_rider) by reflexivity.
  assert (H4 : is_valid (mkStatusUpdate (Some DELIVERED) " left at the gate " "")
               = Some (mkValidatedData DELIVERED "left at the gate" "")) by reflexivity.
  assert (H5 : can_count idle_rider) by (repeat split).
  repeat (split; [assumption|]).
  destruct (proj1 (delivery_outcome_updates_counters example_gateway 0 example_strftime
                     (mkStatusUpdate (Some DELIVERED) " left at the gate " "") 9
                     transit_db transit_order 1 idle_rider _ H1 H2 H3 H5 H4) eq_refl)
    as (message & order' & rider' & db' & Hrun & Hs & Hg & Ht & Hsu & Hf & _).
  exists message, order', rider', db'.
  split; [exact Hrun|]. split; [exact Hs|]. split; [exact Hg|].
  split; [exact Ht|]. split; [exact Hsu|exact Hf].
Defined.

(** A proof of delivery that is blank is no proof: the request is
    rejected, and nothing is written. *)
Lemma blank_proof_is_rejected :
  is_valid (mkStatusUpdate (Some DELIVERED) "   " "") = None
  /\ OrderUpdateStatusView_post example_gateway 0 example_strftime
       (mkStatusUpdate (Some DELIVERED) "   " "") 9 transit_db
     = Return (HTTP_400_BAD_REQUEST "serializer.errors") transit_db.
Proof. split; reflexivity. Qed.


Lemma no_rider_selected_twice_witness :
  exists new,
    routes (final_db (assign_orders_to_riders example_gateway example_strftime
                                              None two_cohorts_db))
    = (routes two_cohorts_db ++ new)%list
    /\ NoDup (map route_rider new)
    /\ map route_rider new = [4; 5].
Proof.
  destruct (no_rider_selected_twice example_gateway example_strftime None two_cohorts_db)
    as (new & Hr & Hnd & _).
  exists new. split; [exact Hr|]. split; [exact Hnd|].
  vm_compute in Hr. rewrite <- Hr. reflexivity.
Defined.

Lemma manual_assignment_leaves_rider_witness :
  available_riders
    (final_db (ManualAssignOrderView_post example_gateway example_strftime
                 (mkManualAssign true (Some 1)) 7 zero_score_db))
  = [idle_rider]
  /\ exists message order' db',
       ManualAssignOrderView_post example_gateway example_strftime
         (mkManualAssign true (Some 1)) 7 zero_score_db
       = Return (HTTP_200_OK message order') db'
       /\ status order' = ASSIGNED
       /\ map sequence (routes db') = [1%Z].
Proof.
  destruct (manual_assignment_leaves_rider example_gateway example_strftime
              (mkManualAssign true (Some 1)) 7 zero_score_db) as (_ & Hpool & _).
  split; [exact Hpool|].
  eexists _, _, _. split; [vm_compute; reflexivity|]. split; reflexivity.
Defined.

(** ** The further properties at concrete inputs *)

Lemma report_accounts_for_every_order_witness :
  exists count total details db',
    assign_orders_to_riders example_gateway example_strftime None two_cohorts_db
    = Return (Assigned count total details) db'
    /\ total = 2 /\ count = 2
    /\ list_sum (map order_count_of details) = total.
Proof.
  assert (H : exists count total details db',
             assign_orders_to_riders example_gateway example_strftime None two_cohorts_db
             = Return (Assigned count total details) db'
             /\ total = 2 /\ count = 2).
  { vm_compute. eexists _, _, _, _. repeat split. }
  destruct H as (count & total & details & db' & H & Ht & Hc).
  exists count, total, details, db'. repeat split; try assumption.
  exact (proj1 (proj2 (proj2
           (report_accounts_for_every_order example_gateway example_strftime
              None two_cohorts_db db' count total details H)))).
Defined.

Lemma successes_bounded_by_pool_witness :
  exists count total details db',
    assign_orders_to_riders example_gateway example_strftime None two_cohorts_db
    = Return (Assigned count total details) db'
    /\ List.length (filter success details) + pool_size (riders db')
       <= pool_size (riders two_cohorts_db).
Proof.
  assert (H : exists count total details db',
             assign_orders_to_riders example_gateway example_strftime None two_cohorts_db
             = Return (Assigned count total details) db').
  { vm_compute. eexists _, _, _, _. reflexivity. }
  destruct H as (count & total & details & db' & H).
  exists count, total, details, db'. split; [exact H|].
  exact (successes_bounded_by_pool example_gateway example_strftime
           None two_cohorts_db db' count total details H).
Defined.



Lemma route_creation_keeps_sequences_distinct_witness :
  exists route db',
    _create_delivery_route idle_rider (Some westgate) 20 [waiting_order] routes_db
    = Return route db'
    /\ sequence route = 5%Z
    /\ (forall r, In r (routes routes_db) -> same_rider_and_date idle_rider 20 r = true ->
                  (sequence r < sequence route)%Z).
Proof.
  assert (H : exists route db',
             _create_delivery_route idle_rider (Some westgate) 20 [waiting_order] routes_db
             = Return route db' /\ sequence route = 5%Z).
  { vm_compute. eexists _, _. split; reflexivity. }
  destruct H as (route & db' & H & Hs). exists route, db'.
  split; [exact H|]. split; [exact Hs|].
  exact (proj1 (route_creation_keeps_sequences_distinct idle_rider (Some westgate) 20
                  [waiting_order] routes_db db' route H)).
Defined.

Lemma route_is_built_from_its_orders_witness :
  exists route db',
    _create_delivery_route idle_rider (Some westgate) 20
      [waiting_order; example_order 8 (Some westgate) 500 CONFIRMED None] routes_db
    = Return route db'
    /\ estimated_arrival route = 500
    /\ route_orders route = [7; 8].
Proof.
  assert (H : exists route db',
             _create_delivery_route idle_rider (Some westgate) 20
               [waiting_order; example_order 8 (Some westgate) 500 CONFIRMED None]
               routes_db
             = Return route db' /\ estimated_arrival route = 500).
  { vm_compute. eexists _, _. split; reflexivity. }
  destruct H as (route & db' & H & He). exists route, db'.
  split; [exact H|]. split; [exact He|].
  exact (proj1 (proj2 (proj2 (proj2
           (route_is_built_from_its_orders idle_rider (Some westgate) 20 _ routes_db db'
              route H))))).
Defined.

Lemma route_creation_fails_exactly_when_witness :
  In (rider_pk idle_rider) (map rider_pk (riders zero_score_db))
  /\ (forall o, In o [waiting_order] ->
                In (order_pk o) (map order_pk (orders zero_score_db)))
  /\ (forall r, In r (routes zero_score_db) ->
                same_rider_and_date idle_rider 20 r = true ->
                (sequence r < max_integer)%Z)
  /\ _create_delivery_route idle_rider None 20 [waiting_order] zero_score_db
     = Raised IntegrityError zero_score_db.
Proof.
  assert (H1 : In (rider_pk idle_rider) (map rider_pk (riders zero_score_db)))
    by (simpl; now left).
  assert (H2 : forall o, In o [waiting_order] ->
                         In (order_pk o) (map order_pk (orders zero_score_db))).
  { intros o [<-|[]]. simpl. intuition. }
  assert (H3 : forall r, In r (routes zero_score_db) ->
                         same_rider_and_date idle_rider 20 r = true ->
                         (sequence r < max_integer)%Z).
  { intros r []. }
  split; [exact H1|]. split; [exact H2|]. split; [exact H3|].
  pose proof (route_creation_fails_exactly_when idle_rider None 20 [waiting_order]
                zero_score_db H1 H2 H3) as Hm.
  destruct (_create_delivery_route idle_rider None 20 [waiting_order] zero_score_db)
    as [route db'|e db'].
  - destruct Hm as [_ Hl]. now contradiction Hl.
  - destruct Hm as (-> & [[Hos _]|(_ & _ & ->)]); [discriminate Hos|reflexivity].
Defined.

Lemma successful_cohort_is_booked_witness :
  exists db' best route o' best',
    _assign_group_to_rider example_gateway example_strftime (Some westgate) 20
                           [waiting_order] zero_score_db
    = Return (GroupSuccess "Westgate" "Rider" 1 1) db'
    /\ In best (available_riders zero_score_db)
    /\ In route (routes db')
    /\ route_orders route = [7]
    /\ get_row order_pk 7 (orders db') = Some o'
    /\ status o' = ASSIGNED
    /\ assigned_rider o' = Some (rider_pk best)
    /\ get_row rider_pk (rider_pk best) (riders db') = Some best'
    /\ rider_status best' = ON_DELIVERY.
Proof.
  assert (H : exists db',
             _assign_group_to_rider example_gateway example_strftime (Some westgate) 20
                                    [waiting_order] zero_score_db
             = Return (GroupSuccess "Westgate" "Rider" 1 1) db').
  { vm_compute. eexists. reflexivity. }
  destruct H as (db' & H).
  assert (Hnd : NoDup (map order_pk [waiting_order])).
  { simpl. constructor; [intros []|constructor]. }
  assert (Hrows : forall o, In o [waiting_order] ->
                            In (order_pk o) (map order_pk (orders zero_score_db))).
  { intros o [<-|[]]. simpl. intuition. }
  destruct (successful_cohort_is_booked example_gateway example_strftime
              (Some westgate) 20 [waiting_order] zero_score_db db'
              "Westgate" "Rider" 1 1 H Hnd Hrows)
    as (best & route & Hbest & _ & _ & Hroute & _ & _ & _ & Hro & Hos & Hr).
  destruct (Hos waiting_order (or_introl eq_refl)) as (o' & Hget & Hst & Har & _).
  destruct Hr as (best' & Hgetr & Hstr & _).
  exists db', best, route, o', best'. repeat split; assumption.
Defined.

Lemma status_update_keeps_counters_adding_up_witness :
  (forall r, In r (riders transit_db) -> counters_add_up r)
  /\ forall r,
       In r (riders (final_db
               (OrderUpdateStatusView_post example_gateway 0 example_strftime
                  (mkStatusUpdate (Some FAILED) "" "nobody home") 9 transit_db))) ->
       counters_add_up r.
Proof.
  assert (H : forall r, In r (riders transit_db) -> counters_add_up r).
  { intros r [<-|[]]. reflexivity. }
  split; [exact H|].
  exact (status_update_keeps_counters_adding_up example_gateway 0 example_strftime
           (mkStatusUpdate (Some FAILED) "" "nobody home") 9 transit_db H).
Defined.

Lemma status_update_keeps_rider_status_witness :
  NoDup (map rider_pk (riders transit_db))
  /\ map rider_status
       (riders (final_db
          (OrderUpdateStatusView_post example_gateway 0 example_strftime
             (mkStatusUpdate (Some DELIVERED) "left at the gate" "") 9 transit_db)))
     = map rider_status (riders transit_db).
Proof.
  assert (H : NoDup (map rider_pk (riders transit_db))).
  { simpl. constructor; [intros []|constructor]. }
  split; [exact H|].
  exact (proj1 (status_update_keeps_rider_status example_gateway 0 example_strftime
                  (mkStatusUpdate (Some DELIVERED) "left at the gate" "") 9 transit_db H)).
Defined.

Lemma delivery_reported_twice_counts_twice_witness :
  exists m1 o1 db1 m2 o2 db2 rider2,
    OrderUpdateStatusView_post example_gateway 0 example_strftime
      (mkStatusUpdate (Some DELIVERED) "left at the gate" "") 9 transit_db
    = Return (HTTP_200_OK m1 o1) db1
    /\ status o1 = DELIVERED
    /\ OrderUpdateStatusView_post example_gateway 0 example_strftime
         (mkStatusUpdate (Some DELIVERED) "left at the gate" "") 9 db1
       = Return (HTTP_200_OK m2 o2) db2
    /\ status o2 = DELIVERED
    /\ get_row rider_pk 1 (riders db2) = Some rider2
    /\ total_deliveries rider2 = 2%Z
    /\ successful_deliveries rider2 = 2%Z
    /\ failed_deliveries rider2 = 0%Z.
Proof.
  assert (H4 : (total_deliveries idle_rider + 2 <= max_integer)%Z) by discriminate.
  assert (H5 : (successful_deliveries idle_rider + 2 <= max_integer)%Z) by discriminate.
  exact (delivery_reported_twice_counts_twice example_gateway 0 example_strftime
           (mkStatusUpdate (Some DELIVERED) "left at the gate" "") 9 transit_db
           transit_order 1 idle_rider (mkValidatedData DELIVERED "left at the gate" "")
           eq_refl eq_refl eq_refl H4 H5 eq_refl eq_refl).
Defined.

(** An order that was delivered is put back to PENDING_CONFIRMATION. *)
Lemma status_update_ignores_current_status_witness :
  get_row order_pk 12 (orders delivered_db) = Some delivered_order
  /\ status delivered_order = DELIVERED
  /\ exists message order' db',
       OrderUpdateStatusView_post example_gateway 0 example_strftime
         (mkStatusUpdate (Some PENDING_CONFIRMATION) "" "") 12 delivered_db
       = Return (HTTP_200_OK message order') db'
       /\ get_row order_pk 12 (orders db') = Some order'
       /\ status order' = PENDING_CONFIRMATION.
Proof.
  assert (H1 : get_row order_pk 12 (orders delivered_db) = Some delivered_order)
    by reflexivity.
  assert (H3 : forall k, assigned_rider delivered_order = Some k ->
                         exists rider,
                           get_row rider_pk k (riders delivered_db) = Some rider
                           /\ can_count rider).
  { intros k E. injection E as <-. exists idle_rider. repeat split. }
  split; [exact H1|]. split; [reflexivity|].
  destruct (status_update_ignores_current_status example_gateway 0 example_strftime
              (mkStatusUpdate (Some PENDING_CONFIRMATION) "" "") 12 delivered_db
              delivered_order (mkValidatedData PENDING_CONFIRMATION "" "")
              H1 eq_refl H3)
    as (message & order' & db' & Hrun & Hget & Hst & _).
  exists message, order', db'. split; [exact Hrun|]. split; [exact Hget|exact Hst].
Defined.

Lemma confirmation_is_guarded_witness :
  get_row order_pk 11 (orders pending_db) = Some pending_order
  /\ status pending_order = PENDING_CONFIRMATION
  /\ OrderConfirmView_post 11 pending_db
     = Return (HTTP_200_OK "Order confirmed successfully"
                 (set_status CONFIRMED pending_order))
              (with_orders (put_row order_pk (set_status CONFIRMED pending_order))
                           pending_db)
  /\ OrderConfirmView_post 11
       (with_orders (put_row order_pk (set_status CONFIRMED pending_order)) pending_db)
     = Return (HTTP_400_BAD_REQUEST "Order cannot be confirmed")
              (with_orders (put_row order_pk (set_status CONFIRMED pending_order))
                           pending_db).
Proof.
  assert (H1 : get_row order_pk 11 (orders pending_db) = Some pending_order)
    by reflexivity.
  assert (H2 : status pending_order = PENDING_CONFIRMATION) by reflexivity.
  destruct (proj2 (confirmation_is_guarded 11 pending_db pending_order H1) H2)
    as (Hrun & _ & _ & Hagain & _).
  repeat split; assumption.
Defined.

Lemma rescheduling_is_guarded_witness :
  get_row order_pk 11 (orders pending_db) = Some pending_order
  /\ status pending_order = PENDING_CONFIRMATION
  /\ OrderRescheduleView_post 11 pending_db
     = Return (HTTP_200_OK "Reschedule request received"
                 (set_status RESCHEDULE_REQUESTED pending_order))
              (with_orders (put_row order_pk (set_status RESCHEDULE_REQUESTED pending_order))
                           pending_db)
  /\ OrderConfirmView_post 11
       (with_orders (put_row order_pk (set_status RESCHEDULE_REQUESTED pending_order))
                    pending_db)
     = Return (HTTP_400_BAD_REQUEST "Order cannot be confirmed")
              (with_orders (put_row order_pk (set_status RESCHEDULE_REQUESTED pending_order))
                           pending_db).
Proof.
  assert (H1 : get_row order_pk 11 (orders pending_db) = Some pending_order)
    by reflexivity.
  assert (H2 : status pending_order = PENDING_CONFIRMATION) by reflexivity.
  destruct (proj2 (rescheduling_is_guarded 11 pending_db pending_order H1) H2)
    as (Hrun & _ & _ & Hconfirm & _).
  repeat split; assumption.
Defined.

Lemma manual_assignment_checks_no_status_witness :
  get_row order_pk 2 (orders orphan_db)
  = Some (example_order 2 (Some westgate) 600 CONFIRMED None)
  /\ get_row rider_pk 3 (riders orphan_db)
     = Some (example_rider 3 [1] OFFLINE 10 9 1 (45 # 10))
  /\ exists order' db',
       ManualAssignOrderView_post example_gateway example_strftime
         (mkManualAssign true (Some 3)) 2 orphan_db
       = Return (HTTP_200_OK "Order assigned successfully" order') db'
       /\ get_row order_pk 2 (orders db') = Some order'
       /\ status order' = ASSIGNED
       /\ assigned_rider order' = Some 3.
Proof.
  assert (H1 : get_row order_pk 2 (orders orphan_db)
               = Some (example_order 2 (Some westgate) 600 CONFIRMED None))
    by reflexivity.
  assert (H2 : get_row rider_pk 3 (riders orphan_db)
               = Some (example_rider 3 [1] OFFLINE 10 9 1 (45 # 10)))
    by reflexivity.
  split; [exact H1|]. split; [exact H2|].
  destruct (manual_assignment_checks_no_status example_gateway example_strftime
              2 2 orphan_db (example_order 2 (Some westgate) 600 CONFIRMED None)
              (example_rider 3 [1] OFFLINE 10 9 1 (45 # 10)) H1
              (fun E => eq_ind (Some westgate)
                          (fun l => match l with Some _ => True | None => False end)
                          I None E)
              H2)
    as (order' & db' & Hrun & Hget & Hst & Har & _).
  exists order', db'. repeat split; assumption.
Defined.
